(** * Calendar periods of django-schedule ([schedule/periods.py])

    A shallow embedding of the period hierarchy (Period, Year, Month, Week,
    Day) together with the part of Python's [datetime] module the periods
    compute with.

    - Instants are [datetime] field tuples, built, compared and moved by
      whole days the way [datetime] does it: the constructor and [replace]
      raise [ValueError] outside years 1 to 9999, and adding days raises
      [OverflowError] outside 0001-01-01 .. 9999-12-31.
    - Every instant that is compared or combined lives in one zone: the
      constructors are taken at their default [tzinfo] (UTC, or no zone when
      [USE_TZ] is off), so [tzinfo] never changes a comparison or a sum and
      is not a field.
    - A method that fills a cache returns the instance after the call; the
      storage collaborator is a function of the settings and a counter of
      the queries it has answered.
    - [get_periods] is a generator: the model runs it to exhaustion with a
      bound on the number of iterations. *)

From Stdlib Require Import ZArith Lia List Bool Sorted Permutation.
From stdpp Require Import base option list gmap strings.

Open Scope Z_scope.

(** ** Exceptions and results *)

Inductive exn : Type :=
| ValueError
| OverflowError
| AttributeError
| TypeError.

Inductive result (A : Type) : Type :=
| Ok (a : A)
| Raise (e : exn).

Arguments Ok {A} a.
Arguments Raise {A} e.

(** Sequencing stops at the first exception; stdpp's [x ← r; k] notation. *)
#[global] Instance result_ret : MRet result := fun _ a => Ok a.
#[global] Instance result_bind : MBind result := fun _ _ k r =>
  match r with
  | Ok a => k a
  | Raise e => Raise e
  end.

(** ** The proleptic Gregorian calendar of [datetime] *)

Module PyDatetime.

Definition MINYEAR : Z := 1.
Definition MAXYEAR : Z := 9999.
Definition _MAXORDINAL : Z := 3652059.

Definition _DI400Y : Z := 146097.
Definition _DI100Y : Z := 36524.
Definition _DI4Y : Z := 1461.

Definition _is_leap (year : Z) : bool :=
  (year mod 4 =? 0) && (negb (year mod 100 =? 0) || (year mod 400 =? 0)).

Definition _days_before_year (year : Z) : Z :=
  let y := year - 1 in
  y * 365 + y / 4 - y / 100 + y / 400.

(** [_DAYS_IN_MONTH], indexed from 1; the entry at 0 is the placeholder -1. *)
Definition _DAYS_IN_MONTH (month : Z) : Z :=
  match month with
  | 1 => 31 | 2 => 28 | 3 => 31 | 4 => 30 | 5 => 31 | 6 => 30
  | 7 => 31 | 8 => 31 | 9 => 30 | 10 => 31 | 11 => 30 | 12 => 31
  | _ => -1
  end.

Definition _DAYS_BEFORE_MONTH (month : Z) : Z :=
  match month with
  | 1 => 0 | 2 => 31 | 3 => 59 | 4 => 90 | 5 => 120 | 6 => 151
  | 7 => 181 | 8 => 212 | 9 => 243 | 10 => 273 | 11 => 304 | 12 => 334
  | _ => -1
  end.

Definition _days_in_month (year month : Z) : Z :=
  if (month =? 2) && _is_leap year then 29 else _DAYS_IN_MONTH month.

Definition _days_before_month (year month : Z) : Z :=
  _DAYS_BEFORE_MONTH month + (if (2 <? month) && _is_leap year then 1 else 0).

Definition _ymd2ord (year month day : Z) : Z :=
  _days_before_year year + _days_before_month year month + day.

Definition _ord2ymd (n : Z) : Z * Z * Z :=
  let n := n - 1 in
  let n400 := n / _DI400Y in
  let n := n mod _DI400Y in
  let year := n400 * 400 + 1 in
  let n100 := n / _DI100Y in
  let n := n mod _DI100Y in
  let n4 := n / _DI4Y in
  let n := n mod _DI4Y in
  let n1 := n / 365 in
  let n := n mod 365 in
  let year := year + n100 * 100 + n4 * 4 + n1 in
  if (n1 =? 4) || (n100 =? 4) then (year - 1, 12, 31)
  else
    let leapyear := (n1 =? 3) && (negb (n4 =? 24) || (n100 =? 3)) in
    let month := Z.shiftr (n + 50) 5 in
    let preceding :=
      _DAYS_BEFORE_MONTH month + (if (2 <? month) && leapyear then 1 else 0) in
    if n <? preceding then
      let month := month - 1 in
      let preceding :=
        preceding
        - (_DAYS_IN_MONTH month + (if (month =? 2) && leapyear then 1 else 0)) in
      (year, month, n - preceding + 1)
    else (year, month, n - preceding + 1).

(** A [datetime] value; a [date] is a [datetime] whose time of day is
    ignored by every function that accepts one. *)
Record datetime : Type := mk_datetime {
  year : Z;
  month : Z;
  day : Z;
  hour : Z;
  minute : Z;
  second : Z;
  microsecond : Z
}.

(** [_check_date_fields]: the constructor and [replace] raise [ValueError]
    outside the supported range. *)
Definition _check_date_fields (y m d : Z) : bool :=
  (MINYEAR <=? y) && (y <=? MAXYEAR) && (1 <=? m) && (m <=? 12)
  && (1 <=? d) && (d <=? _days_in_month y m).

Definition _check_time_fields (h mi s us : Z) : bool :=
  (0 <=? h) && (h <=? 23) && (0 <=? mi) && (mi <=? 59)
  && (0 <=? s) && (s <=? 59) && (0 <=? us) && (us <=? 999999).

(** [datetime.datetime(y, m, d, h, mi, s, us)] *)
Definition new_datetime (y m d h mi s us : Z) : result datetime :=
  if _check_date_fields y m d && _check_time_fields h mi s us
  then Ok (mk_datetime y m d h mi s us)
  else Raise ValueError.

(** The values a program can hold are the ones the constructor accepts. *)
Definition valid (dt : datetime) : Prop :=
  _check_date_fields (year dt) (month dt) (day dt)
  && _check_time_fields (hour dt) (minute dt) (second dt) (microsecond dt)
  = true.

(** [datetime.min] *)
Definition datetime_min : datetime := mk_datetime 1 1 1 0 0 0 0.

(** [dt.replace(year=y, month=m, day=d)]: a new value through the checking
    constructor, time of day kept. *)
Definition replace (dt : datetime) (y m d : Z) : result datetime :=
  new_datetime y m d (hour dt) (minute dt) (second dt) (microsecond dt).

Definition toordinal (dt : datetime) : Z :=
  _ymd2ord (year dt) (month dt) (day dt).

(** [datetime.combine(date.fromordinal(n), t)] with the time of day of [t]. *)
Definition fromordinal_at (n : Z) (t : datetime) : datetime :=
  let '(y, m, d) := _ord2ymd n in
  mk_datetime y m d (hour t) (minute t) (second t) (microsecond t).

(** [datetime.combine(d, datetime.time.min)], after [d = d.date()]. *)
Definition combine_midnight (d : datetime) : datetime :=
  mk_datetime (year d) (month d) (day d) 0 0 0 0.

(** [dt + datetime.timedelta(days=k)].  [timedelta] refuses more than
    999999999 days, and the sum raises [OverflowError] when the day leaves
    [1 .. _MAXORDINAL].  A whole number of days leaves the time of day as it
    is. *)
Definition add_days (dt : datetime) (k : Z) : result datetime :=
  if 999999999 <? Z.abs k then Raise OverflowError
  else
    let days := toordinal dt + k in
    if (0 <? days) && (days <=? _MAXORDINAL)
    then Ok (fromordinal_at days dt)
    else Raise OverflowError.

(** [dt - datetime.timedelta(days=k)] is [dt + (-timedelta(days=k))]. *)
Definition sub_days (dt : datetime) (k : Z) : result datetime :=
  add_days dt (- k).

(** [dt.isoweekday()]: Monday is 1, Sunday is 7. *)
Definition isoweekday (dt : datetime) : Z :=
  let r := toordinal dt mod 7 in
  if r =? 0 then 7 else r.

(** Comparison is the comparison of the field tuples
    [(year, month, day, hour, minute, second, microsecond)]. *)
Definition _getstate (dt : datetime) : list Z :=
  [year dt; month dt; day dt; hour dt; minute dt; second dt; microsecond dt].

Fixpoint _cmp_tuple (a b : list Z) : comparison :=
  match a, b with
  | [], [] => Eq
  | [], _ :: _ => Lt
  | _ :: _, [] => Gt
  | x :: a', y :: b' =>
      match Z.compare x y with
      | Eq => _cmp_tuple a' b'
      | c => c
      end
  end.

Definition _cmp (a b : datetime) : comparison :=
  _cmp_tuple (_getstate a) (_getstate b).

Definition dt_lt (a b : datetime) : bool :=
  match _cmp a b with Lt => true | _ => false end.
Definition dt_le (a b : datetime) : bool :=
  match _cmp a b with Gt => false | _ => true end.
Definition dt_gt (a b : datetime) : bool := dt_lt b a.
Definition dt_ge (a b : datetime) : bool := dt_le b a.

End PyDatetime.

Import PyDatetime.

(** ** Collaborators: occurrences, events, settings, storage *)

(** [schedule.models.Occurrence], as far as periods read it. *)
Module Occ.
Record t : Type := mk {
  event_id : Z;
  start : datetime;
  end_ : datetime;
  cancelled : bool
}.
End Occ.
Abbreviation Occurrence := Occ.t.

(** Modelled from the spec: the ordering of [schedule.models.Occurrence],
    which lives outside this module; occurrences order by start, then end. *)
Definition occ_cmp (a b : Occurrence) : comparison :=
  match _cmp (Occ.start a) (Occ.start b) with
  | Eq => _cmp (Occ.end_ a) (Occ.end_ b)
  | c => c
  end.

Definition occ_lt (a b : Occurrence) : bool :=
  match occ_cmp a b with Lt => true | _ => false end.

(** [sorted(l)]: Python's sort is stable and asks only for [<]; a stable
    insertion sort returns the same list. *)
Fixpoint insort (x : Occurrence) (l : list Occurrence) : list Occurrence :=
  match l with
  | [] => [x]
  | y :: l' => if occ_lt y x then y :: insort x l' else x :: y :: l'
  end.

Definition sorted (l : list Occurrence) : list Occurrence :=
  foldr insort [] l.

(** [schedule.models.Event]: periods only call [event.get_occurrences]. *)
Record Event : Type := mk_Event {
  event_pk : Z;
  get_occurrences : datetime -> datetime -> list Occurrence
}.

(** [schedule.conf.settings] and the storage manager
    [Occurrence.objects.filter(event__in=...)]. *)
Record Settings : Type := mk_Settings {
  USE_TZ : bool;
  FIRST_DAY_OF_WEEK : Z;
  SHOW_CANCELLED_OCCURRENCES : bool;
  objects_filter : list Event -> list Occurrence
}.

(** What the storage collaborator has been asked so far. *)
Record World : Type := mk_World {
  storage_queries : nat
}.

(** ** Period *)

Inductive Variant : Type := KYear | KMonth | KWeek | KDay.

(** A period instance.  [cls] is [None] for a plain [Period].  [attrs] holds
    the attributes that methods set after construction and test with
    [hasattr]. *)
Record Period : Type := mk_Period {
  cls : option Variant;
  start : datetime;
  end_ : datetime;
  events : list Event;
  occurrence_pool : option (list Occurrence);
  attrs : gmap string (list Occurrence)
}.

Definition hasattr (self : Period) (name : string) : bool :=
  bool_decide (is_Some (attrs self !! name)).

Definition setattr (self : Period) (name : string) (v : list Occurrence)
  : Period :=
  mk_Period (cls self) (start self) (end_ self) (events self)
            (occurrence_pool self) (<[name := v]> (attrs self)).

Definition getattr (self : Period) (name : string)
  : result (list Occurrence) :=
  match attrs self !! name with
  | Some v => Ok v
  | None => Raise AttributeError
  end.

(** [Period.__init__]; nothing is validated. *)
Definition Period__init__ (c : option Variant) (events : list Event)
    (start end_ : datetime)
    (parent_persisted_occurrences occurrence_pool : option (list Occurrence))
  : Period :=
  mk_Period c start end_ events occurrence_pool
    (match parent_persisted_occurrences with
     | Some po => {[ "_persisted_occurrences"%string := po ]}
     | None => ∅
     end).

(** [Period(events, start, end, ...)] *)
Definition new_Period := Period__init__ None.

(** [hasattr(self, "occurrence_pool")] holds on every instance:
    [__init__] sets the attribute. *)
Definition _get_sorted_occurrences (self : Period) : list Occurrence :=
  match occurrence_pool self with
  | Some pool =>
      List.filter
        (fun occurrence =>
           dt_lt (Occ.start occurrence) (end_ self)
           && dt_gt (Occ.end_ occurrence) (start self))
        pool
  | None =>
      sorted
        (flat_map (fun event => get_occurrences event (start self) (end_ self))
                  (events self))
  end.

(** The [occurrences] property; returns the value and the instance after
    the call. *)
Definition cached_get_sorted_occurrences (self : Period)
  : list Occurrence * Period :=
  match attrs self !! "_occurrences"%string with
  | Some occs => (occs, self)
  | None =>
      let occs := _get_sorted_occurrences self in
      (occs, setattr self "_occurrences" occs)
  end.

(** The attribute tested is spelled as in the source, [_persisted_occurrenes];
    the one read and written is [_persisted_occurrences].  Each run of the
    [else] branch is one query to the storage. *)
Definition get_persisted_occurrences (st : Settings) (self : Period)
    (w : World) : result (list Occurrence * Period * World) :=
  if hasattr self "_persisted_occurrenes" then
    po ← getattr self "_persisted_occurrences";
    Ok (po, self, w)
  else
    let po := objects_filter st (events self) in
    Ok (po, setattr self "_persisted_occurrences" po,
        mk_World (S (storage_queries w))).

(** The result of [classify_occurrence]: [{'occurrence': o, 'class': k}]. *)
Record Partial : Type := mk_Partial {
  occurrence : Occurrence;
  class : Z
}.

Definition classify_occurrence (st : Settings) (self : Period)
    (occurrence : Occurrence) : option Partial :=
  if Occ.cancelled occurrence && negb (SHOW_CANCELLED_OCCURRENCES st) then None
  else if dt_gt (Occ.start occurrence) (end_ self)
          || dt_lt (Occ.end_ occurrence) (start self) then None
  else
    let started :=
      dt_le (start self) (Occ.start occurrence)
      && dt_lt (Occ.start occurrence) (end_ self) in
    let ended :=
      dt_le (start self) (Occ.end_ occurrence)
      && dt_lt (Occ.end_ occurrence) (end_ self) in
    if started && ended then Some (mk_Partial occurrence 1)
    else if started then Some (mk_Partial occurrence 0)
    else if ended then Some (mk_Partial occurrence 3)
    else Some (mk_Partial occurrence 2).

Definition get_occurrence_partials (st : Settings) (self : Period)
  : list Partial * Period :=
  let '(occs, self) := cached_get_sorted_occurrences self in
  (omap (classify_occurrence st self) occs, self).

Definition has_occurrences (st : Settings) (self : Period) : bool * Period :=
  let '(occs, self) := cached_get_sorted_occurrences self in
  (existsb (fun o => bool_decide (is_Some (classify_occurrence st self o))) occs,
   self).

Definition get_time_slot (self : Period) (start' end' : datetime)
  : option Period :=
  if dt_ge start' (start self) && dt_le end' (end_ self)
  then Some (new_Period (events self) start' end' None None)
  else None.

(** ** Year, Month, Week, Day

    The reference date is always passed: the default "now" is the caller's
    clock reading.  The [tzinfo] parameter is taken at its default, which is
    how [create_sub_period], [next] and [prev] build every period they
    return: the bounds of the periods below are midnights of the module's
    zone (UTC when [USE_TZ] is on, no zone when it is off) and the reference
    date is read in that zone.  A period built with another [tzinfo], or
    from a date given in another zone, is outside this development. *)

Definition _get_year_range (date : datetime) : result (datetime * datetime) :=
  start ← new_datetime (year date) (month datetime_min) (day datetime_min)
            0 0 0 0;
  end_ ← new_datetime (year date + 1) (month datetime_min) (day datetime_min)
            0 0 0 0;
  Ok (start, end_).

(** [Year(events, date, parent_persisted_occurrences)]: no occurrence pool. *)
Definition Year (events : list Event) (date : datetime)
    (parent_persisted_occurrences : option (list Occurrence))
  : result Period :=
  '(start, end_) ← _get_year_range date;
  Ok (Period__init__ (Some KYear) events start end_
        parent_persisted_occurrences None).

Definition _get_month_range (date : datetime) : result (datetime * datetime) :=
  let year_ := year date in
  let month_ := month date in
  start ← replace datetime_min year_ month_ (day datetime_min);
  if month_ =? 12 then
    end_ ← replace start (year_ + 1) 1 (day start);
    Ok (start, end_)
  else
    end_ ← replace start (year start) (month_ + 1) (day start);
    Ok (start, end_).

Definition Month (events : list Event) (date : datetime)
    (parent_persisted_occurrences occurrence_pool : option (list Occurrence))
  : result Period :=
  '(start, end_) ← _get_month_range date;
  Ok (Period__init__ (Some KMonth) events start end_
        parent_persisted_occurrences occurrence_pool).

Definition _get_week_range (st : Settings) (week : datetime)
  : result (datetime * datetime) :=
  let start := combine_midnight week in
  let sub_days_ :=
    if FIRST_DAY_OF_WEEK st =? 1 then isoweekday start - 1
    else
      let sub_days_ := isoweekday start in
      if sub_days_ =? 7 then 0 else sub_days_ in
  start ← (if 0 <? sub_days_ then sub_days start sub_days_ else Ok start);
  end_ ← add_days start 7;
  Ok (start, end_).

Definition Week (st : Settings) (events : list Event) (date : datetime)
    (parent_persisted_occurrences occurrence_pool : option (list Occurrence))
  : result Period :=
  '(start, end_) ← _get_week_range st date;
  Ok (Period__init__ (Some KWeek) events start end_
        parent_persisted_occurrences occurrence_pool).

Definition _get_day_range (date : datetime) : result (datetime * datetime) :=
  let start := combine_midnight date in
  end_ ← add_days start 1;
  Ok (start, end_).

Definition Day (events : list Event) (date : datetime)
    (parent_persisted_occurrences occurrence_pool : option (list Occurrence))
  : result Period :=
  '(start, end_) ← _get_day_range date;
  Ok (Period__init__ (Some KDay) events start end_
        parent_persisted_occurrences occurrence_pool).

(** *** Navigation *)

Definition next_year (self : Period) : result Period :=
  Year (events self) (end_ self) None.

Definition prev_year (self : Period) : result Period :=
  start ← new_datetime (year (start self) - 1) (month (start self))
            (day (start self)) 0 0 0 0;
  Year (events self) start None.

Definition next_month (self : Period) : result Period :=
  Month (events self) (end_ self) None None.

Definition prev_month (self : Period) : result Period :=
  d ← sub_days (start self) 1;
  start ← replace d (year d) (month d) 1;
  Month (events self) start None None.

Definition next_week (st : Settings) (self : Period) : result Period :=
  Week st (events self) (end_ self) None None.

Definition prev_week (st : Settings) (self : Period) : result Period :=
  d ← sub_days (start self) 7;
  Week st (events self) d None None.

Definition next_day (self : Period) : result Period :=
  Day (events self) (end_ self) None None.

Definition prev_day (self : Period) : result Period :=
  d ← sub_days (start self) 1;
  Day (events self) d None None.

(** [period.next()] and [period.prev()]: each class binds the name to its own
    method; a plain [Period] has neither. *)
Definition next (st : Settings) (self : Period) : result Period :=
  match cls self with
  | Some KYear => next_year self
  | Some KMonth => next_month self
  | Some KWeek => next_week st self
  | Some KDay => next_day self
  | None => Raise AttributeError
  end.

Definition prev (st : Settings) (self : Period) : result Period :=
  match cls self with
  | Some KYear => prev_year self
  | Some KMonth => prev_month self
  | Some KWeek => prev_week st self
  | Some KDay => prev_day self
  | None => Raise AttributeError
  end.

(** *** Sub-periods *)

(** [cls(events, start, persisted, occurrences)]: the four positional
    arguments of [create_sub_period].  [Year] has no pool parameter: its
    fourth parameter is [tzinfo], so the list of occurrences becomes the time
    zone of the year's bounds, which [datetime] refuses with [TypeError];
    with [USE_TZ] off the argument is dropped and the year is built. *)
Definition construct (st : Settings) (c : Variant) (events : list Event)
    (start : datetime) (persisted occurrences : list Occurrence)
  : result Period :=
  match c with
  | KYear =>
      if USE_TZ st then Raise TypeError else Year events start (Some persisted)
  | KMonth => Month events start (Some persisted) (Some occurrences)
  | KWeek => Week st events start (Some persisted) (Some occurrences)
  | KDay => Day events start (Some persisted) (Some occurrences)
  end.

(** Returns the child, the parent after the call (its caches may have been
    filled) and the world. *)
Definition create_sub_period (st : Settings) (c : Variant)
    (start_ : option datetime) (self : Period) (w : World)
  : result (Period * Period * World) :=
  let start_ := default (start self) start_ in
  '(persisted, self, w) ← get_persisted_occurrences st self w;
  let '(occs, self) := cached_get_sorted_occurrences self in
  child ← construct st c (events self) start_ persisted occs;
  Ok (child, self, w).

(** The body of the generator [get_periods], run to exhaustion: the children
    in the order they are yielded.  [None] means the fuel ran out first. *)
Fixpoint get_periods_loop (st : Settings) (c : Variant) (fuel : nat)
    (period self : Period) (w : World)
  : option (result (list Period * Period * World)) :=
  match fuel with
  | O => None
  | S fuel =>
      if dt_lt (start period) (end_ self) then
        match create_sub_period st c (Some (start period)) self w with
        | Raise e => Some (Raise e)
        | Ok (child, self, w) =>
            match next st period with
            | Raise e => Some (Raise e)
            | Ok period =>
                match get_periods_loop st c fuel period self w with
                | Some (Ok (rest, self, w)) => Some (Ok (child :: rest, self, w))
                | other => other
                end
            end
        end
      else Some (Ok ([], self, w))
  end.

Definition get_periods (st : Settings) (c : Variant) (fuel : nat)
    (self : Period) (w : World)
  : option (result (list Period * Period * World)) :=
  match create_sub_period st c None self w with
  | Raise e => Some (Raise e)
  | Ok (period, self, w) => get_periods_loop st c fuel period self w
  end.

Definition get_months (st : Settings) := get_periods st KMonth.
Definition get_weeks (st : Settings) := get_periods st KWeek.
Definition get_days (st : Settings) := get_periods st KDay.

(** [Month.get_day(daynumber)] *)
Definition get_day (st : Settings) (daynumber : Z) (self : Period) (w : World)
  : result (Period * Period * World) :=
  date ← (if 1 <? daynumber then add_days (start self) (daynumber - 1)
          else Ok (start self));
  create_sub_period st KDay (Some date) self w.

(** *** Enclosing periods

    [current_year] is defined, with the same body, by [Month], [Week] and
    [Day]; [current_month] by [Week] and [Day]; [current_week] by [Day]. *)

Definition current_year (self : Period) : result Period :=
  Year (events self) (start self) None.

Definition current_month (self : Period) : result Period :=
  Month (events self) (start self) None None.

Definition current_week (st : Settings) (self : Period) : result Period :=
  Week st (events self) (start self) None None.

(** [Month.prev_year] and [Month.next_year] *)
Definition Month_prev_year (self : Period) : result Period :=
  start ← replace datetime_min (year (start self) - 1) (month datetime_min)
            (day datetime_min);
  Year (events self) start None.

Definition Month_next_year (self : Period) : result Period :=
  start ← replace datetime_min (year (start self) + 1) (month datetime_min)
            (day datetime_min);
  Year (events self) start None.

(** *** Equality of periods *)

(** [a == b] and [a != b] on instants: [_cmp] is, respectively is not, 0. *)
Definition dt_eq (a b : datetime) : bool :=
  match _cmp a b with Eq => true | _ => false end.
Definition dt_ne (a b : datetime) : bool := negb (dt_eq a b).

(** [Period.__eq__] and [Period.__ne__].  [events_eq] is [==] on the two
    event collections; their [!=] is its negation. *)
Definition Period__eq__ (events_eq : list Event -> list Event -> bool)
    (self period : Period) : bool :=
  dt_eq (start self) (start period) && dt_eq (end_ self) (end_ period)
  && events_eq (events self) (events period).

Definition Period__ne__ (events_eq : list Event -> list Event -> bool)
    (self period : Period) : bool :=
  dt_ne (start self) (start period) || dt_ne (end_ self) (end_ period)
  || negb (events_eq (events self) (events period)).

(** *** Names of the days of the week

    [WEEKDAYS] is Django's table of day names, keyed by [weekday()]: 0 for
    Monday to 6 for Sunday.  [weekday_abbrs] is built the same way from
    [WEEKDAYS_ABBR]. *)
Definition weekday_names {A : Type} (st : Settings) (WEEKDAYS : Z -> A)
  : list A :=
  if FIRST_DAY_OF_WEEK st =? 1 then
    map WEEKDAYS [0; 1; 2; 3; 4; 5; 6]
  else
    WEEKDAYS 6 :: map WEEKDAYS [0; 1; 2; 3; 4; 5].

(** [dt.weekday()]: Monday is 0, Sunday is 6. *)
Definition weekday (dt : datetime) : Z := (toordinal dt + 6) mod 7.

(** ** Auxiliary definitions for the proofs *)

(** *** The calendar *)

(** The month and day that [_ord2ymd] computes from the zero-based day [n] of
    a year. *)
Definition _md (leapyear : bool) (n : Z) : Z * Z :=
  let month := Z.shiftr (n + 50) 5 in
  let preceding :=
    _DAYS_BEFORE_MONTH month + (if (2 <? month) && leapyear then 1 else 0) in
  if n <? preceding then
    let month := month - 1 in
    let preceding :=
      preceding
      - (_DAYS_IN_MONTH month + (if (month =? 2) && leapyear then 1 else 0)) in
    (month, n - preceding + 1)
  else (month, n - preceding + 1).

(** What [_md] is to satisfy on the days of a year. *)
Definition md_ok (leap : bool) (n : Z) : bool :=
  let '(m, d) := _md leap n in
  (1 <=? m) && (m <=? 12) && (1 <=? d)
  && (d <=? _DAYS_IN_MONTH m + (if (m =? 2) && leap then 1 else 0))
  && (_DAYS_BEFORE_MONTH m + (if (2 <? m) && leap then 1 else 0) + d =? n + 1).

(** A calendar date, whatever the year. *)
Definition date_ok (y m d : Z) : Prop :=
  1 <= y /\ 1 <= m <= 12 /\ 1 <= d <= _days_in_month y m.

(** Midnight of the day with ordinal [n]. *)
Definition day_at (n : Z) : datetime := fromordinal_at n datetime_min.

(** Midnight of the first day of a month. *)
Definition first_of (y m : Z) : datetime := mk_datetime y m 1 0 0 0 0.

(** Midnight of the day [d] of month [m] of year [y]. *)
Definition at_midnight (y m d : Z) : datetime := mk_datetime y m d 0 0 0 0.

(** The time of day is 00:00:00. *)
Definition is_midnight (dt : datetime) : Prop :=
  hour dt = 0 /\ minute dt = 0 /\ second dt = 0 /\ microsecond dt = 0.

(** The days between a day with ordinal [n] and the first day of its week. *)
Definition week_offset (st : Settings) (n : Z) : Z :=
  if FIRST_DAY_OF_WEEK st =? 1 then (n - 1) mod 7 else n mod 7.

(** The range of month [m] of year [y]. *)
Definition month_range (y m : Z) : datetime * datetime :=
  (first_of y m, if m =? 12 then first_of (y + 1) 1 else first_of y (m + 1)).

(** *** Ranges *)

(** The range of a period. *)
Definition range (p : Period) : datetime * datetime := (start p, end_ p).

(** The range a class computes from a reference date. *)
Definition variant_range (st : Settings) (c : Variant) (date : datetime)
  : result (datetime * datetime) :=
  match c with
  | KYear => _get_year_range date
  | KMonth => _get_month_range date
  | KWeek => _get_week_range st date
  | KDay => _get_day_range date
  end.

(** The range of a child of class [c] built by [create_sub_period]. *)
Definition sub_range (st : Settings) (c : Variant) (date : datetime)
  : result (datetime * datetime) :=
  match c with
  | KYear => if USE_TZ st then Raise TypeError else _get_year_range date
  | KMonth => _get_month_range date
  | KWeek => _get_week_range st date
  | KDay => _get_day_range date
  end.

(** The ranges [get_periods_loop] goes through, without the instances. *)
Fixpoint ranges_loop (st : Settings) (c : Variant) (fuel : nat)
    (cur : datetime * datetime) (stop : datetime)
  : option (result (list (datetime * datetime))) :=
  match fuel with
  | O => None
  | S fuel =>
      if dt_lt (fst cur) stop then
        match sub_range st c (fst cur) with
        | Raise e => Some (Raise e)
        | Ok child =>
            match variant_range st c (snd cur) with
            | Raise e => Some (Raise e)
            | Ok nxt =>
                match ranges_loop st c fuel nxt stop with
                | Some (Ok rest) => Some (Ok (child :: rest))
                | other => other
                end
            end
        end
      else Some (Ok [])
  end.

(** [k] consecutive ranges of [len] days from the day with ordinal [a]. *)
Fixpoint step_ranges (len a : Z) (k : nat) : list (datetime * datetime) :=
  match k with
  | O => []
  | S k => (day_at a, day_at (a + len)) :: step_ranges len (a + len) k
  end.

(** The ranges of [k] consecutive months of year [y] from month [m]. *)
Fixpoint month_ranges (y m : Z) (k : nat) : list (datetime * datetime) :=
  match k with
  | O => []
  | S k => month_range y m :: month_ranges y (m + 1) k
  end.

(** Each range ends where the next one starts. *)
Fixpoint contiguous (l : list (datetime * datetime)) : Prop :=
  match l with
  | a :: ((b :: _) as l') => snd a = fst b /\ contiguous l'
  | _ => True
  end.

(** Every range starts before it ends. *)
Definition well_ordered (rs : list (datetime * datetime)) : Prop :=
  Forall (fun r => dt_lt (fst r) (snd r) = true) rs.

(** [r1] is over when [r2] starts. *)
Definition before (r1 r2 : datetime * datetime) : Prop :=
  dt_le (snd r1) (fst r2) = true.

(** The instant [t] lies in the half-open range [r]. *)
Definition within (t : datetime) (r : datetime * datetime) : Prop :=
  dt_le (fst r) t = true /\ dt_lt t (snd r) = true.

(** [rs] splits [parent]: it starts where the parent starts, ends where the
    parent ends, and each range ends where the next one starts. *)
Definition partition_of (parent : datetime * datetime)
    (rs : list (datetime * datetime)) : Prop :=
  (exists r, head rs = Some r /\ fst r = fst parent)
  /\ (exists r, last rs = Some r /\ snd r = snd parent)
  /\ contiguous rs /\ well_ordered rs.

(** [rs] is a contiguous chain that reaches over [parent]: the first range
    holds the parent's start and the last one holds the parent's last
    instant. *)
Definition chain_over (parent : datetime * datetime)
    (rs : list (datetime * datetime)) : Prop :=
  (exists r, head rs = Some r /\ dt_le (fst r) (fst parent) = true
             /\ dt_lt (fst parent) (snd r) = true)
  /\ (exists r, last rs = Some r /\ dt_lt (fst r) (snd parent) = true
                /\ dt_le (snd parent) (snd r) = true)
  /\ contiguous rs /\ well_ordered rs.

(** [rs] splits [parent] exactly: it is a partition, every instant of the
    parent lies in one of the ranges and nowhere else, and no range starts
    before an earlier one is over. *)
Definition splits_exactly (parent : datetime * datetime)
    (rs : list (datetime * datetime)) : Prop :=
  partition_of parent rs
  /\ (forall t, within t parent <-> exists r, In r rs /\ within t r)
  /\ StronglySorted before rs.

(** [rs] is a chain of ranges that reaches over [parent]: every instant of
    the parent lies in one of the ranges. *)
Definition reaches_over (parent : datetime * datetime)
    (rs : list (datetime * datetime)) : Prop :=
  chain_over parent rs
  /\ (forall t, within t parent -> exists r, In r rs /\ within t r)
  /\ StronglySorted before rs.

(** *** Instances *)

(** No instance carries the attribute [get_persisted_occurrences] tests for:
    nothing in the module sets it. *)
Definition no_typo_attr (self : Period) : Prop :=
  attrs self !! "_persisted_occurrenes"%string = None.

(** The parent after one [create_sub_period]. *)
Definition after_sub (st : Settings) (self : Period) : Period :=
  snd (cached_get_sorted_occurrences
         (setattr self "_persisted_occurrences"
            (objects_filter st (events self)))).

(** Running [get_periods] to the end on [parent] yields children of class
    [c] whose ranges satisfy [P]. *)
Definition yields (st : Settings) (c : Variant) (fuel : nat) (parent : Period)
    (w : World) (P : list (datetime * datetime) -> Prop) : Prop :=
  exists (l : list Period) (self' : Period) (w' : World),
    get_periods st c fuel parent w = Some (Ok (l, self', w'))
    /\ Forall (fun p => cls p = Some c) l
    /\ P (map range l).

(** *** Occurrences *)

(** [a] does not come after [b] in the ordering of occurrences. *)
Definition occ_le (a b : Occurrence) : Prop := occ_lt b a = false.

(** The fields the ordering of occurrences compares. *)
Definition occ_key (o : Occurrence) : list Z :=
  _getstate (Occ.start o) ++ _getstate (Occ.end_ o).

(** The flags [classify_occurrence] computes. *)
Definition started_in (p : Period) (o : Occurrence) : bool :=
  dt_le (start p) (Occ.start o) && dt_lt (Occ.start o) (end_ p).

Definition ended_in (p : Period) (o : Occurrence) : bool :=
  dt_le (start p) (Occ.end_ o) && dt_lt (Occ.end_ o) (end_ p).

(** An occurrence taken as the closed span [[start, end]] meets the
    half-open range [[start, end)] of a period when they share an instant. *)
Definition intersects_half_open (p : Period) (o : Occurrence) : Prop :=
  exists t : datetime,
    dt_le (Occ.start o) t = true /\ dt_le t (Occ.end_ o) = true
    /\ dt_le (start p) t = true /\ dt_lt t (end_ p) = true.

(** *** Sample values *)

(** Weeks starting on Monday, respectively Sunday; an empty storage. *)
Definition settings_monday : Settings :=
  mk_Settings true 1 false (fun _ => []).

Definition settings_sunday : Settings :=
  mk_Settings true 0 false (fun _ => []).

(** A storage that has not been asked yet. *)
Definition world0 : World := mk_World 0.

(** An occurrence inside January 2024. *)
Definition occ_inside : Occurrence :=
  Occ.mk 1 (mk_datetime 2024 1 10 9 0 0 0) (mk_datetime 2024 1 10 10 30 0 0)
         false.

(** An occurrence that starts at the very end of January 2024. *)
Definition occ_at_end : Occurrence :=
  Occ.mk 2 (at_midnight 2024 2 1) (at_midnight 2024 2 2) false.

(** An occurrence from December 2023 to March 2024. *)
Definition occ_spanning : Occurrence :=
  Occ.mk 3 (at_midnight 2023 12 1) (at_midnight 2024 3 1) false.

(** An occurrence that starts in January 2024 and ends after it. *)
Definition occ_starting : Occurrence :=
  Occ.mk 4 (at_midnight 2024 1 20) (at_midnight 2024 2 10) false.

(** An occurrence that starts before January 2024 and ends in it. *)
Definition occ_ending : Occurrence :=
  Occ.mk 5 (at_midnight 2023 12 20) (at_midnight 2024 1 5) false.

(** Settings whose storage holds one occurrence. *)
Definition settings_storage : Settings :=
  mk_Settings true 1 false (fun _ => [occ_spanning]).

(** January 2024 as a plain period. *)
Definition january_2024 : Period :=
  new_Period [] (at_midnight 2024 1 1) (at_midnight 2024 2 1) None None.

(** January 2024 with a pool given in an order that is not sorted. *)
Definition january_2024_pool : Period :=
  new_Period [] (at_midnight 2024 1 1) (at_midnight 2024 2 1) None
    (Some [occ_at_end; occ_spanning; occ_inside]).

(** A plain period given persisted occurrences by a parent. *)
Definition january_2024_persisted : Period :=
  new_Period [] (at_midnight 2024 1 1) (at_midnight 2024 2 1)
    (Some [occ_inside]) None.

(** A period whose start comes after its end, with a pool. *)
Definition inverted_period : Period :=
  new_Period [] (at_midnight 2024 2 1) (at_midnight 2024 1 1) None
    (Some [occ_inside; occ_spanning]).

(** February 2024, as [Month] builds it from 2024-02-15. *)
Definition february_2024 : Period :=
  Period__init__ (Some KMonth) [] (at_midnight 2024 2 1) (at_midnight 2024 3 1)
    None None.

(** The week of Thursday 2024-02-15 when weeks start on Monday. *)
Definition week_of_2024_02_15 : Period :=
  Period__init__ (Some KWeek) [] (at_midnight 2024 2 12)
    (at_midnight 2024 2 19) None None.

(** *** Periods of a class *)

(** [cls(events, date, parent_persisted_occurrences, occurrence_pool)] with
    the arguments given by name; [Year] takes no pool. *)
Definition new_variant (st : Settings) (c : Variant) (ev : list Event)
    (date : datetime) (pp pool : option (list Occurrence)) : result Period :=
  match c with
  | KYear => Year ev date pp
  | KMonth => Month ev date pp pool
  | KWeek => Week st ev date pp pool
  | KDay => Day ev date pp pool
  end.

(** The ordinals of the first day of the period of class [c] that holds the
    day with ordinal [n], and of the first day after it. *)
Definition bounds (st : Settings) (c : Variant) (n : Z) : Z * Z :=
  match c with
  | KYear =>
      let '(y, _, _) := _ord2ymd n in (_ymd2ord y 1 1, _ymd2ord (y + 1) 1 1)
  | KMonth =>
      let '(y, m, _) := _ord2ymd n in
      (_ymd2ord y m 1, _ymd2ord y m 1 + _days_in_month y m)
  | KWeek => (n - week_offset st n, n - week_offset st n + 7)
  | KDay => (n, n + 1)
  end.

(** *** Periods inside periods *)

(** The range of [p] lies within the range of [q]. *)
Definition inside (p q : Period) : Prop :=
  dt_le (start q) (start p) = true /\ dt_le (end_ p) (end_ q) = true.

(** *** Children of a parent *)

(** The value of the [occurrences] property of an instance. *)
Definition occurrences_of (self : Period) : list Occurrence :=
  fst (cached_get_sorted_occurrences self).

(** The test [_get_sorted_occurrences] applies to the occurrences of a pool. *)
Definition overlaps (self : Period) (o : Occurrence) : bool :=
  dt_lt (Occ.start o) (end_ self) && dt_gt (Occ.end_ o) (start self).

(** [child] is what [create_sub_period] makes of [parent] for class [c]: the
    parent's events, the storage's answer for them as persisted occurrences,
    the parent's occurrences as pool (a [Year] takes none) and no cached
    occurrences yet. *)
Definition child_of (st : Settings) (c : Variant) (parent child : Period)
  : Prop :=
  cls child = Some c
  /\ events child = events parent
  /\ attrs child !! "_persisted_occurrences"%string
     = Some (objects_filter st (events parent))
  /\ attrs child !! "_occurrences"%string = None
  /\ occurrence_pool child
     = match c with
       | KYear => None
       | _ => Some (occurrences_of parent)
       end.

(** [parent'] is [parent] after it has made a child: nothing but its two
    caches has changed. *)
Definition parent_after (st : Settings) (parent parent' : Period) : Prop :=
  cls parent' = cls parent /\ start parent' = start parent
  /\ end_ parent' = end_ parent /\ events parent' = events parent
  /\ occurrence_pool parent' = occurrence_pool parent
  /\ attrs parent' !! "_occurrences"%string = Some (occurrences_of parent)
  /\ attrs parent' !! "_persisted_occurrences"%string
     = Some (objects_filter st (events parent)).

(** [classify_occurrence] drops a cancelled occurrence unless the settings
    ask for them. *)
Definition suppressed (st : Settings) (o : Occurrence) : bool :=
  Occ.cancelled o && negb (SHOW_CANCELLED_OCCURRENCES st).

(** The child of class [c] with range [r] that [create_sub_period] makes of
    [parent]. *)
Definition sub_period (st : Settings) (c : Variant) (parent : Period)
    (r : datetime * datetime) : Period :=
  Period__init__ (Some c) (events parent) (fst r) (snd r)
    (Some (objects_filter st (events parent)))
    (match c with
     | KYear => None
     | _ => Some (occurrences_of parent)
     end).

(** The ordinal of the first day that starts at or after the instant [e]. *)
Definition days_end (e : datetime) : Z :=
  if (hour e =? 0) && (minute e =? 0) && (second e =? 0)
     && (microsecond e =? 0)
  then toordinal e else toordinal e + 1.

(** * Proofs *)

(** ** The calendar *)

Ltac Zify.zify_post_hook ::= Z.div_mod_to_equations.

Lemma forallb_range (P : Z -> bool) (k : nat) :
  forallb (fun i => P (Z.of_nat i)) (seq 0 k) = true ->
  forall n, 0 <= n < Z.of_nat k -> P n = true.
Proof.
  intros H n Hn. rewrite forallb_forall in H.
  specialize (H (Z.to_nat n)). rewrite Z2Nat.id in H by lia.
  apply H. apply in_seq. lia.
Qed.

Lemma md_ok_all (leap : bool) (n : Z) :
  0 <= n < 365 + (if leap then 1 else 0) -> md_ok leap n = true.
Proof.
  intros Hn. destruct leap.
  - apply (forallb_range (md_ok true) 366); [vm_compute; reflexivity | lia].
  - apply (forallb_range (md_ok false) 365); [vm_compute; reflexivity | lia].
Qed.

Lemma is_leap_decomp (a b c e : Z) :
  0 <= a -> 0 <= b <= 3 -> 0 <= c <= 24 -> 0 <= e <= 3 ->
  _is_leap (400*a + 100*b + 4*c + e + 1)
  = (e =? 3) && (negb (c =? 24) || (b =? 3)).
Proof.
  intros. unfold _is_leap.
  destruct (Z.eqb_spec e 3), (Z.eqb_spec c 24), (Z.eqb_spec b 3); simpl;
    repeat match goal with
           | |- context [?x =? ?y] => destruct (Z.eqb_spec x y)
           end;
    simpl; try reflexivity; try lia.
Qed.

Lemma dby_decomp (a b c e : Z) :
  0 <= a -> 0 <= b <= 3 -> 0 <= c <= 24 -> 0 <= e <= 3 ->
  _days_before_year (400*a + 100*b + 4*c + e + 1)
  = 146097*a + 36524*b + 1461*c + 365*e.
Proof.
  intros. unfold _days_before_year. lia.
Qed.

Lemma ord2ymd_md (n : Z) :
  _ord2ymd n =
  let n0 := n - 1 in
  let n400 := n0 / 146097 in
  let r1 := n0 mod 146097 in
  let n100 := r1 / 36524 in
  let r2 := r1 mod 36524 in
  let n4 := r2 / 1461 in
  let r3 := r2 mod 1461 in
  let n1 := r3 / 365 in
  let r4 := r3 mod 365 in
  let y := n400 * 400 + 1 + n100 * 100 + n4 * 4 + n1 in
  if (n1 =? 4) || (n100 =? 4) then (y - 1, 12, 31)
  else
    let '(m, d) := _md ((n1 =? 3) && (negb (n4 =? 24) || (n100 =? 3))) r4 in
    (y, m, d).
Proof.
  unfold _ord2ymd, _md, _DI400Y, _DI100Y, _DI4Y. cbv zeta.
  destruct (_ || _); [reflexivity|].
  destruct (_ <? _); reflexivity.
Qed.

Lemma ord2ymd_spec (n : Z) :
  1 <= n ->
  exists y m d, _ord2ymd n = (y, m, d) /\ 1 <= y /\ 1 <= m <= 12
    /\ 1 <= d <= _days_in_month y m /\ _ymd2ord y m d = n.
Proof.
  intros Hn. rewrite ord2ymd_md. cbv zeta.
  set (a := (n - 1) / 146097).
  set (r1 := (n - 1) mod 146097).
  set (b := r1 / 36524). set (r2 := r1 mod 36524).
  set (c := r2 / 1461). set (r3 := r2 mod 1461).
  set (e := r3 / 365). set (r4 := r3 mod 365).
  assert (Ha : 0 <= a) by (subst a; lia).
  assert (Hr1 : 0 <= r1 < 146097) by (subst r1; lia).
  assert (Hn1 : n - 1 = 146097 * a + r1) by (subst a r1; lia).
  assert (Hb : 0 <= b <= 4) by (subst b; lia).
  assert (Hr2 : 0 <= r2 < 36524) by (subst r2; lia).
  assert (Hn2 : r1 = 36524 * b + r2) by (subst b r2; lia).
  assert (Hc : 0 <= c <= 24) by (subst c; lia).
  assert (Hr3 : 0 <= r3 < 1461) by (subst r3; lia).
  assert (Hn3 : r2 = 1461 * c + r3) by (subst c r3; lia).
  assert (He : 0 <= e <= 4) by (subst e; lia).
  assert (Hr4 : 0 <= r4 < 365) by (subst r4; lia).
  assert (Hn4 : r3 = 365 * e + r4) by (subst e r4; lia).
  clearbody a r1 b r2 c r3 e r4.
  destruct (Z.eqb_spec e 4) as [He4|He4]; simpl.
  - (* last day of a leap year *)
    assert (r4 = 0) by lia. assert (c <= 23) by lia. assert (b <= 3) by lia.
    exists (a * 400 + 1 + b * 100 + c * 4 + e - 1), 12, 31.
    replace (a * 400 + 1 + b * 100 + c * 4 + e - 1)
      with (400 * a + 100 * b + 4 * c + 3 + 1) by lia.
    unfold _days_in_month, _ymd2ord, _days_before_month.
    rewrite is_leap_decomp, dby_decomp by lia.
    replace (c =? 24) with false by (symmetry; apply Z.eqb_neq; lia).
    simpl. repeat split; lia.
  - destruct (Z.eqb_spec b 4) as [Hb4|Hb4]; simpl.
    + assert (r2 = 0) by lia. assert (c = 0) by lia. assert (e = 0) by lia.
      assert (r4 = 0) by lia. subst.
      exists (a * 400 + 1 + 4 * 100 + 0 * 4 + 0 - 1), 12, 31.
      replace (a * 400 + 1 + 4 * 100 + 0 * 4 + 0 - 1)
        with (400 * a + 100 * 3 + 4 * 24 + 3 + 1) by lia.
      unfold _days_in_month, _ymd2ord, _days_before_month.
      rewrite is_leap_decomp, dby_decomp by lia.
      simpl. repeat split; lia.
    + assert (Hleap := is_leap_decomp a b c e ltac:(lia) ltac:(lia)
                         ltac:(lia) ltac:(lia)).
      assert (Hdby := dby_decomp a b c e ltac:(lia) ltac:(lia)
                        ltac:(lia) ltac:(lia)).
      replace (a * 400 + 1 + b * 100 + c * 4 + e)
        with (400 * a + 100 * b + 4 * c + e + 1) by lia.
      set (y := 400 * a + 100 * b + 4 * c + e + 1) in *.
      rewrite <- Hleap.
      pose proof (md_ok_all (_is_leap y) r4) as Hmd.
      unfold md_ok in Hmd.
      destruct (_md (_is_leap y) r4) as [m d].
      exists y, m, d. split; [reflexivity|].
      unfold _days_in_month, _ymd2ord, _days_before_month. rewrite Hdby.
      destruct (_is_leap y); (lapply Hmd; [clear Hmd; intros Hmd | lia]);
      rewrite !andb_true_iff in Hmd; destruct Hmd as [[[[H1 H2] H3] H4] H5];
      destruct (Z.eqb_spec m 2) as [Hm|Hm]; destruct (Z.ltb_spec 2 m);
      try subst m; simpl in *; lia.
Qed.

Lemma dby_succ (y : Z) :
  _days_before_year (y + 1)
  = _days_before_year y + 365 + (if _is_leap y then 1 else 0).
Proof.
  unfold _days_before_year, _is_leap.
  replace (y + 1 - 1) with y by lia.
  destruct (Z.eqb_spec (y mod 4) 0), (Z.eqb_spec (y mod 100) 0),
    (Z.eqb_spec (y mod 400) 0); simpl; lia.
Qed.

Lemma dby_mono (y1 y2 : Z) :
  y1 <= y2 -> _days_before_year y1 <= _days_before_year y2.
Proof.
  intros H. unfold _days_before_year. lia.
Qed.

Lemma month_cases (m : Z) :
  1 <= m <= 12 ->
  m = 1 \/ m = 2 \/ m = 3 \/ m = 4 \/ m = 5 \/ m = 6 \/ m = 7 \/ m = 8
  \/ m = 9 \/ m = 10 \/ m = 11 \/ m = 12.
Proof. lia. Qed.

Ltac each_month m H :=
  destruct (month_cases m H) as [?|[?|[?|[?|[?|[?|[?|[?|[?|[?|[?|?]]]]]]]]]]];
  subst m.

Lemma dim_bounds (y m : Z) : 1 <= m <= 12 -> 28 <= _days_in_month y m <= 31.
Proof.
  intros H. unfold _days_in_month.
  each_month m H; destruct (_is_leap y); simpl; lia.
Qed.

Lemma dbm_succ (y m : Z) :
  1 <= m <= 11 ->
  _days_before_month y (m + 1) = _days_before_month y m + _days_in_month y m.
Proof.
  intros H. unfold _days_before_month, _days_in_month.
  assert (H' : 1 <= m <= 12) by lia.
  each_month m H'; try lia; destruct (_is_leap y); reflexivity.
Qed.

Lemma dbm_last (y : Z) :
  _days_before_month y 12 + 31 = 365 + (if _is_leap y then 1 else 0).
Proof.
  unfold _days_before_month. destruct (_is_leap y); reflexivity.
Qed.

Lemma dbm_mono (y m1 m2 : Z) :
  1 <= m1 -> m1 < m2 -> m2 <= 12 ->
  _days_before_month y m1 + _days_in_month y m1 <= _days_before_month y m2.
Proof.
  intros H1 H2 H3. unfold _days_before_month, _days_in_month.
  assert (Ha : 1 <= m1 <= 12) by lia. assert (Hb : 1 <= m2 <= 12) by lia.
  each_month m1 Ha; each_month m2 Hb; try lia; destruct (_is_leap y);
    simpl; lia.
Qed.

Lemma dbm_day_bounds (y m d : Z) :
  1 <= m <= 12 -> 1 <= d <= _days_in_month y m ->
  1 <= _days_before_month y m + d <= 365 + (if _is_leap y then 1 else 0).
Proof.
  intros Hm Hd. unfold _days_before_month, _days_in_month in *.
  each_month m Hm; destruct (_is_leap y); simpl in *; lia.
Qed.

Lemma ymd2ord_pos (y m d : Z) : date_ok y m d -> 1 <= _ymd2ord y m d.
Proof.
  intros (Hy & Hm & Hd). unfold _ymd2ord.
  pose proof (dbm_day_bounds y m d Hm Hd).
  pose proof (dby_mono 1 y Hy). change (_days_before_year 1) with 0 in *. lia.
Qed.

Lemma ymd2ord_lt_year (y1 m1 d1 y2 m2 d2 : Z) :
  date_ok y1 m1 d1 -> date_ok y2 m2 d2 -> y1 < y2 ->
  _ymd2ord y1 m1 d1 < _ymd2ord y2 m2 d2.
Proof.
  intros (_ & Hm1 & Hd1) (_ & Hm2 & Hd2) Hlt. unfold _ymd2ord.
  pose proof (dbm_day_bounds y1 m1 d1 Hm1 Hd1).
  pose proof (dbm_day_bounds y2 m2 d2 Hm2 Hd2).
  pose proof (dby_succ y1). pose proof (dby_mono (y1 + 1) y2). lia.
Qed.

Lemma ymd2ord_lt_month (y m1 d1 m2 d2 : Z) :
  date_ok y m1 d1 -> date_ok y m2 d2 -> m1 < m2 ->
  _ymd2ord y m1 d1 < _ymd2ord y m2 d2.
Proof.
  intros (_ & Hm1 & Hd1) (_ & Hm2 & Hd2) Hlt. unfold _ymd2ord.
  pose proof (dbm_mono y m1 m2). lia.
Qed.

(** Comparing date tuples is comparing ordinals. *)
Lemma ymd2ord_compare (y1 m1 d1 y2 m2 d2 : Z) (rest1 rest2 : list Z) :
  date_ok y1 m1 d1 -> date_ok y2 m2 d2 ->
  _cmp_tuple (y1 :: m1 :: d1 :: rest1) (y2 :: m2 :: d2 :: rest2)
  = match _ymd2ord y1 m1 d1 ?= _ymd2ord y2 m2 d2 with
    | Eq => _cmp_tuple rest1 rest2
    | c => c
    end.
Proof.
  intros H1 H2. simpl.
  destruct (Z.compare_spec y1 y2) as [Hy|Hy|Hy].
  - subst y2. destruct (Z.compare_spec m1 m2) as [Hm|Hm|Hm].
    + subst m2. unfold _ymd2ord. rewrite Z.add_compare_mono_l.
      destruct (d1 ?= d2); reflexivity.
    + pose proof (ymd2ord_lt_month _ _ _ _ _ H1 H2 Hm) as Hlt.
      apply Z.compare_lt_iff in Hlt. rewrite Hlt. reflexivity.
    + pose proof (ymd2ord_lt_month _ _ _ _ _ H2 H1 Hm) as Hlt.
      apply Z.compare_gt_iff in Hlt. rewrite Hlt. reflexivity.
  - pose proof (ymd2ord_lt_year _ _ _ _ _ _ H1 H2 Hy) as Hlt.
    apply Z.compare_lt_iff in Hlt. rewrite Hlt. reflexivity.
  - pose proof (ymd2ord_lt_year _ _ _ _ _ _ H2 H1 Hy) as Hlt.
    apply Z.compare_gt_iff in Hlt. rewrite Hlt. reflexivity.
Qed.

Lemma ymd2ord_inj (y1 m1 d1 y2 m2 d2 : Z) :
  date_ok y1 m1 d1 -> date_ok y2 m2 d2 ->
  _ymd2ord y1 m1 d1 = _ymd2ord y2 m2 d2 ->
  y1 = y2 /\ m1 = m2 /\ d1 = d2.
Proof.
  intros H1 H2 Heq.
  destruct (Z.lt_trichotomy y1 y2) as [Hy|[Hy|Hy]].
  - pose proof (ymd2ord_lt_year _ _ _ _ _ _ H1 H2 Hy). lia.
  - subst y2. destruct (Z.lt_trichotomy m1 m2) as [Hm|[Hm|Hm]].
    + pose proof (ymd2ord_lt_month _ _ _ _ _ H1 H2 Hm). lia.
    + subst m2. unfold _ymd2ord in Heq. lia.
    + pose proof (ymd2ord_lt_month _ _ _ _ _ H2 H1 Hm). lia.
  - pose proof (ymd2ord_lt_year _ _ _ _ _ _ H2 H1 Hy). lia.
Qed.

Lemma ord2ymd_ymd2ord (y m d : Z) :
  date_ok y m d -> _ord2ymd (_ymd2ord y m d) = (y, m, d).
Proof.
  intros H.
  destruct (ord2ymd_spec (_ymd2ord y m d) (ymd2ord_pos _ _ _ H))
    as (y' & m' & d' & -> & Hy & Hm & Hd & Heq).
  destruct (ymd2ord_inj y' m' d' y m d) as (-> & -> & ->); auto.
  repeat split; lia.
Qed.

Lemma ymd2ord_max (y m d : Z) :
  date_ok y m d -> y <= MAXYEAR -> _ymd2ord y m d <= _MAXORDINAL.
Proof.
  intros (Hy & Hm & Hd) Hmax. unfold _ymd2ord, MAXYEAR in *.
  pose proof (dbm_day_bounds y m d Hm Hd).
  pose proof (dby_succ y). pose proof (dby_mono (y + 1) 10000).
  change (_days_before_year 10000) with 3652059 in *.
  unfold _MAXORDINAL. lia.
Qed.

Lemma ord2ymd_year_max (n y m d : Z) :
  1 <= n <= _MAXORDINAL -> _ord2ymd n = (y, m, d) -> y <= MAXYEAR.
Proof.
  intros Hn Heq.
  destruct (ord2ymd_spec n ltac:(lia))
    as (y' & m' & d' & Heq' & Hy & Hm & Hd & Hord).
  rewrite Heq in Heq'. inversion Heq'; subst y' m' d'.
  destruct (Z.le_gt_cases y MAXYEAR) as [?|Hgt]; [assumption|exfalso].
  unfold MAXYEAR in Hgt.
  assert (_ymd2ord 9999 12 31 < _ymd2ord y m d).
  { apply ymd2ord_lt_year; [vm_compute; intuition discriminate | | lia].
    repeat split; lia. }
  change (_ymd2ord 9999 12 31) with 3652059 in *. unfold _MAXORDINAL in *. lia.
Qed.

(** ** Instants *)

Lemma valid_inv (dt : datetime) :
  valid dt ->
  date_ok (year dt) (month dt) (day dt) /\ year dt <= MAXYEAR
  /\ 0 <= hour dt <= 23 /\ 0 <= minute dt <= 59 /\ 0 <= second dt <= 59
  /\ 0 <= microsecond dt <= 999999.
Proof.
  unfold valid, _check_date_fields, _check_time_fields, date_ok, MINYEAR.
  rewrite !andb_true_iff, !Z.leb_le. lia.
Qed.

Lemma valid_intro (y m d : Z) :
  date_ok y m d -> y <= MAXYEAR -> valid (mk_datetime y m d 0 0 0 0).
Proof.
  unfold valid, _check_date_fields, _check_time_fields, date_ok, MINYEAR.
  simpl. rewrite !andb_true_iff, !Z.leb_le. lia.
Qed.

Lemma new_datetime_ok (y m d : Z) :
  date_ok y m d -> y <= MAXYEAR ->
  new_datetime y m d 0 0 0 0 = Ok (mk_datetime y m d 0 0 0 0).
Proof.
  intros H1 H2. unfold new_datetime.
  pose proof (valid_intro y m d H1 H2) as Hv. unfold valid in Hv. simpl in Hv.
  rewrite Hv. reflexivity.
Qed.

Lemma toordinal_range (dt : datetime) :
  valid dt -> 1 <= toordinal dt <= _MAXORDINAL.
Proof.
  intros Hv. destruct (valid_inv dt Hv) as (Hd & Hy & _).
  unfold toordinal. split; [apply ymd2ord_pos | apply ymd2ord_max]; assumption.
Qed.

Lemma day_at_unfold (n : Z) :
  1 <= n ->
  exists y m d, day_at n = mk_datetime y m d 0 0 0 0 /\ date_ok y m d
                /\ _ymd2ord y m d = n.
Proof.
  intros Hn. unfold day_at, fromordinal_at.
  destruct (ord2ymd_spec n Hn) as (y & m & d & -> & Hy & Hm & Hd & Hord).
  exists y, m, d. repeat split; auto; lia.
Qed.

Lemma toordinal_day_at (n : Z) : 1 <= n -> toordinal (day_at n) = n.
Proof.
  intros Hn. destruct (day_at_unfold n Hn) as (y & m & d & -> & _ & Hord).
  exact Hord.
Qed.

Lemma valid_day_at (n : Z) : 1 <= n <= _MAXORDINAL -> valid (day_at n).
Proof.
  intros Hn. pose proof (ord2ymd_year_max n) as Hmax.
  unfold day_at, fromordinal_at in *.
  destruct (ord2ymd_spec n ltac:(lia))
    as (y & m & d & Heq & Hy & Hm & Hd & Hord).
  rewrite Heq. apply valid_intro; [repeat split; lia|].
  eapply Hmax; eauto.
Qed.

Lemma midnight_day_at (n : Z) : is_midnight (day_at n).
Proof.
  unfold day_at, fromordinal_at. destruct (_ord2ymd n) as [[y m] d].
  repeat split.
Qed.

Lemma day_at_ymd (y m d : Z) :
  date_ok y m d -> mk_datetime y m d 0 0 0 0 = day_at (_ymd2ord y m d).
Proof.
  intros H. unfold day_at, fromordinal_at.
  rewrite ord2ymd_ymd2ord by assumption. reflexivity.
Qed.

Lemma combine_midnight_day_at (dt : datetime) :
  valid dt -> combine_midnight dt = day_at (toordinal dt).
Proof.
  intros Hv. destruct (valid_inv dt Hv) as (Hd & _).
  unfold combine_midnight, toordinal. apply day_at_ymd, Hd.
Qed.

Lemma midnight_valid_day_at (dt : datetime) :
  valid dt -> is_midnight dt -> dt = day_at (toordinal dt).
Proof.
  intros Hv (Hh & Hmi & Hs & Hus).
  rewrite <- combine_midnight_day_at by assumption.
  destruct dt; simpl in *; subst; reflexivity.
Qed.

Lemma first_of_day_at (y m : Z) :
  1 <= y -> 1 <= m <= 12 -> first_of y m = day_at (_ymd2ord y m 1).
Proof.
  intros Hy Hm. apply day_at_ymd. pose proof (dim_bounds y m Hm).
  repeat split; lia.
Qed.

Lemma cmp_day_at (n m : Z) :
  1 <= n -> 1 <= m -> _cmp (day_at n) (day_at m) = (n ?= m).
Proof.
  intros Hn Hm.
  destruct (day_at_unfold n Hn) as (y1 & m1 & d1 & -> & H1 & <-).
  destruct (day_at_unfold m Hm) as (y2 & m2 & d2 & -> & H2 & <-).
  unfold _cmp, _getstate. cbn [year month day hour minute second microsecond].
  rewrite ymd2ord_compare by assumption.
  destruct (_ ?= _); reflexivity.
Qed.

Lemma dt_lt_day_at (n m : Z) :
  1 <= n -> 1 <= m -> dt_lt (day_at n) (day_at m) = (n <? m).
Proof.
  intros Hn Hm. unfold dt_lt, Z.ltb. rewrite cmp_day_at by assumption.
  reflexivity.
Qed.

Lemma dt_le_day_at (n m : Z) :
  1 <= n -> 1 <= m -> dt_le (day_at n) (day_at m) = (n <=? m).
Proof.
  intros Hn Hm. unfold dt_le, Z.leb. rewrite cmp_day_at by assumption.
  reflexivity.
Qed.

Lemma day_at_inj (n m : Z) : 1 <= n -> 1 <= m -> day_at n = day_at m -> n = m.
Proof.
  intros Hn Hm Heq. rewrite <- (toordinal_day_at n), <- (toordinal_day_at m)
    by assumption. rewrite Heq. reflexivity.
Qed.

Lemma add_days_day_at (n k : Z) :
  1 <= n -> 1 <= n + k <= _MAXORDINAL -> Z.abs k <= 999999999 ->
  add_days (day_at n) k = Ok (day_at (n + k)).
Proof.
  intros Hn Hk Habs. unfold add_days.
  destruct (Z.ltb_spec 999999999 (Z.abs k)); [lia|].
  rewrite toordinal_day_at by assumption.
  destruct (Z.ltb_spec 0 (n + k)); [|lia].
  destruct (Z.leb_spec (n + k) _MAXORDINAL); [|lia]. simpl.
  unfold fromordinal_at, day_at, fromordinal_at.
  destruct (_ord2ymd (n + k)) as [[y m] d].
  destruct (_ord2ymd n) as [[y' m'] d']. reflexivity.
Qed.

Lemma add_days_overflow (n k : Z) :
  1 <= n -> ~ (1 <= n + k <= _MAXORDINAL) ->
  add_days (day_at n) k = Raise OverflowError.
Proof.
  intros Hn Hk. unfold add_days.
  destruct (Z.ltb_spec 999999999 (Z.abs k)); [reflexivity|].
  rewrite toordinal_day_at by assumption.
  destruct (Z.ltb_spec 0 (n + k)); [|reflexivity].
  destruct (Z.leb_spec (n + k) _MAXORDINAL); [lia|reflexivity].
Qed.

Lemma isoweekday_day_at (n : Z) :
  1 <= n -> isoweekday (day_at n) = if n mod 7 =? 0 then 7 else n mod 7.
Proof.
  intros Hn. unfold isoweekday. rewrite toordinal_day_at by assumption.
  reflexivity.
Qed.

Lemma isoweekday_ord (dt : datetime) :
  isoweekday dt
  = if toordinal dt mod 7 =? 0 then 7 else toordinal dt mod 7.
Proof. reflexivity. Qed.

Opaque add_days day_at toordinal new_datetime isoweekday.

(** ** Ranges of the classes *)

Lemma get_day_range_ok (dt : datetime) :
  valid dt -> toordinal dt + 1 <= _MAXORDINAL ->
  _get_day_range dt = Ok (day_at (toordinal dt), day_at (toordinal dt + 1)).
Proof.
  intros Hv Hn. unfold _get_day_range.
  pose proof (toordinal_range dt Hv).
  rewrite combine_midnight_day_at by assumption.
  rewrite add_days_day_at by lia. reflexivity.
Qed.

Lemma get_day_range_overflow (dt : datetime) :
  valid dt -> toordinal dt = _MAXORDINAL ->
  _get_day_range dt = Raise OverflowError.
Proof.
  intros Hv Hn. unfold _get_day_range.
  pose proof (toordinal_range dt Hv).
  rewrite combine_midnight_day_at by assumption.
  rewrite add_days_overflow by lia. reflexivity.
Qed.

Lemma week_offset_range (st : Settings) (n : Z) : 0 <= week_offset st n <= 6.
Proof. unfold week_offset. destruct (_ =? _); lia. Qed.

Lemma bind_Ok {A B : Type} (a : A) (k : A -> result B) : (Ok a ≫= k) = k a.
Proof. reflexivity. Qed.

Lemma bind_Raise {A B : Type} (e : exn) (k : A -> result B) :
  (Raise e ≫= k) = Raise e.
Proof. reflexivity. Qed.

Lemma sub_days_offset (st : Settings) (n : Z) :
  (if FIRST_DAY_OF_WEEK st =? 1
   then (if n mod 7 =? 0 then 7 else n mod 7) - 1
   else if (if n mod 7 =? 0 then 7 else n mod 7) =? 7 then 0
        else if n mod 7 =? 0 then 7 else n mod 7) = week_offset st n.
Proof.
  unfold week_offset. destruct (FIRST_DAY_OF_WEEK st =? 1);
    destruct (Z.eqb_spec (n mod 7) 0) as [E|E].
  - lia.
  - lia.
  - rewrite E. reflexivity.
  - destruct (Z.eqb_spec (n mod 7) 7); lia.
Qed.

(** [_get_week_range] in terms of ordinals. *)
Lemma get_week_range_ord (st : Settings) (dt : datetime) :
  valid dt ->
  _get_week_range st dt
  = (start ← (if 0 <? week_offset st (toordinal dt)
              then add_days (day_at (toordinal dt))
                            (- week_offset st (toordinal dt))
              else Ok (day_at (toordinal dt)));
     end_ ← add_days start 7; Ok (start, end_)).
Proof.
  intros Hv. unfold _get_week_range, sub_days.
  pose proof (toordinal_range dt Hv) as Hr.
  rewrite combine_midnight_day_at by assumption.
  rewrite isoweekday_day_at by lia.
  rewrite sub_days_offset. reflexivity.
Qed.

Lemma get_week_range_ok (st : Settings) (dt : datetime) :
  valid dt ->
  1 <= toordinal dt - week_offset st (toordinal dt) ->
  toordinal dt - week_offset st (toordinal dt) + 7 <= _MAXORDINAL ->
  _get_week_range st dt
  = Ok (day_at (toordinal dt - week_offset st (toordinal dt)),
        day_at (toordinal dt - week_offset st (toordinal dt) + 7)).
Proof.
  intros Hv Hlo Hhi. rewrite get_week_range_ord by assumption.
  pose proof (toordinal_range dt Hv) as Hr.
  pose proof (week_offset_range st (toordinal dt)) as Hw.
  generalize dependent (week_offset st (toordinal dt)).
  generalize dependent (toordinal dt). clear dt Hv. intros n Hr w Hlo Hhi Hw.
  destruct (Z.ltb_spec 0 w).
  - rewrite add_days_day_at by lia. rewrite bind_Ok.
    rewrite add_days_day_at by lia. rewrite bind_Ok.
    replace (n + - w) with (n - w) by lia. reflexivity.
  - rewrite bind_Ok. rewrite add_days_day_at by lia. rewrite bind_Ok.
    replace (n - w) with n by lia. reflexivity.
Qed.

Lemma get_week_range_overflow (st : Settings) (dt : datetime) :
  valid dt ->
  ~ (1 <= toordinal dt - week_offset st (toordinal dt)
     /\ toordinal dt - week_offset st (toordinal dt) + 7 <= _MAXORDINAL) ->
  _get_week_range st dt = Raise OverflowError.
Proof.
  intros Hv Hno. rewrite get_week_range_ord by assumption.
  pose proof (toordinal_range dt Hv) as Hr.
  pose proof (week_offset_range st (toordinal dt)) as Hw.
  generalize dependent (week_offset st (toordinal dt)).
  generalize dependent (toordinal dt). clear dt Hv. intros n Hr w Hno Hw.
  destruct (Z.ltb_spec 0 w).
  - destruct (Z.le_gt_cases 1 (n - w)).
    + rewrite add_days_day_at by lia. rewrite bind_Ok.
      rewrite add_days_overflow by lia. reflexivity.
    + rewrite add_days_overflow by lia. reflexivity.
  - rewrite bind_Ok. rewrite add_days_overflow by lia. reflexivity.
Qed.

Lemma date_ok_first (y m : Z) : 1 <= y -> 1 <= m <= 12 -> date_ok y m 1.
Proof.
  intros Hy Hm. pose proof (dim_bounds y m Hm). repeat split; lia.
Qed.

Lemma get_month_range_ok (dt : datetime) :
  valid dt -> ~ (year dt = MAXYEAR /\ month dt = 12) ->
  _get_month_range dt
  = Ok (first_of (year dt) (month dt),
        if month dt =? 12 then first_of (year dt + 1) 1
        else first_of (year dt) (month dt + 1)).
Proof.
  intros Hv Hno. destruct (valid_inv dt Hv) as ((Hy & Hm & Hd) & Hmax & _).
  unfold _get_month_range, replace.
  cbn [year month day hour minute second microsecond datetime_min].
  rewrite new_datetime_ok
    by (unfold MAXYEAR in *; try apply date_ok_first; lia).
  rewrite bind_Ok.
  cbn [year month day hour minute second microsecond].
  destruct (Z.eqb_spec (month dt) 12) as [E|E].
  - rewrite new_datetime_ok
      by (unfold MAXYEAR in *; try apply date_ok_first; lia).
    reflexivity.
  - rewrite new_datetime_ok
      by (unfold MAXYEAR in *; try apply date_ok_first; lia).
    reflexivity.
Qed.

Lemma get_month_range_overflow (dt : datetime) :
  valid dt -> year dt = MAXYEAR -> month dt = 12 ->
  _get_month_range dt = Raise ValueError.
Proof.
  intros Hv Hy Hm. destruct (valid_inv dt Hv) as (Hd & _).
  unfold _get_month_range, replace.
  cbn [year month day hour minute second microsecond datetime_min].
  rewrite new_datetime_ok
    by (unfold MAXYEAR in *; try apply date_ok_first; lia).
  rewrite bind_Ok.
  rewrite Hy, Hm. reflexivity.
Qed.

Lemma get_year_range_ok (dt : datetime) :
  valid dt -> year dt < MAXYEAR ->
  _get_year_range dt = Ok (first_of (year dt) 1, first_of (year dt + 1) 1).
Proof.
  intros Hv Hlt. destruct (valid_inv dt Hv) as ((Hy & Hm & Hd) & Hmax & _).
  unfold _get_year_range.
  cbn [year month day hour minute second microsecond datetime_min].
  rewrite !new_datetime_ok
    by (unfold MAXYEAR in *; try apply date_ok_first; lia).
  reflexivity.
Qed.

Lemma get_year_range_overflow (dt : datetime) :
  valid dt -> year dt = MAXYEAR -> _get_year_range dt = Raise ValueError.
Proof.
  intros Hv Hy. destruct (valid_inv dt Hv) as ((Hy1 & _) & _).
  unfold _get_year_range.
  cbn [year month day hour minute second microsecond datetime_min].
  rewrite (new_datetime_ok (year dt) 1 1)
    by (unfold MAXYEAR in *; try apply date_ok_first; lia).
  rewrite Hy. reflexivity.
Qed.

(** ** Instances and their caches *)

Lemma get_persisted_occurrences_miss (st : Settings) (self : Period)
    (w : World) :
  no_typo_attr self ->
  get_persisted_occurrences st self w
  = Ok (objects_filter st (events self),
        setattr self "_persisted_occurrences" (objects_filter st (events self)),
        mk_World (S (storage_queries w))).
Proof.
  intros H. unfold get_persisted_occurrences, hasattr.
  unfold no_typo_attr in H. rewrite H.
  rewrite bool_decide_eq_false_2; [reflexivity|].
  intros [x Hx]. discriminate.
Qed.

Lemma no_typo_setattr (self : Period) (name : string) (v : list Occurrence) :
  name <> "_persisted_occurrenes"%string ->
  no_typo_attr self -> no_typo_attr (setattr self name v).
Proof.
  intros Hne H. unfold no_typo_attr, setattr in *. simpl.
  rewrite lookup_insert_ne; assumption.
Qed.

Lemma no_typo_cached (self : Period) :
  no_typo_attr self -> no_typo_attr (snd (cached_get_sorted_occurrences self)).
Proof.
  intros H. unfold cached_get_sorted_occurrences.
  destruct (attrs self !! "_occurrences"%string); simpl; [assumption|].
  apply no_typo_setattr; [discriminate | assumption].
Qed.

Lemma no_typo_after_sub (st : Settings) (self : Period) :
  no_typo_attr self -> no_typo_attr (after_sub st self).
Proof.
  intros H. unfold after_sub. apply no_typo_cached.
  apply no_typo_setattr; [discriminate | assumption].
Qed.

Lemma no_typo_init (c : option Variant) (ev : list Event) (s e : datetime)
    (pp pool : option (list Occurrence)) :
  no_typo_attr (Period__init__ c ev s e pp pool).
Proof.
  unfold no_typo_attr, Period__init__. simpl. destruct pp.
  - apply lookup_singleton_ne. discriminate.
  - apply lookup_empty.
Qed.

Lemma cached_fields (self : Period) :
  let self' := snd (cached_get_sorted_occurrences self) in
  cls self' = cls self /\ start self' = start self /\ end_ self' = end_ self
  /\ events self' = events self /\ occurrence_pool self' = occurrence_pool self.
Proof.
  unfold cached_get_sorted_occurrences.
  destruct (attrs self !! "_occurrences"%string); simpl; repeat split.
Qed.

Lemma after_sub_fields (st : Settings) (self : Period) :
  cls (after_sub st self) = cls self /\ start (after_sub st self) = start self
  /\ end_ (after_sub st self) = end_ self
  /\ events (after_sub st self) = events self
  /\ occurrence_pool (after_sub st self) = occurrence_pool self.
Proof.
  unfold after_sub.
  destruct (cached_fields (setattr self "_persisted_occurrences"
                             (objects_filter st (events self))))
    as (H1 & H2 & H3 & H4 & H5).
  rewrite H1, H2, H3, H4, H5. repeat split.
Qed.

(** What a child of class [c] is given as its pool. *)
Lemma construct_range (st : Settings) (c : Variant) (ev : list Event)
    (d : datetime) (po oc : list Occurrence) :
  construct st c ev d po oc
  = (r ← sub_range st c d;
     Ok (Period__init__ (Some c) ev (fst r) (snd r) (Some po)
           (match c with KYear => None | _ => Some oc end))).
Proof.
  destruct c; cbn [construct sub_range]; unfold Year, Month, Week, Day;
    try (destruct (USE_TZ st); [reflexivity|]);
    match goal with |- context [mbind _ ?r] => destruct r as [[s e]|] end;
    reflexivity.
Qed.

Lemma next_range (st : Settings) (c : Variant) (p : Period) :
  cls p = Some c ->
  next st p
  = (r ← variant_range st c (end_ p);
     Ok (Period__init__ (Some c) (events p) (fst r) (snd r) None None)).
Proof.
  intros H. unfold next. rewrite H.
  destruct c; simpl;
    unfold next_year, next_month, next_week, next_day, Year, Month, Week, Day;
    match goal with |- context [mbind _ ?r] => destruct r as [[s e]|] end;
    reflexivity.
Qed.

Lemma create_sub_period_spec (st : Settings) (c : Variant)
    (so : option datetime) (self : Period) (w : World) :
  no_typo_attr self ->
  create_sub_period st c so self w
  = (r ← sub_range st c (default (start self) so);
     Ok (Period__init__ (Some c) (events self) (fst r) (snd r)
           (Some (objects_filter st (events self)))
           (match c with
            | KYear => None
            | _ => Some (fst (cached_get_sorted_occurrences
                                (setattr self "_persisted_occurrences"
                                   (objects_filter st (events self)))))
            end),
         after_sub st self, mk_World (S (storage_queries w)))).
Proof.
  intros H. unfold create_sub_period.
  rewrite get_persisted_occurrences_miss by assumption. rewrite bind_Ok.
  unfold after_sub.
  destruct (cached_get_sorted_occurrences _) as [occs self'] eqn:E.
  rewrite construct_range.
  assert (Hev : events self' = events self).
  { pose proof (cached_fields (setattr self "_persisted_occurrences"
                                 (objects_filter st (events self)))) as Hc.
    rewrite E in Hc. simpl in Hc. tauto. }
  rewrite Hev. cbn [fst snd].
  destruct (sub_range st c (default (start self) so)) as [[s e]|];
    reflexivity.
Qed.

(** The instances [get_periods_loop] yields have the ranges of
    [ranges_loop], and the two fail together. *)
Lemma get_periods_loop_ranges (st : Settings) (c : Variant) (fuel : nat) :
  forall (period self : Period) (w : World),
    no_typo_attr self -> cls period = Some c ->
    match ranges_loop st c fuel (range period) (end_ self) with
    | None => get_periods_loop st c fuel period self w = None
    | Some (Raise e) =>
        get_periods_loop st c fuel period self w = Some (Raise e)
    | Some (Ok rs) =>
        exists l self' w',
          get_periods_loop st c fuel period self w = Some (Ok (l, self', w'))
          /\ map range l = rs
          /\ Forall (fun p => cls p = Some c) l
          /\ start self' = start self /\ end_ self' = end_ self
    end.
Proof.
  induction fuel as [|fuel IH]; intros period self w Hinv Hcls; [reflexivity|].
  cbn [ranges_loop get_periods_loop range fst snd].
  destruct (dt_lt (start period) (end_ self)).
  2:{ exists [], self, w. repeat split. constructor. }
  rewrite create_sub_period_spec by assumption. cbn [default from_option id].
  destruct (sub_range st c (start period)) as [child|e]; [|reflexivity].
  rewrite bind_Ok. rewrite (next_range st c) by assumption.
  destruct (variant_range st c (end_ period)) as [nxt|e]; [|reflexivity].
  rewrite bind_Ok.
  set (period' := Period__init__ (Some c) (events period) (fst nxt) (snd nxt)
                    None None).
  specialize (IH period' (after_sub st self)
                (mk_World (S (storage_queries w)))
                (no_typo_after_sub st self Hinv) eq_refl).
  destruct (after_sub_fields st self) as (_ & Hs & He & _).
  rewrite He in IH.
  replace (range period') with nxt in IH by (destruct nxt; reflexivity).
  destruct (ranges_loop st c fuel nxt (end_ self)) as [[rs|e]|].
  - destruct IH as (l & self' & w' & -> & Hmap & Hall & Hs' & He').
    eexists _, self', w'. split; [reflexivity|].
    cbn [map]. rewrite Hmap. repeat split.
    + destruct child; reflexivity.
    + constructor; [reflexivity | assumption].
    + congruence.
    + congruence.
  - rewrite IH. reflexivity.
  - rewrite IH. reflexivity.
Qed.

Lemma get_periods_ranges (st : Settings) (c : Variant) (fuel : nat)
    (self : Period) (w : World) :
  no_typo_attr self ->
  match sub_range st c (start self) with
  | Raise e => get_periods st c fuel self w = Some (Raise e)
  | Ok r0 =>
      match ranges_loop st c fuel r0 (end_ self) with
      | None => get_periods st c fuel self w = None
      | Some (Raise e) => get_periods st c fuel self w = Some (Raise e)
      | Some (Ok rs) =>
          exists l self' w',
            get_periods st c fuel self w = Some (Ok (l, self', w'))
            /\ map range l = rs
            /\ Forall (fun p => cls p = Some c) l
            /\ start self' = start self /\ end_ self' = end_ self
      end
  end.
Proof.
  intros Hinv. unfold get_periods.
  rewrite create_sub_period_spec by assumption. cbn [default from_option id].
  destruct (sub_range st c (start self)) as [r0|e]; [|reflexivity].
  rewrite bind_Ok.
  set (period := Period__init__ _ _ _ _ _ _).
  pose proof (get_periods_loop_ranges st c fuel period (after_sub st self)
                (mk_World (S (storage_queries w)))
                (no_typo_after_sub st self Hinv) eq_refl) as H.
  destruct (after_sub_fields st self) as (_ & Hs & He & _).
  rewrite He in H.
  replace (range period) with r0 in H by (destruct r0; reflexivity).
  destruct (ranges_loop st c fuel r0 (end_ self)) as [[rs|e]|]; try exact H.
  destruct H as (l & self' & w' & -> & Hmap & Hall & Hs' & He').
  exists l, self', w'. repeat split; try assumption; congruence.
Qed.

(** ** Stepping through a parent *)

Section FixedStep.
Variables (st : Settings) (c : Variant) (len : Z) (al : Z -> Prop).
Hypothesis not_year : c <> KYear.
Hypothesis len_pos : 0 < len.
Hypothesis al_step : forall n, al n -> al (n + len).
Hypothesis range_al :
  forall n, 1 <= n -> n + len <= _MAXORDINAL -> al n ->
            variant_range st c (day_at n) = Ok (day_at n, day_at (n + len)).

Lemma sub_range_variant (d : datetime) :
  sub_range st c d = variant_range st c d.
Proof. destruct c; [contradiction|reflexivity..]. Qed.

Lemma ranges_loop_steps :
  forall (k fuel : nat) (a b : Z),
    (k < fuel)%nat -> 1 <= a -> 1 <= b -> al a ->
    a + len * (Z.of_nat k + 1) <= _MAXORDINAL ->
    b <= a + len * Z.of_nat k ->
    ((0 < k)%nat -> a + len * (Z.of_nat k - 1) < b) ->
    ranges_loop st c fuel (day_at a, day_at (a + len)) (day_at b)
    = Some (Ok (step_ranges len a k)).
Proof.
  induction k as [|k IH]; intros fuel a b Hfuel Ha Hb Hal Hmax Hle Hgt;
    (destruct fuel as [|fuel]; [lia|]); cbn [ranges_loop fst snd].
  - rewrite dt_lt_day_at by assumption.
    destruct (Z.ltb_spec a b); [lia|]. reflexivity.
  - rewrite dt_lt_day_at by assumption.
    destruct (Z.ltb_spec a b); [|nia].
    rewrite sub_range_variant.
    rewrite range_al by first [nia | auto].
    rewrite range_al by first [nia | auto].
    rewrite IH; first [reflexivity | nia | auto].
Qed.
End FixedStep.

Lemma day_range_day_at (st : Settings) (n : Z) :
  1 <= n -> n + 1 <= _MAXORDINAL -> True ->
  variant_range st KDay (day_at n) = Ok (day_at n, day_at (n + 1)).
Proof.
  intros Hn Hmax _. cbn [variant_range].
  rewrite get_day_range_ok; rewrite ?toordinal_day_at by assumption;
    [reflexivity | apply valid_day_at; lia | lia].
Qed.

Lemma week_offset_step (st : Settings) (n : Z) :
  week_offset st n = 0 -> week_offset st (n + 7) = 0.
Proof. unfold week_offset. destruct (_ =? _); lia. Qed.

Lemma week_range_day_at (st : Settings) (n : Z) :
  1 <= n -> n + 7 <= _MAXORDINAL -> week_offset st n = 0 ->
  variant_range st KWeek (day_at n) = Ok (day_at n, day_at (n + 7)).
Proof.
  intros Hn Hmax Hal. cbn [variant_range].
  rewrite get_week_range_ok; rewrite ?toordinal_day_at by assumption;
    rewrite ?Hal; rewrite ?Z.sub_0_r;
    [reflexivity | apply valid_day_at; lia | lia | lia].
Qed.

Lemma ranges_loop_days (st : Settings) (k fuel : nat) (a b : Z) :
  (k < fuel)%nat -> 1 <= a -> b = a + Z.of_nat k -> b + 1 <= _MAXORDINAL ->
  ranges_loop st KDay fuel (day_at a, day_at (a + 1)) (day_at b)
  = Some (Ok (step_ranges 1 a k)).
Proof.
  intros Hfuel Ha Hb Hmax.
  apply (ranges_loop_steps st KDay 1 (fun _ => True)); auto; try lia;
    try discriminate.
  intros n H1 H2 H3. apply day_range_day_at; auto.
Qed.

Lemma ranges_loop_weeks (st : Settings) (k fuel : nat) (a b : Z) :
  (k < fuel)%nat -> 1 <= a -> 1 <= b -> week_offset st a = 0 ->
  a + 7 * (Z.of_nat k + 1) <= _MAXORDINAL ->
  b <= a + 7 * Z.of_nat k ->
  ((0 < k)%nat -> a + 7 * (Z.of_nat k - 1) < b) ->
  ranges_loop st KWeek fuel (day_at a, day_at (a + 7)) (day_at b)
  = Some (Ok (step_ranges 7 a k)).
Proof.
  intros. apply (ranges_loop_steps st KWeek 7 (fun n => week_offset st n = 0));
    auto; try lia; try discriminate.
  - intros n. apply week_offset_step.
  - intros n. apply week_range_day_at.
Qed.

(** ** The order of instants *)

Lemma cmp_tuple_eq (a b : list Z) : _cmp_tuple a b = Eq <-> a = b.
Proof.
  revert b. induction a as [|x a IH]; intros [|y b]; simpl;
    try (split; [discriminate | discriminate]); [tauto|].
  destruct (Z.compare_spec x y) as [->|H|H].
  - rewrite IH. split; [intros ->; reflexivity | intros [=]; assumption].
  - split; [discriminate | intros [=]; lia].
  - split; [discriminate | intros [=]; lia].
Qed.

Lemma cmp_tuple_antisym (a b : list Z) :
  _cmp_tuple b a = CompOpp (_cmp_tuple a b).
Proof.
  revert b. induction a as [|x a IH]; intros [|y b]; simpl; try reflexivity.
  rewrite (Z.compare_antisym x y).
  destruct (x ?= y); simpl; auto.
Qed.

Lemma cmp_tuple_lt_trans (a b c : list Z) :
  _cmp_tuple a b = Lt -> _cmp_tuple b c = Lt -> _cmp_tuple a c = Lt.
Proof.
  revert b c. induction a as [|x a IH]; intros [|y b] [|z c]; simpl;
    try discriminate; try reflexivity.
  destruct (Z.compare_spec x y) as [E1|H1|H1]; try discriminate;
    destruct (Z.compare_spec y z) as [E2|H2|H2]; try discriminate; intros Ha Hb.
  - subst. rewrite Z.compare_refl. eapply IH; eassumption.
  - subst. apply Z.compare_lt_iff in H2. rewrite H2. reflexivity.
  - subst. apply Z.compare_lt_iff in H1. rewrite H1. reflexivity.
  - assert (H : x < z) by lia.
    apply Z.compare_lt_iff in H. rewrite H. reflexivity.
Qed.

Lemma getstate_inj (a b : datetime) : _getstate a = _getstate b -> a = b.
Proof. destruct a, b. unfold _getstate. simpl. intros [=]. congruence. Qed.

Lemma cmp_eq (a b : datetime) : _cmp a b = Eq <-> a = b.
Proof.
  unfold _cmp. rewrite cmp_tuple_eq. split; [apply getstate_inj | congruence].
Qed.

Lemma cmp_antisym (a b : datetime) : _cmp b a = CompOpp (_cmp a b).
Proof. apply cmp_tuple_antisym. Qed.

Lemma cmp_refl (a : datetime) : _cmp a a = Eq.
Proof. apply cmp_eq. reflexivity. Qed.

Lemma dt_lt_irrefl (a : datetime) : dt_lt a a = false.
Proof. unfold dt_lt. rewrite cmp_refl. reflexivity. Qed.

Lemma dt_le_refl (a : datetime) : dt_le a a = true.
Proof. unfold dt_le. rewrite cmp_refl. reflexivity. Qed.

Lemma dt_lt_negb_le (a b : datetime) : dt_lt a b = negb (dt_le b a).
Proof.
  unfold dt_lt, dt_le. rewrite (cmp_antisym a b).
  destruct (_cmp a b); reflexivity.
Qed.

Lemma dt_le_negb_lt (a b : datetime) : dt_le a b = negb (dt_lt b a).
Proof. rewrite dt_lt_negb_le, negb_involutive. reflexivity. Qed.

Lemma dt_lt_le (a b : datetime) : dt_lt a b = true -> dt_le a b = true.
Proof. unfold dt_lt, dt_le. destruct (_cmp a b); auto. Qed.

Lemma dt_lt_trans (a b c : datetime) :
  dt_lt a b = true -> dt_lt b c = true -> dt_lt a c = true.
Proof.
  unfold dt_lt, _cmp. intros H1 H2.
  rewrite (cmp_tuple_lt_trans (_getstate a) (_getstate b) (_getstate c)).
  - reflexivity.
  - destruct (_cmp_tuple (_getstate a) (_getstate b)); congruence.
  - destruct (_cmp_tuple (_getstate b) (_getstate c)); congruence.
Qed.

Lemma dt_le_cases (a b : datetime) :
  dt_le a b = true -> a = b \/ dt_lt a b = true.
Proof.
  unfold dt_le, dt_lt. destruct (_cmp a b) eqn:E; try discriminate; auto.
  left. apply cmp_eq. assumption.
Qed.

Lemma dt_le_lt_trans (a b c : datetime) :
  dt_le a b = true -> dt_lt b c = true -> dt_lt a c = true.
Proof.
  intros H1 H2. destruct (dt_le_cases a b H1) as [->|H]; [assumption|].
  eapply dt_lt_trans; eassumption.
Qed.

Lemma dt_lt_le_trans (a b c : datetime) :
  dt_lt a b = true -> dt_le b c = true -> dt_lt a c = true.
Proof.
  intros H1 H2. destruct (dt_le_cases b c H2) as [<-|H]; [assumption|].
  eapply dt_lt_trans; eassumption.
Qed.

Lemma dt_le_trans (a b c : datetime) :
  dt_le a b = true -> dt_le b c = true -> dt_le a c = true.
Proof.
  intros H1 H2. destruct (dt_le_cases a b H1) as [->|H]; [assumption|].
  apply dt_lt_le. eapply dt_lt_le_trans; eassumption.
Qed.

Lemma dt_le_antisym (a b : datetime) :
  dt_le a b = true -> dt_le b a = true -> a = b.
Proof.
  intros H1 H2. destruct (dt_le_cases a b H1) as [->|H]; [reflexivity|].
  rewrite dt_lt_negb_le, H2 in H. discriminate.
Qed.

(** ** Classification *)

Lemma classify_occurrence_some (st : Settings) (p : Period) (o : Occurrence) :
  Occ.cancelled o && negb (SHOW_CANCELLED_OCCURRENCES st) = false ->
  dt_gt (Occ.start o) (end_ p) || dt_lt (Occ.end_ o) (start p) = false ->
  classify_occurrence st p o
  = Some (mk_Partial o
            (if started_in p o && ended_in p o then 1
             else if started_in p o then 0
             else if ended_in p o then 3 else 2)).
Proof.
  intros H1 H2. unfold classify_occurrence, started_in, ended_in.
  rewrite H1, H2.
  destruct (dt_le (start p) (Occ.start o) && dt_lt (Occ.start o) (end_ p));
    destruct (dt_le (start p) (Occ.end_ o) && dt_lt (Occ.end_ o) (end_ p));
    reflexivity.
Qed.

Lemma classify_occurrence_none (st : Settings) (p : Period) (o : Occurrence) :
  classify_occurrence st p o = None
  <-> Occ.cancelled o && negb (SHOW_CANCELLED_OCCURRENCES st) = true
      \/ dt_gt (Occ.start o) (end_ p) = true
      \/ dt_lt (Occ.end_ o) (start p) = true.
Proof.
  destruct (Occ.cancelled o && negb (SHOW_CANCELLED_OCCURRENCES st)) eqn:H1.
  - unfold classify_occurrence. rewrite H1. tauto.
  - destruct (dt_gt (Occ.start o) (end_ p) || dt_lt (Occ.end_ o) (start p))
      eqn:H2.
    + unfold classify_occurrence. rewrite H1, H2.
      apply orb_true_iff in H2. tauto.
    + rewrite classify_occurrence_some by assumption.
      apply orb_false_iff in H2. destruct H2 as [-> ->].
      split; [discriminate | intros [?|[?|?]]; discriminate].
Qed.

(** C1: an occurrence that [classify_occurrence] neither suppresses (it is
    not cancelled, or cancelled occurrences are shown) nor rejects (it does
    not start after the period's end and does not end before the period's
    start) is returned with the class fixed by the flags [started] and
    [ended]: 1 for both, 0 for started only, 3 for ended only, 2 for
    neither.  In particular such an occurrence gets class 1 when it lies
    inside the period's range and class 2 when it starts before the
    period's start and ends after its end. *)
Theorem classify_occurrence_class (st : Settings) (p : Period)
    (o : Occurrence) :
  Occ.cancelled o && negb (SHOW_CANCELLED_OCCURRENCES st) = false ->
  dt_gt (Occ.start o) (end_ p) = false ->
  dt_lt (Occ.end_ o) (start p) = false ->
  let started :=
    dt_le (start p) (Occ.start o) && dt_lt (Occ.start o) (end_ p) in
  let ended :=
    dt_le (start p) (Occ.end_ o) && dt_lt (Occ.end_ o) (end_ p) in
  classify_occurrence st p o
  = Some (mk_Partial o (if started && ended then 1
                        else if started then 0
                        else if ended then 3 else 2))
  /\ (started = true -> ended = true ->
      classify_occurrence st p o = Some (mk_Partial o 1))
  /\ (started = true -> ended = false ->
      classify_occurrence st p o = Some (mk_Partial o 0))
  /\ (started = false -> ended = true ->
      classify_occurrence st p o = Some (mk_Partial o 3))
  /\ (started = false -> ended = false ->
      classify_occurrence st p o = Some (mk_Partial o 2))
  /\ (dt_le (start p) (Occ.start o) = true ->
      dt_le (Occ.start o) (Occ.end_ o) = true ->
      dt_lt (Occ.end_ o) (end_ p) = true ->
      classify_occurrence st p o = Some (mk_Partial o 1))
  /\ (dt_lt (Occ.start o) (start p) = true ->
      dt_gt (Occ.end_ o) (end_ p) = true ->
      classify_occurrence st p o = Some (mk_Partial o 2)).
Proof.
  intros H1 H2 H3 started ended.
  assert (Hcls : classify_occurrence st p o
                 = Some (mk_Partial o (if started && ended then 1
                                       else if started then 0
                                       else if ended then 3 else 2))).
  { rewrite classify_occurrence_some
      by (try assumption; rewrite H2, H3; reflexivity).
    reflexivity. }
  split; [exact Hcls|].
  do 4 (split; [intros Hs He; rewrite Hcls, Hs, He; reflexivity|]).
  split.
  - intros Ha Hb Hc.
    assert (Hs : started = true).
    { unfold started. rewrite Ha. cbn [andb].
      eapply dt_le_lt_trans; eassumption. }
    assert (He : ended = true).
    { unfold ended. rewrite Hc.
      rewrite (dt_le_trans _ _ _ Ha Hb). reflexivity. }
    rewrite Hcls, Hs, He. reflexivity.
  - intros Ha Hb.
    assert (Hs : started = false).
    { unfold started. rewrite dt_le_negb_lt, Ha. reflexivity. }
    assert (He : ended = false).
    { unfold ended. unfold dt_gt in Hb.
      rewrite (dt_lt_negb_le (Occ.end_ o) (end_ p)).
      rewrite (dt_lt_le _ _ Hb). apply andb_false_r. }
    rewrite Hcls, Hs, He. reflexivity.
Qed.

Lemma classify_occurrence_class_witness :
  classify_occurrence settings_monday january_2024 occ_inside
  = Some (mk_Partial occ_inside 1)
  /\ classify_occurrence settings_monday january_2024 occ_starting
     = Some (mk_Partial occ_starting 0)
  /\ classify_occurrence settings_monday january_2024 occ_ending
     = Some (mk_Partial occ_ending 3)
  /\ classify_occurrence settings_monday january_2024 occ_spanning
     = Some (mk_Partial occ_spanning 2).
Proof.
  split; [|split; [|split]].
  - destruct (classify_occurrence_class settings_monday january_2024
                occ_inside eq_refl eq_refl eq_refl)
      as (_ & _ & _ & _ & _ & H & _).
    apply H; reflexivity.
  - destruct (classify_occurrence_class settings_monday january_2024
                occ_starting eq_refl eq_refl eq_refl)
      as (_ & _ & H & _).
    apply H; reflexivity.
  - destruct (classify_occurrence_class settings_monday january_2024
                occ_ending eq_refl eq_refl eq_refl)
      as (_ & _ & _ & H & _).
    apply H; reflexivity.
  - destruct (classify_occurrence_class settings_monday january_2024
                occ_spanning eq_refl eq_refl eq_refl)
      as (_ & _ & _ & _ & _ & _ & H).
    apply H; reflexivity.
Defined.

Lemma rejected_is_outside (p : Period) (o : Occurrence) :
  dt_gt (Occ.start o) (end_ p) = true \/ dt_lt (Occ.end_ o) (start p) = true ->
  ~ intersects_half_open p o.
Proof.
  intros H (t & H1 & H2 & H3 & H4). destruct H as [H|H].
  - unfold dt_gt in H.
    pose proof (dt_lt_le_trans _ _ _ H H1) as H5.
    pose proof (dt_lt_trans _ _ _ H4 H5) as H6.
    rewrite dt_lt_irrefl in H6. discriminate.
  - pose proof (dt_le_lt_trans _ _ _ H2 H) as H5.
    pose proof (dt_le_lt_trans _ _ _ H3 H5) as H6.
    rewrite dt_lt_irrefl in H6. discriminate.
Qed.

(** C2, as stated, fails: an occurrence that starts exactly at the period's
    end does not meet the half-open range and is not cancelled, yet it is
    classified. *)
Lemma classify_occurrence_touching_end :
  ~ (classify_occurrence settings_monday january_2024 occ_at_end = None
     <-> (Occ.cancelled occ_at_end
          && negb (SHOW_CANCELLED_OCCURRENCES settings_monday) = true
          \/ ~ intersects_half_open january_2024 occ_at_end)).
Proof.
  intros [_ H].
  assert (Hsome : classify_occurrence settings_monday january_2024 occ_at_end
                  = Some (mk_Partial occ_at_end 2)) by reflexivity.
  rewrite H in Hsome; [discriminate|].
  right. intros (t & H1 & _ & _ & H4).
  change (Occ.start occ_at_end) with (end_ january_2024) in H1.
  pose proof (dt_le_lt_trans _ _ _ H1 H4) as H5.
  rewrite dt_lt_irrefl in H5. discriminate.
Qed.

(** C2, the divergence: the rejection test of [classify_occurrence] is
    [occurrence.start > self.end], where the range of the period is
    half-open.  On every period whose start is not after its end, an
    occurrence that is not suppressed and starts exactly at the period's end
    is not rejected: it is returned with class 2, "it lasted throughout the
    period", although it shares no instant with [[start, end)] and although
    the overlap test of [_get_sorted_occurrences],
    [occurrence.start < self.end], leaves it out. *)
Theorem classify_occurrence_start_at_end (st : Settings) (p : Period)
    (o : Occurrence) :
  Occ.cancelled o && negb (SHOW_CANCELLED_OCCURRENCES st) = false ->
  dt_le (start p) (end_ p) = true ->
  Occ.start o = end_ p ->
  dt_le (Occ.start o) (Occ.end_ o) = true ->
  classify_occurrence st p o = Some (mk_Partial o 2)
  /\ ~ intersects_half_open p o
  /\ overlaps p o = false.
Proof.
  intros Hsup Hp Hstart Ho.
  assert (Hend : dt_le (end_ p) (Occ.end_ o) = true)
    by (rewrite <- Hstart; exact Ho).
  split; [|split].
  - rewrite classify_occurrence_some; [|exact Hsup|].
    + unfold started_in, ended_in. rewrite Hstart, dt_lt_irrefl.
      rewrite (dt_lt_negb_le (Occ.end_ o) (end_ p)), Hend.
      rewrite !andb_false_r. reflexivity.
    + unfold dt_gt. rewrite Hstart, dt_lt_irrefl. cbn [orb].
      rewrite dt_lt_negb_le.
      rewrite (dt_le_trans _ _ _ Hp Hend). reflexivity.
  - intros (t & H1 & _ & _ & H4). rewrite Hstart in H1.
    pose proof (dt_le_lt_trans _ _ _ H1 H4) as H5.
    rewrite dt_lt_irrefl in H5. discriminate.
  - unfold overlaps. rewrite Hstart, dt_lt_irrefl. reflexivity.
Qed.

Lemma classify_occurrence_start_at_end_witness :
  classify_occurrence settings_monday january_2024 occ_at_end
  = Some (mk_Partial occ_at_end 2)
  /\ ~ intersects_half_open january_2024 occ_at_end
  /\ overlaps january_2024 occ_at_end = false.
Proof.
  exact (classify_occurrence_start_at_end settings_monday january_2024
           occ_at_end eq_refl eq_refl eq_refl eq_refl).
Defined.

(** What [classify_occurrence] gives no result for: an occurrence that is
    cancelled while cancelled occurrences are hidden, or one that starts
    after the period's end or ends before the period's start, both bounds
    inclusive; what is rejected never meets the half-open range, and
    everything else gets a classification.  The function is total: no case
    is an error. *)
Theorem classify_occurrence_no_result (st : Settings) (p : Period)
    (o : Occurrence) :
  (classify_occurrence st p o = None
   <-> Occ.cancelled o && negb (SHOW_CANCELLED_OCCURRENCES st) = true
       \/ dt_gt (Occ.start o) (end_ p) = true
       \/ dt_lt (Occ.end_ o) (start p) = true)
  /\ (classify_occurrence st p o = None ->
      Occ.cancelled o && negb (SHOW_CANCELLED_OCCURRENCES st) = true
      \/ ~ intersects_half_open p o)
  /\ (classify_occurrence st p o <> None ->
      exists k : Z, classify_occurrence st p o = Some (mk_Partial o k)
                    /\ 0 <= k <= 3).
Proof.
  pose proof (classify_occurrence_none st p o) as Hiff.
  split; [exact Hiff|]. split.
  - intros H. apply Hiff in H. destruct H as [H|H]; [left; exact H|].
    right. apply rejected_is_outside. exact H.
  - intros H.
    destruct (Occ.cancelled o && negb (SHOW_CANCELLED_OCCURRENCES st)) eqn:H1;
      [exfalso; apply H, Hiff; tauto|].
    destruct (dt_gt (Occ.start o) (end_ p)) eqn:H2;
      [exfalso; apply H, Hiff; tauto|].
    destruct (dt_lt (Occ.end_ o) (start p)) eqn:H3;
      [exfalso; apply H, Hiff; tauto|].
    rewrite classify_occurrence_some
      by (try assumption; rewrite H2, H3; reflexivity).
    eexists. split; [reflexivity|].
    destruct (started_in p o), (ended_in p o); simpl; lia.
Qed.

(** ** Occurrences of a period *)

Lemma cmp_tuple_app (a b a' b' : list Z) :
  length a = length b ->
  _cmp_tuple (a ++ a') (b ++ b')
  = match _cmp_tuple a b with
    | Eq => _cmp_tuple a' b'
    | c => c
    end.
Proof.
  revert b. induction a as [|x a IH]; intros [|y b] Hlen; simpl in *;
    try discriminate; [reflexivity|].
  destruct (x ?= y); try reflexivity. apply IH. congruence.
Qed.

Lemma occ_cmp_key (a b : Occurrence) :
  occ_cmp a b = _cmp_tuple (occ_key a) (occ_key b).
Proof.
  unfold occ_cmp, occ_key, _cmp. rewrite cmp_tuple_app by reflexivity.
  reflexivity.
Qed.

Lemma occ_le_total (a b : Occurrence) : occ_lt a b = true -> occ_le a b.
Proof.
  unfold occ_le, occ_lt. rewrite !occ_cmp_key.
  rewrite (cmp_tuple_antisym (occ_key a) (occ_key b)).
  destruct (_cmp_tuple (occ_key a) (occ_key b)); cbn [CompOpp]; congruence.
Qed.

Lemma occ_le_trans (a b c : Occurrence) :
  occ_le a b -> occ_le b c -> occ_le a c.
Proof.
  unfold occ_le, occ_lt. rewrite !occ_cmp_key.
  rewrite (cmp_tuple_antisym (occ_key a) (occ_key b)).
  rewrite (cmp_tuple_antisym (occ_key b) (occ_key c)).
  rewrite (cmp_tuple_antisym (occ_key a) (occ_key c)).
  destruct (_cmp_tuple (occ_key a) (occ_key b)) eqn:E1;
    destruct (_cmp_tuple (occ_key b) (occ_key c)) eqn:E2; cbn [CompOpp];
    try discriminate; intros _ _.
  - apply cmp_tuple_eq in E1. rewrite E1, E2. reflexivity.
  - apply cmp_tuple_eq in E1. rewrite E1, E2. reflexivity.
  - apply cmp_tuple_eq in E2. rewrite <- E2, E1. reflexivity.
  - rewrite (cmp_tuple_lt_trans _ _ _ E1 E2). reflexivity.
Qed.

Lemma insort_perm (x : Occurrence) (l : list Occurrence) :
  Permutation (insort x l) (x :: l).
Proof.
  induction l as [|y l IH]; simpl; [reflexivity|].
  destruct (occ_lt y x); [|reflexivity].
  rewrite IH. apply perm_swap.
Qed.

Lemma sorted_perm (l : list Occurrence) : Permutation (sorted l) l.
Proof.
  induction l as [|x l IH]; simpl; [reflexivity|].
  unfold sorted in *. rewrite insort_perm. constructor. exact IH.
Qed.

Lemma insort_sorted (x : Occurrence) (l : list Occurrence) :
  StronglySorted occ_le l -> StronglySorted occ_le (insort x l).
Proof.
  induction 1 as [|y l Hs IH Hall]; simpl.
  - repeat constructor.
  - destruct (occ_lt y x) eqn:E.
    + constructor; [exact IH|].
      rewrite (insort_perm x l). constructor; [|exact Hall].
      apply occ_le_total. exact E.
    + constructor; [constructor; assumption|].
      constructor; [exact E|].
      eapply Forall_impl; [exact Hall|].
      intros z Hz. eapply occ_le_trans; [exact E | exact Hz].
Qed.

Lemma sorted_sorted (l : list Occurrence) : StronglySorted occ_le (sorted l).
Proof.
  induction l as [|x l IH]; simpl; [constructor|].
  apply insort_sorted. exact IH.
Qed.

Lemma cached_hit (q : Period) (occs : list Occurrence) :
  attrs q !! "_occurrences"%string = Some occs ->
  cached_get_sorted_occurrences q = (occs, q).
Proof.
  intros H. unfold cached_get_sorted_occurrences. rewrite H. reflexivity.
Qed.

Lemma filter_sublist (f : Occurrence -> bool) (l : list Occurrence) :
  sublist (List.filter f l) l.
Proof.
  induction l as [|x l IH]; simpl; [constructor|].
  destruct (f x); constructor; exact IH.
Qed.

(** C7: on an instance that has not computed its occurrences yet,
    [cached_get_sorted_occurrences] returns, with a pool, exactly the pool
    elements passing [occ.start < end and occ.end > start], in pool order;
    without a pool, the occurrences every event returns for [(start, end)],
    put together and sorted by start, then end.  The value is stored, and
    every later call returns the stored value and changes nothing. *)
Theorem occurrences_spec (self : Period) :
  attrs self !! "_occurrences"%string = None ->
  exists (occs : list Occurrence) (self' : Period),
    cached_get_sorted_occurrences self = (occs, self')
    /\ (forall pool, occurrence_pool self = Some pool ->
          occs = List.filter
                   (fun o => dt_lt (Occ.start o) (end_ self)
                             && dt_lt (start self) (Occ.end_ o)) pool
          /\ sublist occs pool)
    /\ (occurrence_pool self = None ->
          Permutation occs
            (flat_map (fun e => get_occurrences e (start self) (end_ self))
                      (events self))
          /\ StronglySorted occ_le occs)
    /\ attrs self' !! "_occurrences"%string = Some occs
    /\ cached_get_sorted_occurrences self' = (occs, self')
    /\ (forall q, attrs q !! "_occurrences"%string = Some occs ->
          cached_get_sorted_occurrences q = (occs, q)).
Proof.
  intros Hnone. eexists _, _. split.
  { unfold cached_get_sorted_occurrences. rewrite Hnone. reflexivity. }
  assert (Hstored :
    attrs (setattr self "_occurrences" (_get_sorted_occurrences self))
      !! "_occurrences"%string = Some (_get_sorted_occurrences self)).
  { unfold setattr. simpl. apply lookup_insert_eq. }
  repeat split.
  - unfold _get_sorted_occurrences. rewrite H. reflexivity.
  - unfold _get_sorted_occurrences. rewrite H. apply filter_sublist.
  - unfold _get_sorted_occurrences. rewrite H. apply sorted_perm.
  - unfold _get_sorted_occurrences. rewrite H. apply sorted_sorted.
  - exact Hstored.
  - apply cached_hit. exact Hstored.
  - intros q Hq. apply cached_hit. exact Hq.
Qed.

Lemma occurrences_spec_witness :
  exists (occs : list Occurrence) (self' : Period),
    cached_get_sorted_occurrences january_2024_pool = (occs, self')
    /\ occs = [occ_spanning; occ_inside].
Proof.
  destruct (occurrences_spec january_2024_pool eq_refl)
    as (occs & self' & H1 & H2 & _).
  exists occs, self'. split; [exact H1|].
  destruct (H2 _ eq_refl) as [-> _]. reflexivity.
Defined.

(** ** Persisted occurrences *)

(** C8: the code does not memoize.  [get_persisted_occurrences] tests for
    the attribute [_persisted_occurrenes], which nothing sets, so every call
    asks the storage again: on a period that was given persisted occurrences
    by its parent, the first call returns what the storage holds and not the
    given value, and the second call is a second query. *)
Theorem get_persisted_occurrences_requeries :
  exists (p1 p2 : Period) (w1 w2 : World),
    attrs january_2024_persisted !! "_persisted_occurrences"%string
    = Some [occ_inside]
    /\ get_persisted_occurrences settings_storage january_2024_persisted world0
       = Ok ([occ_spanning], p1, w1)
    /\ storage_queries w1 = 1%nat
    /\ get_persisted_occurrences settings_storage p1 w1
       = Ok ([occ_spanning], p2, w2)
    /\ storage_queries w2 = 2%nat.
Proof.
  eexists _, _, _, _. split; [reflexivity|].
  split.
  { apply get_persisted_occurrences_miss. apply no_typo_init. }
  split; [reflexivity|]. split.
  { apply get_persisted_occurrences_miss.
    apply no_typo_setattr; [discriminate | apply no_typo_init]. }
  reflexivity.
Qed.

(** Every call on an instance of this module asks the storage. *)
Lemma get_persisted_occurrences_always_queries (st : Settings) (self : Period)
    (w : World) :
  no_typo_attr self ->
  exists (self' : Period) (w' : World),
    get_persisted_occurrences st self w
    = Ok (objects_filter st (events self), self', w')
    /\ storage_queries w' = S (storage_queries w)
    /\ no_typo_attr self'.
Proof.
  intros H. eexists _, _. split.
  - apply get_persisted_occurrences_miss. exact H.
  - split; [reflexivity|].
    apply no_typo_setattr; [discriminate | exact H].
Qed.

(** ** Periods whose start is not before their end *)

Lemma init_no_occurrences (c : option Variant) (ev : list Event)
    (s e : datetime) (pp pool : option (list Occurrence)) :
  attrs (Period__init__ c ev s e pp pool) !! "_occurrences"%string = None.
Proof.
  unfold Period__init__. simpl. destruct pp.
  - apply lookup_singleton_ne. discriminate.
  - apply lookup_empty.
Qed.

(** C9, as stated, fails: a period from 2024-02-01 back to 2024-01-01 keeps
    the pool occurrence that runs from December to March. *)
Lemma inverted_period_has_occurrences :
  dt_ge (start inverted_period) (end_ inverted_period) = true
  /\ fst (cached_get_sorted_occurrences inverted_period) = [occ_spanning]
  /\ fst (cached_get_sorted_occurrences inverted_period) <> [].
Proof. repeat split. discriminate. Qed.

(** C9, amended: [Period(events, start, end, ...)] with [start >= end] is
    built as it is given.  With a pool its occurrences are exactly the pool
    elements with [occ.start < end] and [occ.end > start]: each of them
    starts before the period's end and ends after the period's start, and
    there are none when no pool element does.  Without a pool they are what
    the events return for [(start, end)], sorted. *)
Theorem inverted_period_occurrences (ev : list Event) (s e : datetime)
    (pp pool : option (list Occurrence)) :
  dt_ge s e = true ->
  start (new_Period ev s e pp pool) = s
  /\ end_ (new_Period ev s e pp pool) = e
  /\ (forall pl, pool = Some pl ->
      forall o,
        In o (fst (cached_get_sorted_occurrences (new_Period ev s e pp pool)))
        <-> In o pl /\ dt_lt (Occ.start o) e = true
            /\ dt_lt s (Occ.end_ o) = true)
  /\ (forall pl, pool = Some pl ->
      forall o,
        In o (fst (cached_get_sorted_occurrences (new_Period ev s e pp pool)))
        -> dt_lt (Occ.start o) (Occ.end_ o) = true)
  /\ (forall pl, pool = Some pl ->
      (forall o, In o pl ->
                 dt_lt (Occ.start o) e && dt_lt s (Occ.end_ o) = false) ->
      fst (cached_get_sorted_occurrences (new_Period ev s e pp pool)) = [])
  /\ (pool = None ->
      fst (cached_get_sorted_occurrences (new_Period ev s e pp pool))
      = sorted (flat_map (fun event => get_occurrences event s e) ev)).
Proof.
  intros Hinv. unfold new_Period.
  assert (Hc : forall pool',
    fst (cached_get_sorted_occurrences (Period__init__ None ev s e pp pool'))
    = _get_sorted_occurrences (Period__init__ None ev s e pp pool')).
  { intros pool'. unfold cached_get_sorted_occurrences.
    rewrite init_no_occurrences. reflexivity. }
  rewrite Hc. unfold _get_sorted_occurrences. cbn [occurrence_pool start end_
    events Period__init__].
  split; [reflexivity|]. split; [reflexivity|].
  assert (Hin : forall pl o,
    In o (List.filter (fun occurrence =>
            dt_lt (Occ.start occurrence) e && dt_gt (Occ.end_ occurrence) s) pl)
    <-> In o pl /\ dt_lt (Occ.start o) e = true
        /\ dt_lt s (Occ.end_ o) = true).
  { intros pl o. rewrite filter_In, andb_true_iff. unfold dt_gt. tauto. }
  split; [|split; [|split]].
  - intros pl ->. apply Hin.
  - intros pl -> o Ho. apply Hin in Ho. destruct Ho as (_ & H1 & H2).
    unfold dt_ge in Hinv.
    eapply dt_lt_trans; [|exact H2].
    eapply dt_lt_le_trans; [exact H1 | exact Hinv].
  - intros pl -> Hall.
    destruct (List.filter _ pl) as [|o l] eqn:E; [reflexivity|exfalso].
    assert (Ho : In o (List.filter (fun occurrence =>
              dt_lt (Occ.start occurrence) e
              && dt_gt (Occ.end_ occurrence) s) pl))
      by (rewrite E; left; reflexivity).
    apply Hin in Ho. destruct Ho as (Hpl & H1 & H2).
    specialize (Hall o Hpl). rewrite H1, H2 in Hall. discriminate.
  - intros ->. reflexivity.
Qed.

Lemma inverted_period_occurrences_witness :
  dt_ge (at_midnight 2024 2 1) (at_midnight 2024 1 1) = true
  /\ start (new_Period [] (at_midnight 2024 2 1) (at_midnight 2024 1 1) None
              (Some [occ_inside])) = at_midnight 2024 2 1.
Proof.
  split; [reflexivity|].
  apply (inverted_period_occurrences [] (at_midnight 2024 2 1)
           (at_midnight 2024 1 1) None (Some [occ_inside]) eq_refl).
Defined.

(** ** Chains of ranges *)

Lemma chain_span (rs : list (datetime * datetime)) :
  contiguous rs -> well_ordered rs ->
  forall a b, head rs = Some a -> last rs = Some b ->
              dt_lt (fst a) (snd b) = true.
Proof.
  induction rs as [|r rs IH]; intros Hc Hw a b Ha Hb; [discriminate|].
  injection Ha as <-. inversion Hw as [|? ? Hr Hw']; subst.
  destruct rs as [|r' rest].
  - injection Hb as <-. exact Hr.
  - destruct Hc as [Hcr Hc'].
    change (last (r :: r' :: rest)) with (last (r' :: rest)) in Hb.
    specialize (IH Hc' Hw' r' b eq_refl Hb).
    rewrite <- Hcr in IH. eapply dt_lt_trans; eassumption.
Qed.

Lemma chain_cover (rs : list (datetime * datetime)) :
  contiguous rs -> well_ordered rs ->
  forall a b, head rs = Some a -> last rs = Some b ->
  forall t, within t (fst a, snd b) <-> exists r, In r rs /\ within t r.
Proof.
  induction rs as [|r rs IH]; intros Hc Hw a b Ha Hb t; [discriminate|].
  injection Ha as <-. inversion Hw as [|? ? Hr Hw']; subst.
  destruct rs as [|r' rest].
  - injection Hb as <-. split.
    + intros H. exists r. split; [left; reflexivity|]. destruct r; exact H.
    + intros (r0 & [<-|[]] & H). destruct r; exact H.
  - destruct Hc as [Hcr Hc'].
    change (last (r :: r' :: rest)) with (last (r' :: rest)) in Hb.
    specialize (IH Hc' Hw' r' b eq_refl Hb t).
    pose proof (chain_span _ Hc' Hw' r' b eq_refl Hb) as Hspan.
    unfold within in *. cbn [fst snd] in *. split.
    + intros [H1 H2]. destruct (dt_lt t (snd r)) eqn:E.
      * exists r. split; [left; reflexivity | split; assumption].
      * destruct IH as [IH _].
        destruct IH as (r0 & Hin & H0).
        { split; [|exact H2]. rewrite <- Hcr.
          rewrite dt_le_negb_lt, E. reflexivity. }
        exists r0. split; [right; exact Hin | exact H0].
    + intros (r0 & [<-|Hin] & H1 & H2).
      * split; [exact H1|]. rewrite Hcr in H2.
        eapply dt_lt_trans; eassumption.
      * destruct IH as [_ IH].
        destruct IH as [H3 H4]; [exists r0; auto|].
        split; [|exact H4]. rewrite <- Hcr in H3.
        apply dt_lt_le. eapply dt_lt_le_trans; eassumption.
Qed.

Lemma chain_sorted (rs : list (datetime * datetime)) :
  contiguous rs -> well_ordered rs -> StronglySorted before rs.
Proof.
  induction rs as [|r rs IH]; intros Hc Hw; [constructor|].
  inversion Hw as [|? ? Hr Hw']; subst.
  destruct rs as [|r' rest]; [repeat constructor|].
  destruct Hc as [Hcr Hc'].
  specialize (IH Hc' Hw').
  constructor; [exact IH|].
  inversion IH as [|? ? _ Hall]; subst.
  inversion Hw' as [|? ? Hr' _]; subst.
  constructor.
  - unfold before. rewrite Hcr. apply dt_le_refl.
  - eapply Forall_impl; [exact Hall|].
    intros x Hx. unfold before in *. rewrite Hcr.
    eapply dt_le_trans; [|exact Hx]. apply dt_lt_le. exact Hr'.
Qed.

Lemma partition_cover (parent : datetime * datetime)
    (rs : list (datetime * datetime)) :
  partition_of parent rs ->
  (forall t, within t parent <-> exists r, In r rs /\ within t r)
  /\ StronglySorted before rs.
Proof.
  intros ((a & Ha & Hfa) & (b & Hb & Hsb) & Hc & Hw). split.
  - intros t. rewrite <- (chain_cover rs Hc Hw a b Ha Hb t).
    rewrite Hfa, Hsb. destruct parent; reflexivity.
  - apply chain_sorted; assumption.
Qed.

Lemma chain_over_cover (parent : datetime * datetime)
    (rs : list (datetime * datetime)) :
  chain_over parent rs ->
  (forall t, within t parent -> exists r, In r rs /\ within t r)
  /\ StronglySorted before rs.
Proof.
  intros ((a & Ha & Ha1 & Ha2) & (b & Hb & Hb1 & Hb2) & Hc & Hw). split.
  - intros t [H1 H2]. apply (chain_cover rs Hc Hw a b Ha Hb t).
    split; cbn [fst snd].
    + eapply dt_le_trans; eassumption.
    + eapply dt_lt_le_trans; eassumption.
  - apply chain_sorted; assumption.
Qed.

(** *** Ranges of a fixed number of days *)

Lemma step_ranges_length (len a : Z) (k : nat) :
  length (step_ranges len a k) = k.
Proof. revert a. induction k; intros a; simpl; auto. Qed.

Lemma step_ranges_head (len a : Z) (k : nat) :
  head (step_ranges len a (S k)) = Some (day_at a, day_at (a + len)).
Proof. reflexivity. Qed.

Lemma step_ranges_last (len a : Z) (k : nat) :
  last (step_ranges len a (S k))
  = Some (day_at (a + len * Z.of_nat k), day_at (a + len * Z.of_nat (S k))).
Proof.
  revert a. induction k as [|k IH]; intros a.
  - change (Z.of_nat 0) with 0. change (Z.of_nat 1) with 1.
    rewrite Z.mul_0_r, Z.add_0_r, Z.mul_1_r. reflexivity.
  - change (step_ranges len a (S (S k)))
      with ((day_at a, day_at (a + len)) :: step_ranges len (a + len) (S k)).
    change (last (?x :: step_ranges len (a + len) (S k)))
      with (last (step_ranges len (a + len) (S k))).
    rewrite IH, !Nat2Z.inj_succ. do 3 f_equal; ring.
Qed.

Lemma step_ranges_contiguous (len a : Z) (k : nat) :
  contiguous (step_ranges len a k).
Proof.
  revert a. induction k as [|k IH]; intros a; [exact I|].
  destruct k as [|k]; [exact I|].
  split; [reflexivity | apply IH].
Qed.

Lemma step_ranges_well_ordered (len a : Z) (k : nat) :
  0 < len -> 1 <= a -> well_ordered (step_ranges len a k).
Proof.
  intros Hlen. revert a. induction k as [|k IH]; intros a Ha; [constructor|].
  constructor; [|apply IH; lia]. cbn [fst snd].
  rewrite dt_lt_day_at by lia. apply Z.ltb_lt. lia.
Qed.

(** *** Months *)

Lemma valid_first_of (y m : Z) :
  1 <= y <= MAXYEAR -> 1 <= m <= 12 -> valid (first_of y m).
Proof.
  intros Hy Hm. apply valid_intro; [apply date_ok_first|]; lia.
Qed.

Lemma month_end_ord (y m : Z) :
  1 <= y -> 1 <= m <= 12 ->
  (if m =? 12 then _ymd2ord (y + 1) 1 1 else _ymd2ord y (m + 1) 1)
  = _ymd2ord y m 1 + _days_in_month y m.
Proof.
  intros Hy Hm. unfold _ymd2ord. destruct (Z.eqb_spec m 12) as [->|Hne].
  - rewrite dby_succ. pose proof (dbm_last y).
    change (_days_in_month y 12) with 31.
    change (_days_before_month (y + 1) 1) with 0.
    lia.
  - rewrite dbm_succ by lia. lia.
Qed.

Lemma month_range_ord (y m : Z) :
  1 <= y -> 1 <= m <= 12 ->
  month_range y m
  = (day_at (_ymd2ord y m 1),
     day_at (_ymd2ord y m 1 + _days_in_month y m)).
Proof.
  intros Hy Hm. unfold month_range.
  rewrite <- month_end_ord by assumption.
  rewrite (first_of_day_at y m) by assumption.
  destruct (Z.eqb_spec m 12).
  - rewrite first_of_day_at by lia. reflexivity.
  - rewrite first_of_day_at by lia. reflexivity.
Qed.

Lemma month_end_bound (y m : Z) :
  1 <= y <= MAXYEAR -> 1 <= m <= 12 -> ~ (y = MAXYEAR /\ m = 12) ->
  _ymd2ord y m 1 + _days_in_month y m <= _MAXORDINAL - 30.
Proof.
  intros Hy Hm Hno. unfold MAXYEAR in *.
  rewrite <- month_end_ord by lia.
  change (_MAXORDINAL - 30) with (_ymd2ord 9999 12 1).
  assert (Hlast : date_ok 9999 12 1) by (apply date_ok_first; lia).
  destruct (Z.eqb_spec m 12) as [->|Hne].
  - destruct (Z.eq_dec (y + 1) 9999) as [->|Hy'].
    + apply Z.lt_le_incl. apply ymd2ord_lt_month; auto; try lia.
      apply date_ok_first; lia.
    + apply Z.lt_le_incl. apply ymd2ord_lt_year; auto; try lia.
      apply date_ok_first; lia.
  - destruct (Z.eq_dec y 9999) as [->|Hy'].
    + destruct (Z.eq_dec (m + 1) 12) as [->|Hm']; [lia|].
      apply Z.lt_le_incl. apply ymd2ord_lt_month; auto; try lia.
      apply date_ok_first; lia.
    + apply Z.lt_le_incl. apply ymd2ord_lt_year; auto; try lia.
      apply date_ok_first; lia.
Qed.

Lemma month_range_first_of (st : Settings) (y m : Z) :
  1 <= y <= MAXYEAR -> 1 <= m <= 12 -> ~ (y = MAXYEAR /\ m = 12) ->
  variant_range st KMonth (first_of y m) = Ok (month_range y m).
Proof.
  intros Hy Hm Hno. cbn [variant_range].
  rewrite get_month_range_ok; [reflexivity | apply valid_first_of; lia|].
  exact Hno.
Qed.

Lemma dt_lt_first_of_year (y m : Z) :
  1 <= y -> 1 <= m <= 12 ->
  dt_lt (first_of y m) (first_of (y + 1) 1) = true.
Proof.
  intros Hy Hm. rewrite !first_of_day_at by lia.
  assert (_ymd2ord y m 1 < _ymd2ord (y + 1) 1 1)
    by (apply ymd2ord_lt_year; try apply date_ok_first; lia).
  pose proof (ymd2ord_pos y m 1 ltac:(apply date_ok_first; lia)).
  rewrite dt_lt_day_at by lia. apply Z.ltb_lt. assumption.
Qed.

Lemma dt_lt_month_range (y m : Z) :
  1 <= y -> 1 <= m <= 12 ->
  dt_lt (fst (month_range y m)) (snd (month_range y m)) = true.
Proof.
  intros Hy Hm. rewrite month_range_ord by assumption. cbn [fst snd].
  pose proof (ymd2ord_pos y m 1 ltac:(apply date_ok_first; lia)).
  pose proof (dim_bounds y m Hm).
  rewrite dt_lt_day_at by lia. apply Z.ltb_lt. lia.
Qed.

Lemma ranges_loop_months (st : Settings) (y : Z) :
  1 <= y -> y + 1 <= MAXYEAR ->
  forall (k fuel : nat) (m : Z),
    m = 12 - Z.of_nat k -> 1 <= m -> (S k < fuel)%nat ->
    ranges_loop st KMonth fuel (month_range y m) (first_of (y + 1) 1)
    = Some (Ok (month_ranges y m (S k))).
Proof.
  intros Hy Hmax. induction k as [|k IH]; intros fuel m Hm H1 Hfuel.
  - assert (Hm12 : m = 12) by lia. clear Hm H1. subst m.
    destruct fuel as [|[|fuel]]; try lia.
    cbn [ranges_loop sub_range month_range fst snd Z.eqb Pos.eqb].
    change (_get_month_range ?d) with (variant_range st KMonth d).
    rewrite dt_lt_first_of_year by lia.
    rewrite (month_range_first_of st y 12) by lia.
    rewrite (month_range_first_of st (y + 1) 1) by lia.
    cbn [month_range fst snd]. rewrite dt_lt_irrefl. reflexivity.
  - destruct fuel as [|fuel]; [lia|].
    assert (Hne : m <> 12) by lia.
    cbn [ranges_loop sub_range].
    change (_get_month_range ?d) with (variant_range st KMonth d).
    unfold month_range at 1 2 3. cbn [fst snd].
    destruct (Z.eqb_spec m 12); [contradiction|].
    rewrite dt_lt_first_of_year by lia.
    rewrite (month_range_first_of st y m) by lia.
    rewrite (month_range_first_of st y (m + 1)) by lia.
    rewrite (IH fuel (m + 1)) by lia.
    reflexivity.
Qed.

Lemma month_ranges_length (y m : Z) (k : nat) :
  length (month_ranges y m k) = k.
Proof. revert m. induction k; intros m; simpl; auto. Qed.

Lemma month_ranges_last (y m : Z) (k : nat) :
  last (month_ranges y m (S k)) = Some (month_range y (m + Z.of_nat k)).
Proof.
  revert m. induction k as [|k IH]; intros m.
  - change (Z.of_nat 0) with 0. rewrite Z.add_0_r. reflexivity.
  - change (month_ranges y m (S (S k)))
      with (month_range y m :: month_ranges y (m + 1) (S k)).
    change (last (?x :: month_ranges y (m + 1) (S k)))
      with (last (month_ranges y (m + 1) (S k))).
    rewrite IH, Nat2Z.inj_succ. do 2 f_equal. ring.
Qed.

Lemma month_ranges_contiguous (y m : Z) (k : nat) :
  m + Z.of_nat k <= 13 -> contiguous (month_ranges y m k).
Proof.
  revert m. induction k as [|k IH]; intros m Hk; [exact I|].
  destruct k as [|k]; [exact I|].
  split; [|apply IH; lia].
  unfold month_range. cbn [fst snd].
  destruct (Z.eqb_spec m 12); [lia | reflexivity].
Qed.

Lemma month_ranges_well_ordered (y m : Z) (k : nat) :
  1 <= y -> 1 <= m -> m + Z.of_nat k <= 13 ->
  well_ordered (month_ranges y m k).
Proof.
  intros Hy. revert m. induction k as [|k IH]; intros m Hm Hk; [constructor|].
  constructor; [|apply IH; lia]. apply dt_lt_month_range; lia.
Qed.

(** ** Constructors *)

Lemma Year_inv (ev : list Event) (date : datetime)
    (pp : option (list Occurrence)) (parent : Period) :
  valid date -> Year ev date pp = Ok parent ->
  year date < MAXYEAR
  /\ parent = Period__init__ (Some KYear) ev (first_of (year date) 1)
                (first_of (year date + 1) 1) pp None.
Proof.
  intros Hv H. destruct (valid_inv date Hv) as (_ & Hmax & _).
  unfold Year in H.
  destruct (Z.eq_dec (year date) MAXYEAR) as [E|E].
  - rewrite get_year_range_overflow in H by assumption. discriminate.
  - rewrite get_year_range_ok in H by (try assumption; lia).
    injection H as <-. split; [lia | reflexivity].
Qed.

Lemma Month_inv (ev : list Event) (date : datetime)
    (pp pool : option (list Occurrence)) (parent : Period) :
  valid date -> Month ev date pp pool = Ok parent ->
  ~ (year date = MAXYEAR /\ month date = 12)
  /\ parent = Period__init__ (Some KMonth) ev
                (fst (month_range (year date) (month date)))
                (snd (month_range (year date) (month date))) pp pool.
Proof.
  intros Hv H. unfold Month in H.
  destruct (Z.eq_dec (year date) MAXYEAR) as [E1|E1];
    [destruct (Z.eq_dec (month date) 12) as [E2|E2]|].
  - rewrite get_month_range_overflow in H by assumption. discriminate.
  - rewrite get_month_range_ok in H by (try assumption; tauto).
    injection H as <-. split; [tauto | reflexivity].
  - rewrite get_month_range_ok in H by (try assumption; tauto).
    injection H as <-. split; [tauto | reflexivity].
Qed.

Lemma Week_inv (st : Settings) (ev : list Event) (date : datetime)
    (pp pool : option (list Occurrence)) (parent : Period) :
  valid date -> Week st ev date pp pool = Ok parent ->
  1 <= toordinal date - week_offset st (toordinal date)
  /\ toordinal date - week_offset st (toordinal date) + 7 <= _MAXORDINAL
  /\ parent = Period__init__ (Some KWeek) ev
                (day_at (toordinal date - week_offset st (toordinal date)))
                (day_at (toordinal date - week_offset st (toordinal date) + 7))
                pp pool.
Proof.
  intros Hv H. unfold Week in H.
  destruct (Z.le_gt_cases 1 (toordinal date - week_offset st (toordinal date)));
    [destruct (Z.le_gt_cases
                 (toordinal date - week_offset st (toordinal date) + 7)
                 _MAXORDINAL)|].
  - rewrite get_week_range_ok in H by assumption.
    injection H as <-. repeat split; assumption.
  - rewrite get_week_range_overflow in H by (try assumption; lia).
    discriminate.
  - rewrite get_week_range_overflow in H by (try assumption; lia).
    discriminate.
Qed.

Lemma Day_inv (ev : list Event) (date : datetime)
    (pp pool : option (list Occurrence)) (parent : Period) :
  valid date -> Day ev date pp pool = Ok parent ->
  toordinal date + 1 <= _MAXORDINAL
  /\ parent = Period__init__ (Some KDay) ev (day_at (toordinal date))
                (day_at (toordinal date + 1)) pp pool.
Proof.
  intros Hv H. unfold Day in H. pose proof (toordinal_range date Hv).
  destruct (Z.eq_dec (toordinal date) _MAXORDINAL) as [E|E].
  - rewrite get_day_range_overflow in H by assumption. discriminate.
  - rewrite get_day_range_ok in H by (try assumption; lia).
    injection H as <-. split; [lia | reflexivity].
Qed.

Lemma Day_ok (ev : list Event) (date : datetime)
    (pp pool : option (list Occurrence)) :
  valid date -> toordinal date + 1 <= _MAXORDINAL ->
  Day ev date pp pool
  = Ok (Period__init__ (Some KDay) ev (day_at (toordinal date))
          (day_at (toordinal date + 1)) pp pool).
Proof.
  intros Hv H. unfold Day. rewrite get_day_range_ok by assumption.
  reflexivity.
Qed.

(** ** The four decompositions *)

Lemma splits_exactly_intro (parent : datetime * datetime)
    (rs : list (datetime * datetime)) :
  partition_of parent rs -> splits_exactly parent rs.
Proof.
  intros H. split; [exact H|]. apply partition_cover. exact H.
Qed.

Lemma reaches_over_intro (parent : datetime * datetime)
    (rs : list (datetime * datetime)) :
  chain_over parent rs -> reaches_over parent rs.
Proof.
  intros H. split; [exact H|]. apply chain_over_cover. exact H.
Qed.

Lemma yields_intro (st : Settings) (c : Variant) (fuel : nat)
    (parent : Period) (w : World) (P : list (datetime * datetime) -> Prop)
    (r0 : datetime * datetime) (rs : list (datetime * datetime)) :
  no_typo_attr parent ->
  sub_range st c (start parent) = Ok r0 ->
  ranges_loop st c fuel r0 (end_ parent) = Some (Ok rs) ->
  P rs ->
  yields st c fuel parent w P.
Proof.
  intros Hinv H0 Hloop HP.
  pose proof (get_periods_ranges st c fuel parent w Hinv) as H.
  rewrite H0, Hloop in H.
  destruct H as (l & self' & w' & H1 & H2 & H3 & _).
  exists l, self', w'. rewrite H2. auto.
Qed.

Lemma year_months (st : Settings) (ev : list Event) (date : datetime)
    (pp : option (list Occurrence)) (parent : Period) (w : World)
    (fuel : nat) :
  valid date -> (13 < fuel)%nat -> Year ev date pp = Ok parent ->
  yields st KMonth fuel parent w
    (fun rs => length rs = 12%nat /\ splits_exactly (range parent) rs).
Proof.
  intros Hv Hfuel H. destruct (Year_inv _ _ _ _ Hv H) as (Hy & ->).
  destruct (valid_inv date Hv) as ((Hy1 & _) & _).
  set (y := year date) in *.
  apply (yields_intro _ _ _ _ _ _ (month_range y 1) (month_ranges y 1 12)).
  - apply no_typo_init.
  - apply (month_range_first_of st); unfold MAXYEAR in *; lia.
  - apply (ranges_loop_months st y Hy1 ltac:(lia) 11); lia.
  - split; [apply month_ranges_length|]. apply splits_exactly_intro.
    unfold MAXYEAR in *. split; [|split; [|split]].
    + exists (month_range y 1). split; reflexivity.
    + exists (month_range y 12). split; [|reflexivity].
      apply (month_ranges_last y 1 11).
    + apply month_ranges_contiguous. lia.
    + apply month_ranges_well_ordered; lia.
Qed.

Lemma month_days (st : Settings) (ev : list Event) (date : datetime)
    (pp pool : option (list Occurrence)) (parent : Period) (w : World)
    (fuel : nat) :
  valid date -> (31 < fuel)%nat -> Month ev date pp pool = Ok parent ->
  yields st KDay fuel parent w
    (fun rs => Z.of_nat (length rs) = _days_in_month (year date) (month date)
               /\ splits_exactly (range parent) rs).
Proof.
  intros Hv Hfuel H. destruct (Month_inv _ _ _ _ _ Hv H) as (Hno & ->).
  destruct (valid_inv date Hv) as ((Hy1 & Hm & _) & Hmax & _).
  set (y := year date) in *. set (m := month date) in *.
  pose proof (dim_bounds y m Hm) as Hdim.
  pose proof (month_end_bound y m ltac:(lia) Hm Hno) as Hend.
  pose proof (ymd2ord_pos y m 1 ltac:(apply date_ok_first; lia)) as Hpos.
  unfold range. cbn [start end_ Period__init__].
  rewrite month_range_ord by assumption. cbn [fst snd].
  set (o := _ymd2ord y m 1) in *.
  destruct (Z.to_nat (_days_in_month y m)) as [|k] eqn:Ek; [lia|].
  apply (yields_intro _ _ _ _ _ _ (day_at o, day_at (o + 1))
           (step_ranges 1 o (S k))).
  - apply no_typo_init.
  - cbn [start Period__init__]. apply (day_range_day_at st); auto; lia.
  - cbn [end_ Period__init__]. apply ranges_loop_days; lia.
  - split; [rewrite step_ranges_length; lia|].
    apply splits_exactly_intro. split; [|split; [|split]].
    + eexists. split; [apply step_ranges_head | reflexivity].
    + eexists. split; [apply step_ranges_last|]. cbn [snd].
      f_equal; lia.
    + apply step_ranges_contiguous.
    + apply step_ranges_well_ordered; lia.
Qed.

Lemma week_start_aligned (st : Settings) (n : Z) :
  week_offset st (n - week_offset st n) = 0.
Proof. unfold week_offset. destruct (_ =? _); lia. Qed.

Lemma week_end_not_last (st : Settings) (s : Z) :
  week_offset st s = 0 -> s + 7 <= _MAXORDINAL -> s + 8 <= _MAXORDINAL.
Proof. unfold week_offset, _MAXORDINAL. destruct (_ =? _); lia. Qed.

Lemma week_days (st : Settings) (ev : list Event) (date : datetime)
    (pp pool : option (list Occurrence)) (parent : Period) (w : World)
    (fuel : nat) :
  valid date -> (7 < fuel)%nat -> Week st ev date pp pool = Ok parent ->
  yields st KDay fuel parent w
    (fun rs => length rs = 7%nat /\ splits_exactly (range parent) rs).
Proof.
  intros Hv Hfuel H.
  destruct (Week_inv _ _ _ _ _ _ Hv H) as (Hlo & Hhi & ->).
  pose proof (week_start_aligned st (toordinal date)) as Hal.
  set (s := toordinal date - week_offset st (toordinal date)) in *.
  pose proof (week_end_not_last st s Hal Hhi) as Hhi'.
  unfold range. cbn [start end_ Period__init__].
  apply (yields_intro _ _ _ _ _ _ (day_at s, day_at (s + 1))
           (step_ranges 1 s 7)).
  - apply no_typo_init.
  - cbn [start Period__init__]. apply (day_range_day_at st); auto; lia.
  - cbn [end_ Period__init__]. apply ranges_loop_days; lia.
  - split; [apply step_ranges_length|].
    apply splits_exactly_intro. split; [|split; [|split]].
    + eexists. split; [apply step_ranges_head | reflexivity].
    + eexists. split; [apply (step_ranges_last 1 s 6)|]. cbn [snd].
      f_equal; lia.
    + apply step_ranges_contiguous.
    + apply step_ranges_well_ordered; lia.
Qed.

Lemma month_weeks (st : Settings) (ev : list Event) (date : datetime)
    (pp pool : option (list Occurrence)) (parent : Period) (w : World)
    (fuel : nat) :
  valid date -> (6 < fuel)%nat -> Month ev date pp pool = Ok parent ->
  1 <= toordinal (start parent) - week_offset st (toordinal (start parent)) ->
  yields st KWeek fuel parent w
    (fun rs => (4 <= length rs <= 6)%nat /\ reaches_over (range parent) rs).
Proof.
  intros Hv Hfuel H. destruct (Month_inv _ _ _ _ _ Hv H) as (Hno & ->).
  destruct (valid_inv date Hv) as ((Hy1 & Hm & _) & Hmax & _).
  set (y := year date) in *. set (m := month date) in *.
  pose proof (dim_bounds y m Hm) as Hdim.
  pose proof (month_end_bound y m ltac:(lia) Hm Hno) as Hend.
  pose proof (ymd2ord_pos y m 1 ltac:(apply date_ok_first; lia)) as Hpos.
  unfold range. cbn [start end_ Period__init__].
  rewrite month_range_ord by assumption. cbn [fst snd].
  set (o := _ymd2ord y m 1) in *.
  rewrite toordinal_day_at by assumption. intros Hlo.
  pose proof (week_start_aligned st o) as Hal.
  pose proof (week_offset_range st o) as Hoff.
  set (a := o - week_offset st o) in *.
  set (b := o + _days_in_month y m) in *.
  unfold _MAXORDINAL in *.
  destruct (Z.to_nat ((b - a + 6) / 7)) as [|k] eqn:Ek; [lia|].
  apply (yields_intro _ _ _ _ _ _ (day_at a, day_at (a + 7))
           (step_ranges 7 a (S k))).
  - apply no_typo_init.
  - cbn [start Period__init__ sub_range].
    rewrite get_week_range_ok; rewrite ?toordinal_day_at by assumption;
      [reflexivity | apply valid_day_at; unfold _MAXORDINAL; lia
       | exact Hlo | unfold _MAXORDINAL; fold a; lia].
  - cbn [end_ Period__init__].
    apply ranges_loop_weeks; unfold _MAXORDINAL; lia.
  - split; [rewrite step_ranges_length; lia|].
    apply reaches_over_intro. split; [|split; [|split]].
    + eexists. split; [apply step_ranges_head|]. cbn [fst snd].
      rewrite dt_le_day_at, dt_lt_day_at by lia.
      split; [apply Z.leb_le | apply Z.ltb_lt]; lia.
    + eexists. split; [apply step_ranges_last|]. cbn [fst snd].
      rewrite dt_le_day_at, dt_lt_day_at by lia.
      split; [apply Z.ltb_lt | apply Z.leb_le]; lia.
    + apply step_ranges_contiguous.
    + apply step_ranges_well_ordered; lia.
Qed.

(** ** Sub-periods of a parent *)

(** C3, as stated, fails for Month into Weeks: with weeks starting on Monday
    the weeks of February 2024 start on 2024-01-29, before the month, and end
    on 2024-03-04, after it. *)
Lemma month_weeks_overhang :
  exists (l : list Period) (self' : Period) (w' : World),
    Month [] (mk_datetime 2024 2 15 0 0 0 0) None None = Ok february_2024
    /\ get_weeks settings_monday 10 february_2024 world0
       = Some (Ok (l, self', w'))
    /\ head (map range l) = Some (at_midnight 2024 1 29, at_midnight 2024 2 5)
    /\ last (map range l) = Some (at_midnight 2024 2 26, at_midnight 2024 3 4)
    /\ ~ partition_of (range february_2024) (map range l).
Proof.
  eexists _, _, _. split; [vm_compute; reflexivity|].
  split; [vm_compute; reflexivity|].
  split; [vm_compute; reflexivity|].
  split; [vm_compute; reflexivity|].
  intros ((r & Hhead & Hfst) & _).
  vm_compute in Hhead. injection Hhead as <-. discriminate Hfst.
Qed.

(** C3, amended: for a parent built by its constructor at the default
    [tzinfo], from a date of the module's zone, [get_periods] run to the end
    yields 12 months of a year, the days of a month, and the 7
    days of a week; in each case the children are contiguous, the first
    starts where the parent starts, the last ends where the parent ends, and
    every instant of the parent lies in one child and in no range outside
    the parent.  The weeks of a month (4 to 6 of them) are contiguous too and
    every instant of the month lies in one of them, but the first week
    starts on the week's first day on or before the month's start and the
    last one ends on or after the month's end. *)
Theorem get_periods_decompositions (st : Settings) (ev : list Event)
    (date : datetime) (pp pool : option (list Occurrence)) (w : World)
    (fuel : nat) :
  valid date -> (31 < fuel)%nat ->
  (forall parent, Year ev date pp = Ok parent ->
     yields st KMonth fuel parent w
       (fun rs => length rs = 12%nat /\ splits_exactly (range parent) rs))
  /\ (forall parent, Month ev date pp pool = Ok parent ->
        yields st KDay fuel parent w
          (fun rs =>
             Z.of_nat (length rs) = _days_in_month (year date) (month date)
             /\ splits_exactly (range parent) rs))
  /\ (forall parent, Week st ev date pp pool = Ok parent ->
        yields st KDay fuel parent w
          (fun rs => length rs = 7%nat /\ splits_exactly (range parent) rs))
  /\ (forall parent, Month ev date pp pool = Ok parent ->
        1 <= toordinal (start parent)
             - week_offset st (toordinal (start parent)) ->
        yields st KWeek fuel parent w
          (fun rs => (4 <= length rs <= 6)%nat
                     /\ reaches_over (range parent) rs)).
Proof.
  intros Hv Hfuel. split; [|split; [|split]].
  - intros parent H. eapply year_months; eauto. lia.
  - intros parent H. eapply month_days; eauto.
  - intros parent H. eapply week_days; eauto. lia.
  - intros parent H Hlo. eapply month_weeks; eauto. lia.
Qed.

Lemma get_periods_decompositions_witness :
  valid (mk_datetime 2024 2 15 0 0 0 0) /\ (31 < 40)%nat
  /\ Month [] (mk_datetime 2024 2 15 0 0 0 0) None None = Ok february_2024
  /\ yields settings_monday KDay 40 february_2024 world0
       (fun rs => Z.of_nat (length rs) = 29
                  /\ splits_exactly (range february_2024) rs).
Proof.
  assert (Hv : valid (mk_datetime 2024 2 15 0 0 0 0)) by reflexivity.
  assert (Hm : Month [] (mk_datetime 2024 2 15 0 0 0 0) None None
               = Ok february_2024) by (vm_compute; reflexivity).
  split; [exact Hv|]. split; [lia|]. split; [exact Hm|].
  destruct (get_periods_decompositions settings_monday []
              (mk_datetime 2024 2 15 0 0 0 0) None None world0 40 Hv
              ltac:(lia)) as (_ & H & _).
  exact (H february_2024 Hm).
Defined.

(** ** Month *)

Lemma Month_ok (ev : list Event) (date : datetime)
    (pp pool : option (list Occurrence)) :
  valid date -> ~ (year date = MAXYEAR /\ month date = 12) ->
  Month ev date pp pool
  = Ok (Period__init__ (Some KMonth) ev
          (fst (month_range (year date) (month date)))
          (snd (month_range (year date) (month date))) pp pool).
Proof.
  intros Hv Hno. unfold Month. rewrite get_month_range_ok by assumption.
  reflexivity.
Qed.

(** C4, as stated, fails in December 9999: the following January is outside
    the range of [datetime], and the constructor raises [ValueError]. *)
Lemma month_december_9999 :
  valid (mk_datetime 9999 12 15 0 0 0 0)
  /\ Month [] (mk_datetime 9999 12 15 0 0 0 0) None None = Raise ValueError.
Proof. split; vm_compute; reflexivity. Qed.

(** C4, amended: for every reference date of the module's zone before
    December 9999, [Month] at the default [tzinfo] builds a period that starts at midnight on the 1st of the date's month
    and ends at midnight on the 1st of the following month, December rolling
    over to January of the next year; its [get_days] yields as many [Day]
    periods as the month has days, and [next_month] (defined unless the
    month is November 9999) starts where the month ends.  For instance the
    month of 2024-02-15: from 2024-02-01 to 2024-03-01, 29 days, next month
    starting 2024-03-01. *)
Theorem month_anchor (st : Settings) (ev : list Event) (date : datetime)
    (pp pool : option (list Occurrence)) (w : World) (fuel : nat) :
  valid date -> ~ (year date = MAXYEAR /\ month date = 12) ->
  (31 < fuel)%nat ->
  exists m : Period,
    Month ev date pp pool = Ok m
    /\ start m = mk_datetime (year date) (month date) 1 0 0 0 0
    /\ end_ m = (if month date =? 12
                 then mk_datetime (year date + 1) 1 1 0 0 0 0
                 else mk_datetime (year date) (month date + 1) 1 0 0 0 0)
    /\ (exists (l : list Period) (self' : Period) (w' : World),
          get_days st fuel m w = Some (Ok (l, self', w'))
          /\ Forall (fun d => cls d = Some KDay) l
          /\ Z.of_nat (length l) = _days_in_month (year date) (month date))
    /\ (~ (year date = MAXYEAR /\ month date = 11) ->
        exists n : Period, next_month m = Ok n /\ start n = end_ m).
Proof.
  intros Hv Hno Hfuel.
  pose proof (Month_ok ev date pp pool Hv Hno) as Hm.
  eexists. split; [exact Hm|].
  split; [reflexivity|]. split; [reflexivity|]. split.
  - destruct (month_days st ev date pp pool _ w fuel Hv Hfuel Hm)
      as (l & self' & w' & H1 & H2 & H3 & _).
    exists l, self', w'. rewrite length_map in H3. auto.
  - intros Hno'. unfold next_month.
    cbn [events end_ start Period__init__].
    destruct (valid_inv date Hv) as ((Hy & Hmo & _) & Hmax & _).
    unfold month_range. cbn [fst snd].
    destruct (Z.eqb_spec (month date) 12) as [E|E].
    + rewrite Month_ok.
      * eexists. split; reflexivity.
      * apply valid_first_of; unfold MAXYEAR in *; lia.
      * cbn [year month first_of]. lia.
    + rewrite Month_ok.
      * eexists. split; reflexivity.
      * apply valid_first_of; unfold MAXYEAR in *; lia.
      * cbn [year month first_of]. lia.
Qed.

Lemma month_anchor_witness :
  exists m : Period,
    Month [] (mk_datetime 2024 2 15 0 0 0 0) None None = Ok m
    /\ start m = mk_datetime 2024 2 1 0 0 0 0
    /\ end_ m = mk_datetime 2024 3 1 0 0 0 0
    /\ (exists (l : list Period) (self' : Period) (w' : World),
          get_days settings_monday 40 m world0 = Some (Ok (l, self', w'))
          /\ Forall (fun d => cls d = Some KDay) l
          /\ Z.of_nat (length l) = 29)
    /\ (exists n : Period,
          next_month m = Ok n /\ start n = mk_datetime 2024 3 1 0 0 0 0).
Proof.
  destruct (month_anchor settings_monday [] (mk_datetime 2024 2 15 0 0 0 0)
              None None world0 40 eq_refl
              ltac:(intros [H _]; discriminate H) ltac:(lia))
    as (m & H1 & H2 & H3 & H4 & H5).
  exists m. split; [exact H1|]. split; [exact H2|]. split; [exact H3|].
  split; [exact H4|].
  destruct H5 as (n & H6 & H7); [intros [H _]; discriminate H|].
  exists n. split; [exact H6|]. rewrite H7. exact H3.
Defined.

(** ** Week *)

Lemma Week_ok (st : Settings) (ev : list Event) (date : datetime)
    (pp pool : option (list Occurrence)) :
  valid date ->
  1 <= toordinal date - week_offset st (toordinal date) ->
  toordinal date - week_offset st (toordinal date) + 7 <= _MAXORDINAL ->
  Week st ev date pp pool
  = Ok (Period__init__ (Some KWeek) ev
          (day_at (toordinal date - week_offset st (toordinal date)))
          (day_at (toordinal date - week_offset st (toordinal date) + 7))
          pp pool).
Proof.
  intros Hv Hlo Hhi. unfold Week. rewrite get_week_range_ok by assumption.
  reflexivity.
Qed.

(** C5, as stated, fails at the end of the calendar: the week of 9999-12-31
    would end in year 10000, and the constructor raises [OverflowError]. *)
Lemma week_of_last_day :
  valid (mk_datetime 9999 12 31 0 0 0 0)
  /\ Week settings_monday [] (mk_datetime 9999 12 31 0 0 0 0) None None
     = Raise OverflowError.
Proof. split; vm_compute; reflexivity. Qed.

(** C5, amended: for every reference date whose week lies within the range
    of [datetime] (the week's first day is not before 0001-01-01 and the day
    7 days later is not after 9999-12-31), [Week] builds a period that
    starts at midnight of the configured first day of the week on or before
    the date, at most 6 days before it, and ends exactly 7 days later: the
    start's isoweekday is 1 when [FIRST_DAY_OF_WEEK] is 1 (Monday) and 7
    otherwise (Sunday), and a date that already falls on that weekday keeps
    its own day.  For instance the week of Thursday 2024-02-15 with weeks
    starting on Monday: from 2024-02-12 to 2024-02-19. *)
Theorem week_anchor (st : Settings) (ev : list Event) (date : datetime)
    (pp pool : option (list Occurrence)) :
  valid date ->
  1 <= toordinal date - week_offset st (toordinal date) ->
  toordinal date - week_offset st (toordinal date) + 7 <= _MAXORDINAL ->
  exists wk : Period,
    Week st ev date pp pool = Ok wk
    /\ valid (start wk) /\ is_midnight (start wk)
    /\ isoweekday (start wk) = (if FIRST_DAY_OF_WEEK st =? 1 then 1 else 7)
    /\ toordinal date - 6 <= toordinal (start wk) <= toordinal date
    /\ dt_le (start wk) (combine_midnight date) = true
    /\ add_days (start wk) 7 = Ok (end_ wk)
    /\ toordinal (end_ wk) = toordinal (start wk) + 7
    /\ (isoweekday date = (if FIRST_DAY_OF_WEEK st =? 1 then 1 else 7) ->
        start wk = combine_midnight date).
Proof.
  intros Hv Hlo Hhi.
  pose proof (Week_ok st ev date pp pool Hv Hlo Hhi) as Hw.
  pose proof (toordinal_range date Hv) as Hr.
  pose proof (week_offset_range st (toordinal date)) as Hoff.
  pose proof (week_start_aligned st (toordinal date)) as Hal.
  eexists. split; [exact Hw|]. cbn [start end_ Period__init__].
  rewrite (combine_midnight_day_at date Hv).
  set (n := toordinal date) in *. set (s := n - week_offset st n) in *.
  split; [apply valid_day_at; lia|].
  split; [apply midnight_day_at|].
  split.
  { rewrite isoweekday_day_at by assumption. unfold week_offset in Hal.
    destruct (FIRST_DAY_OF_WEEK st =? 1).
    - destruct (Z.eqb_spec (s mod 7) 0); lia.
    - rewrite Hal. reflexivity. }
  rewrite !toordinal_day_at by lia.
  split; [lia|].
  split; [rewrite dt_le_day_at by lia; apply Z.leb_le; lia|].
  split; [apply add_days_day_at; lia|].
  split; [reflexivity|].
  intros Hiso. f_equal. rewrite isoweekday_ord in Hiso. fold n in Hiso.
  subst s. unfold week_offset in *.
  destruct (FIRST_DAY_OF_WEEK st =? 1);
    destruct (Z.eqb_spec (n mod 7) 0); lia.
Qed.

Lemma week_anchor_witness :
  exists wk : Period,
    Week settings_monday [] (mk_datetime 2024 2 15 0 0 0 0) None None = Ok wk
    /\ wk = week_of_2024_02_15
    /\ isoweekday (mk_datetime 2024 2 15 0 0 0 0) = 4
    /\ isoweekday (start wk) = 1
    /\ add_days (start wk) 7 = Ok (end_ wk).
Proof.
  destruct (week_anchor settings_monday [] (mk_datetime 2024 2 15 0 0 0 0)
              None None eq_refl)
    as (wk & H1 & _ & _ & H4 & _ & _ & H7 & _).
  - vm_compute. discriminate.
  - vm_compute. discriminate.
  - exists wk. split; [exact H1|]. split.
    + assert (Hc : Week settings_monday [] (mk_datetime 2024 2 15 0 0 0 0)
                     None None = Ok week_of_2024_02_15)
        by (vm_compute; reflexivity).
      rewrite Hc in H1. injection H1 as <-. reflexivity.
    + split; [vm_compute; reflexivity|]. split; [exact H4 | exact H7].
Defined.

(** ** Day *)

Lemma day_at_first : day_at 1 = at_midnight 1 1 1.
Proof. vm_compute. reflexivity. Qed.

Lemma day_at_last_start : day_at (_MAXORDINAL - 1) = at_midnight 9999 12 30.
Proof. vm_compute. reflexivity. Qed.

Lemma Day_day_at (ev : list Event) (n : Z)
    (pp pool : option (list Occurrence)) :
  1 <= n -> n + 1 <= _MAXORDINAL ->
  Day ev (day_at n) pp pool
  = Ok (Period__init__ (Some KDay) ev (day_at n) (day_at (n + 1)) pp pool).
Proof.
  intros Hlo Hhi. rewrite Day_ok; rewrite ?toordinal_day_at by assumption;
    [reflexivity | apply valid_day_at; lia | lia].
Qed.

(** C6, as stated, fails at both ends of the calendar: the day 0001-01-01
    has no previous day and the day 9999-12-30 has no next day (the day
    after would end in year 10000); [prev], respectively [next], raises
    [OverflowError]. *)
Lemma day_navigation_at_the_ends :
  exists first last_ : Period,
    Day [] (at_midnight 1 1 1) None None = Ok first
    /\ prev settings_monday first = Raise OverflowError
    /\ Day [] (at_midnight 9999 12 30) None None = Ok last_
    /\ next settings_monday last_ = Raise OverflowError.
Proof.
  eexists _, _. split; [vm_compute; reflexivity|].
  split; [vm_compute; reflexivity|].
  split; [vm_compute; reflexivity|].
  vm_compute; reflexivity.
Qed.

(** C6, amended: for every Day period [d] built at the default [tzinfo]
    that does not start on 9999-12-30, [d.next().prev()] starts where [d]
    starts, and for every such [d] that does not start on 0001-01-01,
    [d.prev().next()] starts where [d] starts. *)
Theorem day_navigation (st : Settings) (ev : list Event) (date : datetime)
    (pp pool : option (list Occurrence)) (d : Period) :
  valid date -> Day ev date pp pool = Ok d ->
  (start d <> at_midnight 9999 12 30 ->
   exists n p : Period,
     next st d = Ok n /\ prev st n = Ok p /\ start p = start d)
  /\ (start d <> at_midnight 1 1 1 ->
      exists p n : Period,
        prev st d = Ok p /\ next st p = Ok n /\ start n = start d).
Proof.
  intros Hv Hd. destruct (Day_inv _ _ _ _ _ Hv Hd) as (Hhi & ->).
  pose proof (toordinal_range date Hv) as Hr.
  set (o := toordinal date) in *.
  unfold next, prev. cbn [cls start Period__init__]. split.
  - intros Hne.
    assert (Ho : o + 2 <= _MAXORDINAL).
    { destruct (Z.le_gt_cases (o + 2) _MAXORDINAL) as [?|Hgt]; [assumption|].
      exfalso. apply Hne. replace o with (_MAXORDINAL - 1) by lia.
      apply day_at_last_start. }
    unfold next_day. cbn [events end_ Period__init__].
    rewrite Day_day_at by lia.
    eexists. eexists. split; [reflexivity|].
    cbn [cls]. unfold prev_day, sub_days. cbn [events start Period__init__].
    rewrite add_days_day_at by lia. rewrite bind_Ok.
    replace (o + 1 + - (1)) with o by lia.
    rewrite Day_day_at by lia. split; reflexivity.
  - intros Hne.
    assert (Ho : 2 <= o).
    { destruct (Z.le_gt_cases 2 o) as [?|Hlt]; [assumption|].
      exfalso. apply Hne. replace o with 1 by lia. apply day_at_first. }
    unfold prev_day, sub_days. cbn [events start Period__init__].
    rewrite add_days_day_at by lia. rewrite bind_Ok.
    rewrite Day_day_at by lia.
    eexists. eexists. split; [reflexivity|].
    cbn [cls]. unfold next_day. cbn [events end_ Period__init__].
    replace (o + - (1) + 1) with o by lia.
    rewrite Day_day_at by lia. split; reflexivity.
Qed.

Lemma day_navigation_witness :
  exists d n p : Period,
    Day [] (mk_datetime 2024 2 15 0 0 0 0) None None = Ok d
    /\ next settings_monday d = Ok n
    /\ prev settings_monday n = Ok p
    /\ start p = start d.
Proof.
  assert (Hd : Day [] (mk_datetime 2024 2 15 0 0 0 0) None None
               = Ok (Period__init__ (Some KDay) [] (at_midnight 2024 2 15)
                       (at_midnight 2024 2 16) None None))
    by (vm_compute; reflexivity).
  destruct (day_navigation settings_monday [] (mk_datetime 2024 2 15 0 0 0 0)
              None None _ eq_refl Hd) as [H _].
  destruct H as (n & p & H1 & H2 & H3); [discriminate|].
  eexists _, n, p. split; [exact Hd|]. auto.
Defined.

(** ** The nth day of a month *)

(** C10, as stated, fails for a day number past the month's length: the
    30th day of February 2024 is 2024-03-01, which is not within the month. *)
Lemma get_day_past_the_month :
  exists (d self' : Period) (w' : World),
    get_day settings_monday 30 february_2024 world0 = Ok (d, self', w')
    /\ start d = at_midnight 2024 3 1
    /\ end_ february_2024 = at_midnight 2024 3 1
    /\ dt_lt (start d) (end_ february_2024) = false
    /\ dt_le (end_ d) (end_ february_2024) = false.
Proof.
  eexists _, _, _. split; [vm_compute; reflexivity|].
  repeat split.
Qed.

(** C10, amended: for every Month [m] built at the default [tzinfo] and
    every day number [n >= 1] for which the day is within the range of [datetime], [m.get_day(n)] returns
    a Day that starts [n - 1] days after the month's start and lasts one
    day.  When [n] is at most the number of days of the month, this is the
    nth day of the month and it lies within the month's range; past that,
    the Day starts at or after the month's end. *)
Theorem month_get_day (st : Settings) (ev : list Event) (date : datetime)
    (pp pool : option (list Occurrence)) (m : Period) (w : World) (n : Z) :
  valid date -> Month ev date pp pool = Ok m -> 1 <= n ->
  n <= _days_in_month (year date) (month date)
  \/ toordinal (start m) + n <= _MAXORDINAL ->
  exists (d self' : Period) (w' : World),
    get_day st n m w = Ok (d, self', w')
    /\ cls d = Some KDay
    /\ add_days (start m) (n - 1) = Ok (start d)
    /\ add_days (start d) 1 = Ok (end_ d)
    /\ (n <= _days_in_month (year date) (month date) ->
        start d = mk_datetime (year date) (month date) n 0 0 0 0
        /\ dt_le (start m) (start d) = true
        /\ dt_lt (start d) (end_ m) = true
        /\ dt_le (end_ d) (end_ m) = true)
    /\ (_days_in_month (year date) (month date) < n ->
        dt_le (end_ m) (start d) = true).
Proof.
  intros Hv Hm Hn Hrange. destruct (Month_inv _ _ _ _ _ Hv Hm) as (Hno & ->).
  destruct (valid_inv date Hv) as ((Hy1 & Hmo & _) & Hmax & _).
  pose proof (dim_bounds (year date) (month date) Hmo) as Hdim.
  pose proof (month_end_bound (year date) (month date) ltac:(lia) Hmo Hno)
    as Hend.
  pose proof (ymd2ord_pos (year date) (month date) 1
                ltac:(apply date_ok_first; lia)) as Hpos.
  assert (Hnth : forall k, 1 <= k <= _days_in_month (year date) (month date) ->
            mk_datetime (year date) (month date) k 0 0 0 0
            = day_at (_ymd2ord (year date) (month date) 1 + k - 1)).
  { intros k Hk. rewrite day_at_ymd by (repeat split; lia).
    f_equal. unfold _ymd2ord. lia. }
  revert Hrange. cbn [start end_ Period__init__].
  rewrite month_range_ord by assumption. cbn [fst snd].
  set (y := year date) in *. set (mo := month date) in *.
  set (o := _ymd2ord y mo 1) in *.
  rewrite toordinal_day_at by assumption. intros Hrange.
  assert (Hon : o + n <= _MAXORDINAL) by lia.
  assert (Hdate :
    (if 1 <? n then add_days (day_at o) (n - 1) else Ok (day_at o))
    = Ok (day_at (o + (n - 1)))).
  { destruct (Z.ltb_spec 1 n).
    - apply add_days_day_at; unfold _MAXORDINAL in *; lia.
    - replace (n - 1) with 0 by lia. rewrite Z.add_0_r. reflexivity. }
  unfold get_day. cbn [start Period__init__]. rewrite Hdate, bind_Ok.
  rewrite create_sub_period_spec by apply no_typo_init.
  cbn [default from_option id sub_range].
  change (_get_day_range ?d) with (variant_range st KDay d).
  rewrite day_range_day_at by (auto; lia). rewrite bind_Ok.
  eexists _, _, _. split; [reflexivity|]. cbn [cls start end_ fst snd
    Period__init__].
  split; [reflexivity|].
  split; [apply add_days_day_at; unfold _MAXORDINAL in *; lia|].
  split; [apply add_days_day_at; unfold _MAXORDINAL in *; lia|].
  split.
  - intros Hle. split.
    + rewrite Hnth by lia. f_equal. lia.
    + rewrite !dt_le_day_at, dt_lt_day_at by lia.
      rewrite !Z.leb_le, Z.ltb_lt. lia.
  - intros Hgt. rewrite dt_le_day_at by lia. apply Z.leb_le. lia.
Qed.

Lemma month_get_day_witness :
  exists (d self' : Period) (w' : World),
    get_day settings_monday 29 february_2024 world0 = Ok (d, self', w')
    /\ start d = mk_datetime 2024 2 29 0 0 0 0
    /\ dt_le (end_ d) (end_ february_2024) = true.
Proof.
  assert (Hm : Month [] (mk_datetime 2024 2 15 0 0 0 0) None None
               = Ok february_2024) by (vm_compute; reflexivity).
  destruct (month_get_day settings_monday [] (mk_datetime 2024 2 15 0 0 0 0)
              None None february_2024 world0 29 eq_refl Hm ltac:(lia)
              ltac:(left; vm_compute; discriminate))
    as (d & self' & w' & H1 & _ & _ & _ & H5 & _).
  exists d, self', w'. split; [exact H1|].
  destruct H5 as (H6 & _ & _ & H7); [vm_compute; discriminate|].
  split; [exact H6 | exact H7].
Defined.

(** ** Year *)

(** X1: at the default [tzinfo], the year of a reference date before year
    9999 runs from midnight on January 1 to midnight on January 1 of the
    next year, and [get_months] yields its 12 months, for instance for a
    date in 2023. *)
Theorem year_anchor (st : Settings) (ev : list Event) (date : datetime)
    (pp : option (list Occurrence)) (w : World) (fuel : nat) :
  valid date -> year date < MAXYEAR -> (13 < fuel)%nat ->
  exists y : Period,
    Year ev date pp = Ok y
    /\ start y = mk_datetime (year date) 1 1 0 0 0 0
    /\ end_ y = mk_datetime (year date + 1) 1 1 0 0 0 0
    /\ (exists (l : list Period) (self' : Period) (w' : World),
          get_months st fuel y w = Some (Ok (l, self', w'))
          /\ Forall (fun m => cls m = Some KMonth) l
          /\ length l = 12%nat).
Proof.
  intros Hv Hy Hfuel.
  assert (Hyear : Year ev date pp
                  = Ok (Period__init__ (Some KYear) ev (first_of (year date) 1)
                          (first_of (year date + 1) 1) pp None)).
  { unfold Year. rewrite get_year_range_ok by assumption. reflexivity. }
  eexists. split; [exact Hyear|].
  split; [reflexivity|]. split; [reflexivity|].
  destruct (year_months st ev date pp _ w fuel Hv Hfuel Hyear)
    as (l & self' & w' & H1 & H2 & H3 & _).
  exists l, self', w'. rewrite length_map in H3. auto.
Qed.

Lemma year_anchor_witness :
  exists y : Period,
    Year [] (mk_datetime 2023 6 15 12 0 0 0) None = Ok y
    /\ start y = mk_datetime 2023 1 1 0 0 0 0
    /\ end_ y = mk_datetime 2024 1 1 0 0 0 0
    /\ (exists (l : list Period) (self' : Period) (w' : World),
          get_months settings_monday 20 y world0 = Some (Ok (l, self', w'))
          /\ Forall (fun m => cls m = Some KMonth) l
          /\ length l = 12%nat).
Proof.
  exact (year_anchor settings_monday [] (mk_datetime 2023 6 15 12 0 0 0) None
           world0 20 eq_refl eq_refl ltac:(lia)).
Defined.

(** ** Partials and time slots *)

Lemma existsb_omap {A B : Type} (g : A -> option B) (l : list A) :
  existsb (fun x => bool_decide (is_Some (g x))) l = true <-> omap g l <> [].
Proof.
  induction l as [|x l IH]; simpl.
  - split; [discriminate | congruence].
  - destruct (g x) as [y|] eqn:E.
    + rewrite bool_decide_eq_true_2 by eauto. simpl.
      split; [discriminate | reflexivity].
    + rewrite bool_decide_eq_false_2 by (intros [? ?]; discriminate).
      simpl. exact IH.
Qed.

(** X2: [has_occurrences] is true exactly when [get_occurrence_partials] is not
    empty, and the partials are the classified occurrences in the order of
    [occurrences]. *)
Theorem has_occurrences_partials (st : Settings) (self : Period) :
  (fst (has_occurrences st self) = true
   <-> fst (get_occurrence_partials st self) <> [])
  /\ fst (get_occurrence_partials st self)
     = omap (classify_occurrence st self)
            (fst (cached_get_sorted_occurrences self))
  /\ snd (has_occurrences st self) = snd (cached_get_sorted_occurrences self).
Proof.
  unfold has_occurrences, get_occurrence_partials.
  destruct (cached_get_sorted_occurrences self) as [occs self'] eqn:E.
  cbn [fst snd].
  assert (Hcls : forall o, classify_occurrence st self' o
                           = classify_occurrence st self o).
  { intros o. unfold classify_occurrence.
    pose proof (cached_fields self) as Hf. rewrite E in Hf.
    cbn [snd] in Hf. destruct Hf as (_ & -> & -> & _). reflexivity. }
  split; [|split; [|reflexivity]].
  - apply existsb_omap.
  - clear E. induction occs as [|o occs IH]; [reflexivity|].
    cbn [omap list_omap]. rewrite Hcls, IH. reflexivity.
Qed.

Lemma get_time_slot_cases (self : Period) (s e : datetime) :
  (dt_le (start self) s = true /\ dt_le e (end_ self) = true ->
   get_time_slot self s e = Some (new_Period (events self) s e None None))
  /\ (~ (dt_le (start self) s = true /\ dt_le e (end_ self) = true) ->
      get_time_slot self s e = None).
Proof.
  unfold get_time_slot, dt_ge. split.
  - intros [-> ->]. reflexivity.
  - intros H. destruct (dt_le (start self) s), (dt_le e (end_ self));
      try reflexivity. exfalso. apply H. split; reflexivity.
Qed.

(** X4: on every instance this module builds, every call of
    [get_persisted_occurrences] asks the storage once more. *)
Theorem get_persisted_occurrences_never_hits (st : Settings)
    (c : option Variant) (ev : list Event) (s e : datetime)
    (pp pool : option (list Occurrence))
    (w : World) :
  exists (p1 p2 : Period) (w1 w2 : World),
    get_persisted_occurrences st (Period__init__ c ev s e pp pool) w
    = Ok (objects_filter st ev, p1, w1)
    /\ get_persisted_occurrences st p1 w1 = Ok (objects_filter st ev, p2, w2)
    /\ storage_queries w2 = S (S (storage_queries w)).
Proof.
  destruct (get_persisted_occurrences_always_queries st
              (Period__init__ c ev s e pp pool) w (no_typo_init _ _ _ _ _ _))
    as (p1 & w1 & H1 & Hq1 & Hinv1).
  destruct (get_persisted_occurrences_always_queries st p1 w1 Hinv1)
    as (p2 & w2 & H2 & Hq2 & _).
  exists p1, p2, w1, w2. split; [exact H1|].
  assert (Hev : events p1 = ev).
  { rewrite get_persisted_occurrences_miss in H1 by apply no_typo_init.
    injection H1 as <- _. reflexivity. }
  rewrite Hev in H2. split; [exact H2|]. rewrite Hq2, Hq1. reflexivity.
Qed.

(** ** Concrete dates *)

Example toordinal_2024_02_15 :
  toordinal (mk_datetime 2024 2 15 0 0 0 0) = 738931.
Proof. vm_compute. reflexivity. Qed.

Example ord2ymd_ends :
  _ord2ymd 1 = (1, 1, 1) /\ _ord2ymd _MAXORDINAL = (9999, 12, 31)
  /\ _ord2ymd 738931 = (2024, 2, 15).
Proof. repeat split. Qed.

Example isoweekday_first_day : isoweekday (at_midnight 1 1 1) = 1.
Proof. vm_compute. reflexivity. Qed.

Example leap_day_2024 :
  add_days (at_midnight 2024 2 28) 1 = Ok (at_midnight 2024 2 29)
  /\ add_days (at_midnight 2023 2 28) 1 = Ok (at_midnight 2023 3 1)
  /\ add_days (at_midnight 1900 2 28) 1 = Ok (at_midnight 1900 3 1)
  /\ add_days (at_midnight 2000 2 28) 2 = Ok (at_midnight 2000 3 1).
Proof. repeat split; vm_compute; reflexivity. Qed.

Example add_days_keeps_time :
  add_days (mk_datetime 2024 12 31 23 59 58 7) 1
  = Ok (mk_datetime 2025 1 1 23 59 58 7).
Proof. vm_compute. reflexivity. Qed.

Example week_sunday_2024_02_15 :
  exists wk : Period,
    Week settings_sunday [] (mk_datetime 2024 2 15 8 0 0 0) None None = Ok wk
    /\ range wk = (at_midnight 2024 2 11, at_midnight 2024 2 18)
    /\ isoweekday (start wk) = 7.
Proof.
  eexists. split; [vm_compute; reflexivity|].
  split; vm_compute; reflexivity.
Qed.

Example week_sunday_first_day :
  Week settings_sunday [] (at_midnight 1 1 1) None None = Raise OverflowError.
Proof. vm_compute. reflexivity. Qed.

Example year_9999 :
  Year [] (at_midnight 9999 6 1) None = Raise ValueError.
Proof. vm_compute. reflexivity. Qed.

Example year_as_sub_period :
  exists r,
    create_sub_period settings_monday KYear None january_2024 world0 = r
    /\ r = Raise TypeError.
Proof. eexists. split; vm_compute; reflexivity. Qed.

Example classify_spanning :
  classify_occurrence settings_monday january_2024 occ_spanning
  = Some (mk_Partial occ_spanning 2).
Proof. reflexivity. Qed.

Example week_days_2024_02_15 :
  exists (l : list Period) (self' : Period) (w' : World),
    get_days settings_monday 10 week_of_2024_02_15 world0
    = Some (Ok (l, self', w'))
    /\ map start l
       = [at_midnight 2024 2 12; at_midnight 2024 2 13; at_midnight 2024 2 14;
          at_midnight 2024 2 15; at_midnight 2024 2 16; at_midnight 2024 2 17;
          at_midnight 2024 2 18]
    /\ storage_queries w' = 8%nat.
Proof.
  eexists _, _, _. split; [vm_compute; reflexivity|].
  split; vm_compute; reflexivity.
Qed.

Example get_days_out_of_fuel :
  get_days settings_monday 7 week_of_2024_02_15 world0 = None.
Proof. vm_compute. reflexivity. Qed.

(** ** Instants against days *)

Lemma cmp_tuple_zeros_l (h mi s us : Z) :
  0 <= h -> 0 <= mi -> 0 <= s -> 0 <= us ->
  _cmp_tuple [0; 0; 0; 0] [h; mi; s; us] <> Gt.
Proof.
  intros Hh Hmi Hs Hus. cbn [_cmp_tuple].
  destruct (Z.compare_spec 0 h); try lia; try discriminate.
  destruct (Z.compare_spec 0 mi); try lia; try discriminate.
  destruct (Z.compare_spec 0 s); try lia; try discriminate.
  destruct (Z.compare_spec 0 us); try lia; discriminate.
Qed.

Lemma cmp_day_at_valid (n : Z) (d : datetime) :
  1 <= n -> valid d ->
  _cmp (day_at n) d
  = match n ?= toordinal d with
    | Eq => _cmp_tuple [0; 0; 0; 0] [hour d; minute d; second d; microsecond d]
    | c => c
    end.
Proof.
  intros Hn Hv. destruct (valid_inv d Hv) as (Hd & _).
  destruct (day_at_unfold n Hn) as (y & m & dd & -> & Hok & <-).
  unfold _cmp, _getstate. cbn [year month day hour minute second microsecond].
  rewrite ymd2ord_compare by assumption. reflexivity.
Qed.

Lemma dt_le_day_at_l (n : Z) (d : datetime) :
  1 <= n -> valid d -> dt_le (day_at n) d = (n <=? toordinal d).
Proof.
  intros Hn Hv. unfold dt_le, Z.leb. rewrite cmp_day_at_valid by assumption.
  destruct (valid_inv d Hv) as (_ & _ & Hh & Hmi & Hs & Hus).
  destruct (n ?= toordinal d); try reflexivity.
  pose proof (cmp_tuple_zeros_l (hour d) (minute d) (second d) (microsecond d)
                ltac:(lia) ltac:(lia) ltac:(lia) ltac:(lia)) as H.
  destruct (_cmp_tuple _ _); congruence.
Qed.

Lemma dt_lt_day_at_r (n : Z) (d : datetime) :
  1 <= n -> valid d -> dt_lt d (day_at n) = (toordinal d <? n).
Proof.
  intros Hn Hv. rewrite dt_lt_negb_le, dt_le_day_at_l by assumption.
  rewrite Z.leb_antisym, negb_involutive. reflexivity.
Qed.

Lemma within_day_at (d : datetime) (a b : Z) :
  valid d -> 1 <= a -> 1 <= b ->
  within d (day_at a, day_at b) <-> a <= toordinal d < b.
Proof.
  intros Hv Ha Hb. unfold within. cbn [fst snd].
  rewrite dt_le_day_at_l, dt_lt_day_at_r by assumption.
  rewrite Z.leb_le, Z.ltb_lt. tauto.
Qed.

Lemma valid_ymd (d : datetime) :
  valid d -> _ord2ymd (toordinal d) = (year d, month d, day d).
Proof.
  intros Hv. destruct (valid_inv d Hv) as (Hd & _).
  change (toordinal d) with (_ymd2ord (year d) (month d) (day d)).
  apply ord2ymd_ymd2ord. exact Hd.
Qed.

(** ** The periods of a class tile the calendar *)

Lemma date_ok_last (y m : Z) :
  1 <= y -> 1 <= m <= 12 -> date_ok y m (_days_in_month y m).
Proof.
  intros Hy Hm. pose proof (dim_bounds y m Hm). repeat split; lia.
Qed.

Lemma same_month (y m y' m' d' : Z) :
  1 <= y -> 1 <= m <= 12 -> date_ok y' m' d' ->
  _ymd2ord y m 1 <= _ymd2ord y' m' d' < _ymd2ord y m 1 + _days_in_month y m ->
  y' = y /\ m' = m.
Proof.
  intros Hy Hm Hok' Hin.
  pose proof (date_ok_first y m Hy Hm) as Hfirst.
  pose proof (date_ok_last y m Hy Hm) as Hlast.
  assert (Hl : _ymd2ord y m (_days_in_month y m)
               = _ymd2ord y m 1 + _days_in_month y m - 1)
    by (unfold _ymd2ord; lia).
  destruct (Z.lt_trichotomy y' y) as [H|[H|H]].
  - pose proof (ymd2ord_lt_year _ _ _ _ _ _ Hok' Hfirst H). lia.
  - subst y'. split; [reflexivity|].
    destruct (Z.lt_trichotomy m' m) as [H|[H|H]]; [|assumption|].
    + pose proof (ymd2ord_lt_month _ _ _ _ _ Hok' Hfirst H). lia.
    + pose proof (ymd2ord_lt_month _ _ _ _ _ Hlast Hok' H). lia.
  - pose proof (ymd2ord_lt_year _ _ _ _ _ _ Hlast Hok' H). lia.
Qed.

Lemma year_ords (y : Z) :
  _ymd2ord y 1 1 = _days_before_year y + 1
  /\ _ymd2ord (y + 1) 1 1
     = _days_before_year y + 365 + (if _is_leap y then 1 else 0) + 1.
Proof.
  unfold _ymd2ord. rewrite dby_succ.
  change (_days_before_month y 1) with 0.
  change (_days_before_month (y + 1) 1) with 0. lia.
Qed.

Lemma same_year (y y' m' d' : Z) :
  1 <= y -> date_ok y' m' d' ->
  _ymd2ord y 1 1 <= _ymd2ord y' m' d' < _ymd2ord (y + 1) 1 1 ->
  y' = y.
Proof.
  intros Hy Hok' Hin.
  pose proof (date_ok_first y 1 Hy ltac:(lia)) as Hfirst.
  pose proof (date_ok_first (y + 1) 1 ltac:(lia) ltac:(lia)) as Hnext.
  destruct (Z.lt_trichotomy y' y) as [H|[H|H]]; [|assumption|].
  - pose proof (ymd2ord_lt_year _ _ _ _ _ _ Hok' Hfirst H). lia.
  - destruct (Z.eq_dec y' (y + 1)) as [->|Hne].
    + assert (_ymd2ord (y + 1) 1 1 <= _ymd2ord (y + 1) m' d'); [|lia].
      destruct Hok' as (_ & Hm' & Hd'). unfold _ymd2ord.
      pose proof (dbm_day_bounds (y + 1) m' d' Hm' Hd').
      change (_days_before_month (y + 1) 1) with 0. lia.
    + pose proof (ymd2ord_lt_year _ _ _ _ _ _ Hnext Hok' ltac:(lia)). lia.
Qed.

Lemma bounds_contains (st : Settings) (c : Variant) (n : Z) :
  1 <= n -> fst (bounds st c n) <= n < snd (bounds st c n).
Proof.
  intros Hn. destruct c; cbn [bounds].
  - destruct (ord2ymd_spec n Hn) as (y & m & d & -> & Hy & Hm & Hd & <-).
    cbn [fst snd]. destruct (year_ords y) as [-> ->].
    pose proof (dbm_day_bounds y m d Hm Hd). unfold _ymd2ord. lia.
  - destruct (ord2ymd_spec n Hn) as (y & m & d & -> & Hy & Hm & Hd & <-).
    cbn [fst snd]. unfold _ymd2ord. lia.
  - cbn [fst snd]. pose proof (week_offset_range st n). lia.
  - cbn [fst snd]. lia.
Qed.

Lemma bounds_same (st : Settings) (c : Variant) (n n' : Z) :
  1 <= n -> 1 <= n' ->
  fst (bounds st c n) <= n' < snd (bounds st c n) ->
  bounds st c n' = bounds st c n.
Proof.
  intros Hn Hn'. destruct c; cbn [bounds].
  - destruct (ord2ymd_spec n Hn) as (y & m & d & -> & Hy & Hm & Hd & <-).
    destruct (ord2ymd_spec n' Hn') as (y' & m' & d' & -> & Hy' & Hm' & Hd' & <-).
    cbn [fst snd]. intros Hin.
    rewrite (same_year y y' m' d') by (auto; repeat split; lia). reflexivity.
  - destruct (ord2ymd_spec n Hn) as (y & m & d & -> & Hy & Hm & Hd & <-).
    destruct (ord2ymd_spec n' Hn') as (y' & m' & d' & -> & Hy' & Hm' & Hd' & <-).
    cbn [fst snd]. intros Hin.
    destruct (same_month y m y' m' d') as [-> ->];
      auto; repeat split; lia.
  - cbn [fst snd]. intros Hin. unfold week_offset in *.
    destruct (FIRST_DAY_OF_WEEK st =? 1); f_equal; lia.
  - cbn [fst snd]. intros Hin. f_equal; lia.
Qed.

Lemma bounds_first_pos (st : Settings) (c : Variant) (n : Z) :
  1 <= n -> c = KYear \/ c = KMonth \/ c = KDay -> 1 <= fst (bounds st c n).
Proof.
  intros Hn [-> | [-> | ->]]; cbn [bounds].
  - destruct (ord2ymd_spec n Hn) as (y & m & d & -> & Hy & Hm & Hd & <-).
    cbn [fst]. apply ymd2ord_pos, date_ok_first; lia.
  - destruct (ord2ymd_spec n Hn) as (y & m & d & -> & Hy & Hm & Hd & <-).
    cbn [fst]. apply ymd2ord_pos, date_ok_first; lia.
  - cbn [fst]. exact Hn.
Qed.

(** What the range of a class is, and when it is refused. *)
Lemma variant_range_bounds (st : Settings) (c : Variant) (date : datetime) :
  valid date ->
  variant_range st c date
  = if (1 <=? fst (bounds st c (toordinal date)))
       && (snd (bounds st c (toordinal date)) <=? _MAXORDINAL)
    then Ok (day_at (fst (bounds st c (toordinal date))),
             day_at (snd (bounds st c (toordinal date))))
    else Raise (match c with
                | KYear | KMonth => ValueError
                | KWeek | KDay => OverflowError
                end).
Proof.
  intros Hv. pose proof (toordinal_range date Hv) as Hr.
  destruct (valid_inv date Hv) as ((Hy & Hm & Hd) & Hmax & _).
  destruct c; cbn [bounds variant_range].
  - rewrite (valid_ymd date Hv). cbn [fst snd].
    pose proof (ymd2ord_pos (year date) 1 1
                  ltac:(apply date_ok_first; lia)) as Hpos.
    destruct (Z.leb_spec 1 (_ymd2ord (year date) 1 1)); [|lia]. cbn [andb].
    destruct (Z.eq_dec (year date) MAXYEAR) as [E|E].
    + rewrite get_year_range_overflow by assumption. rewrite E.
      reflexivity.
    + rewrite get_year_range_ok by (try assumption; lia).
      rewrite !first_of_day_at by lia.
      pose proof (ymd2ord_max (year date + 1) 1 1
                    ltac:(apply date_ok_first; lia) ltac:(lia)).
      destruct (Z.leb_spec (_ymd2ord (year date + 1) 1 1) _MAXORDINAL); [|lia].
      reflexivity.
  - rewrite (valid_ymd date Hv). cbn [fst snd].
    pose proof (ymd2ord_pos (year date) (month date) 1
                  ltac:(apply date_ok_first; lia)) as Hpos.
    destruct (Z.leb_spec 1 (_ymd2ord (year date) (month date) 1)); [|lia].
    cbn [andb].
    destruct (Z.eq_dec (year date) MAXYEAR) as [E1|E1];
      [destruct (Z.eq_dec (month date) 12) as [E2|E2]|].
    + rewrite get_month_range_overflow by assumption. rewrite E1, E2.
      reflexivity.
    + rewrite get_month_range_ok by (try assumption; tauto).
      fold (month_range (year date) (month date)).
      rewrite month_range_ord by lia.
      pose proof (month_end_bound (year date) (month date) ltac:(lia) Hm
                    ltac:(tauto)).
      destruct (Z.leb_spec (_ymd2ord (year date) (month date) 1
                            + _days_in_month (year date) (month date))
                           _MAXORDINAL); [reflexivity|lia].
    + rewrite get_month_range_ok by (try assumption; tauto).
      fold (month_range (year date) (month date)).
      rewrite month_range_ord by lia.
      pose proof (month_end_bound (year date) (month date) ltac:(lia) Hm
                    ltac:(tauto)).
      destruct (Z.leb_spec (_ymd2ord (year date) (month date) 1
                            + _days_in_month (year date) (month date))
                           _MAXORDINAL); [reflexivity|lia].
  - cbn [fst snd].
    destruct (Z.leb_spec 1 (toordinal date - week_offset st (toordinal date)));
      destruct (Z.leb_spec
                  (toordinal date - week_offset st (toordinal date) + 7)
                  _MAXORDINAL); cbn [andb].
    + apply get_week_range_ok; assumption.
    + apply get_week_range_overflow; [assumption | lia].
    + apply get_week_range_overflow; [assumption | lia].
    + apply get_week_range_overflow; [assumption | lia].
  - cbn [fst snd]. destruct (Z.leb_spec 1 (toordinal date)); [|lia].
    cbn [andb].
    destruct (Z.leb_spec (toordinal date + 1) _MAXORDINAL).
    + apply get_day_range_ok; assumption.
    + apply get_day_range_overflow; [assumption | lia].
Qed.

Lemma new_variant_range (st : Settings) (c : Variant) (ev : list Event)
    (date : datetime) (pp pool : option (list Occurrence)) :
  new_variant st c ev date pp pool
  = (r ← variant_range st c date;
     Ok (Period__init__ (Some c) ev (fst r) (snd r) pp
           (match c with KYear => None | _ => pool end))).
Proof.
  destruct c; cbn [new_variant variant_range]; unfold Year, Month, Week, Day;
    match goal with |- context [mbind _ ?r] => destruct r as [[s e]|] end;
    reflexivity.
Qed.

(** A period of class [c] built from [date], in ordinals. *)
Lemma new_variant_inv (st : Settings) (c : Variant) (ev : list Event)
    (date : datetime) (pp pool : option (list Occurrence)) (p : Period) :
  valid date -> new_variant st c ev date pp pool = Ok p ->
  1 <= fst (bounds st c (toordinal date))
  /\ snd (bounds st c (toordinal date)) <= _MAXORDINAL
  /\ p = Period__init__ (Some c) ev
           (day_at (fst (bounds st c (toordinal date))))
           (day_at (snd (bounds st c (toordinal date)))) pp
           (match c with KYear => None | _ => pool end).
Proof.
  intros Hv H. rewrite new_variant_range, variant_range_bounds in H
    by assumption.
  destruct (Z.leb_spec 1 (fst (bounds st c (toordinal date))));
    destruct (Z.leb_spec (snd (bounds st c (toordinal date))) _MAXORDINAL);
    cbn [andb] in H; try discriminate.
  rewrite bind_Ok in H. injection H as <-. auto.
Qed.

Lemma new_variant_ok (st : Settings) (c : Variant) (ev : list Event)
    (date : datetime) (pp pool : option (list Occurrence)) :
  valid date ->
  1 <= fst (bounds st c (toordinal date)) ->
  snd (bounds st c (toordinal date)) <= _MAXORDINAL ->
  new_variant st c ev date pp pool
  = Ok (Period__init__ (Some c) ev
          (day_at (fst (bounds st c (toordinal date))))
          (day_at (snd (bounds st c (toordinal date)))) pp
          (match c with KYear => None | _ => pool end)).
Proof.
  intros Hv Hlo Hhi. rewrite new_variant_range, variant_range_bounds
    by assumption.
  destruct (Z.leb_spec 1 (fst (bounds st c (toordinal date)))); [|lia].
  destruct (Z.leb_spec (snd (bounds st c (toordinal date))) _MAXORDINAL);
    [|lia].
  reflexivity.
Qed.

(** X5: a period built by [Year], [Month], [Week] or [Day] at the default
    [tzinfo] holds the reference date it was built from, when that date is
    given in the zone of the period's bounds: it starts at or before it and
    ends after it.  Its bounds are midnights within the range of [datetime]
    and its start is before its end. *)
Theorem period_holds_its_date (st : Settings) (c : Variant) (ev : list Event)
    (date : datetime) (pp pool : option (list Occurrence)) (p : Period) :
  valid date -> new_variant st c ev date pp pool = Ok p ->
  dt_le (start p) date = true /\ dt_lt date (end_ p) = true
  /\ dt_lt (start p) (end_ p) = true
  /\ valid (start p) /\ valid (end_ p)
  /\ is_midnight (start p) /\ is_midnight (end_ p)
  /\ cls p = Some c /\ events p = ev.
Proof.
  intros Hv H. destruct (new_variant_inv _ _ _ _ _ _ _ Hv H) as (Hlo & Hhi & ->).
  pose proof (toordinal_range date Hv) as Hr.
  pose proof (bounds_contains st c (toordinal date) ltac:(lia)) as Hin.
  cbn [start end_ cls events Period__init__].
  rewrite dt_le_day_at_l, dt_lt_day_at_r, dt_lt_day_at by (auto; lia).
  rewrite Z.leb_le, !Z.ltb_lt.
  repeat split; try lia; try apply midnight_day_at; apply valid_day_at; lia.
Qed.

Lemma period_holds_its_date_witness :
  exists p : Period,
    Week settings_sunday [] (mk_datetime 2024 2 15 8 30 0 0) None None = Ok p
    /\ dt_le (start p) (mk_datetime 2024 2 15 8 30 0 0) = true
    /\ dt_lt (mk_datetime 2024 2 15 8 30 0 0) (end_ p) = true.
Proof.
  assert (H : Week settings_sunday [] (mk_datetime 2024 2 15 8 30 0 0)
                None None
              = Ok (Period__init__ (Some KWeek) [] (at_midnight 2024 2 11)
                      (at_midnight 2024 2 18) None None))
    by (vm_compute; reflexivity).
  eexists. split; [exact H|].
  destruct (period_holds_its_date settings_sunday KWeek []
              (mk_datetime 2024 2 15 8 30 0 0) None None _ eq_refl H)
    as (H1 & H2 & _).
  split; [exact H1 | exact H2].
Defined.

(** X6: at the default [tzinfo] the periods of a class tile the calendar: a
    period built from one date is the period built from any other instant of
    the same zone that it holds, in particular from its own start. *)
Theorem period_of_any_of_its_dates (st : Settings) (c : Variant)
    (ev : list Event) (date : datetime) (pp pool : option (list Occurrence))
    (p : Period) :
  valid date -> new_variant st c ev date pp pool = Ok p ->
  new_variant st c ev (start p) pp pool = Ok p
  /\ (forall date' : datetime,
        valid date' ->
        dt_le (start p) date' = true -> dt_lt date' (end_ p) = true ->
        new_variant st c ev date' pp pool = Ok p).
Proof.
  intros Hv H. destruct (new_variant_inv _ _ _ _ _ _ _ Hv H) as (Hlo & Hhi & ->).
  pose proof (toordinal_range date Hv) as Hr.
  pose proof (bounds_contains st c (toordinal date) ltac:(lia)) as Hin.
  cbn [start end_ Period__init__].
  assert (Hany : forall date' : datetime,
            valid date' ->
            dt_le (day_at (fst (bounds st c (toordinal date)))) date' = true ->
            dt_lt date' (day_at (snd (bounds st c (toordinal date)))) = true ->
            new_variant st c ev date' pp pool
            = Ok (Period__init__ (Some c) ev
                    (day_at (fst (bounds st c (toordinal date))))
                    (day_at (snd (bounds st c (toordinal date)))) pp
                    (match c with KYear => None | _ => pool end))).
  { intros date' Hv' H1 H2.
    rewrite dt_le_day_at_l in H1 by (auto; lia).
    rewrite dt_lt_day_at_r in H2 by (auto; lia).
    apply Z.leb_le in H1. apply Z.ltb_lt in H2.
    pose proof (toordinal_range date' Hv') as Hr'.
    pose proof (bounds_same st c (toordinal date) (toordinal date')
                  ltac:(lia) ltac:(lia) ltac:(lia)) as Hsame.
    rewrite <- Hsame. apply new_variant_ok; rewrite ?Hsame; assumption. }
  split; [|exact Hany].
  apply Hany.
  - apply valid_day_at. lia.
  - apply dt_le_refl.
  - rewrite dt_lt_day_at by lia. apply Z.ltb_lt. lia.
Qed.

Lemma period_of_any_of_its_dates_witness :
  exists p : Period,
    Month [] (mk_datetime 2024 2 15 0 0 0 0) None None = Ok p
    /\ Month [] (mk_datetime 2024 2 29 23 59 59 999999) None None = Ok p.
Proof.
  assert (H : Month [] (mk_datetime 2024 2 15 0 0 0 0) None None
              = Ok february_2024) by (vm_compute; reflexivity).
  exists february_2024. split; [exact H|].
  destruct (period_of_any_of_its_dates settings_monday KMonth []
              (mk_datetime 2024 2 15 0 0 0 0) None None _ eq_refl H)
    as [_ Hany].
  apply (Hany (mk_datetime 2024 2 29 23 59 59 999999)); reflexivity.
Defined.

(** X7: two periods of one class, both built at the default [tzinfo] from
    dates of the module's zone, are the same range or do not overlap: one is
    over when the other starts. *)
Theorem periods_equal_or_apart (st : Settings) (c : Variant)
    (ev1 ev2 : list Event) (date1 date2 : datetime)
    (pp1 pool1 pp2 pool2 : option (list Occurrence)) (p q : Period) :
  valid date1 -> valid date2 ->
  new_variant st c ev1 date1 pp1 pool1 = Ok p ->
  new_variant st c ev2 date2 pp2 pool2 = Ok q ->
  range p = range q
  \/ dt_le (end_ p) (start q) = true
  \/ dt_le (end_ q) (start p) = true.
Proof.
  intros Hv1 Hv2 Hp Hq.
  destruct (new_variant_inv _ _ _ _ _ _ _ Hv1 Hp) as (Hlo1 & Hhi1 & ->).
  destruct (new_variant_inv _ _ _ _ _ _ _ Hv2 Hq) as (Hlo2 & Hhi2 & ->).
  pose proof (toordinal_range date1 Hv1) as Hr1.
  pose proof (toordinal_range date2 Hv2) as Hr2.
  set (n1 := toordinal date1) in *. set (n2 := toordinal date2) in *.
  pose proof (bounds_contains st c n1 ltac:(lia)) as Hin1.
  pose proof (bounds_contains st c n2 ltac:(lia)) as Hin2.
  unfold range. cbn [start end_ Period__init__].
  rewrite !dt_le_day_at by lia. rewrite !Z.leb_le.
  destruct (Z.le_gt_cases (snd (bounds st c n1)) (fst (bounds st c n2)))
    as [?|Hgt1]; [tauto|].
  destruct (Z.le_gt_cases (snd (bounds st c n2)) (fst (bounds st c n1)))
    as [?|Hgt2]; [tauto|].
  left.
  (* the later of the two starts lies in both periods *)
  destruct (Z.le_gt_cases (fst (bounds st c n1)) (fst (bounds st c n2))).
  - pose proof (bounds_same st c n1 (fst (bounds st c n2)) ltac:(lia)
                  ltac:(lia) ltac:(lia)) as Ha.
    pose proof (bounds_same st c n2 (fst (bounds st c n2)) ltac:(lia)
                  ltac:(lia) ltac:(lia)) as Hb.
    rewrite <- Ha, Hb. reflexivity.
  - pose proof (bounds_same st c n1 (fst (bounds st c n1)) ltac:(lia)
                  ltac:(lia) ltac:(lia)) as Ha.
    pose proof (bounds_same st c n2 (fst (bounds st c n1)) ltac:(lia)
                  ltac:(lia) ltac:(lia)) as Hb.
    rewrite <- Ha, Hb. reflexivity.
Qed.

Lemma periods_equal_or_apart_witness :
  exists p q : Period,
    Week settings_monday [] (at_midnight 2024 2 15) None None = Ok p
    /\ Week settings_monday [] (at_midnight 2024 2 19) None None = Ok q
    /\ dt_le (end_ p) (start q) = true.
Proof.
  assert (Hp : Week settings_monday [] (at_midnight 2024 2 15) None None
               = Ok week_of_2024_02_15) by (vm_compute; reflexivity).
  assert (Hq : Week settings_monday [] (at_midnight 2024 2 19) None None
               = Ok (Period__init__ (Some KWeek) [] (at_midnight 2024 2 19)
                       (at_midnight 2024 2 26) None None))
    by (vm_compute; reflexivity).
  eexists _, _. split; [exact Hp|]. split; [exact Hq|].
  destruct (periods_equal_or_apart settings_monday KWeek [] []
              (at_midnight 2024 2 15) (at_midnight 2024 2 19)
              None None None None _ _ eq_refl eq_refl Hp Hq) as [H|[H|H]].
  - discriminate H.
  - exact H.
  - discriminate H.
Defined.

(** ** Neighbours *)

Lemma bounds_next_start (st : Settings) (c : Variant) (n : Z) :
  1 <= n -> 1 <= fst (bounds st c n) ->
  fst (bounds st c (snd (bounds st c n))) = snd (bounds st c n).
Proof.
  intros Hn Hlo. pose proof (bounds_contains st c n Hn) as Hin.
  set (a := fst (bounds st c n)) in *. set (b := snd (bounds st c n)) in *.
  pose proof (bounds_contains st c b ltac:(lia)) as Hb.
  destruct (Z.eq_dec (fst (bounds st c b)) b) as [?|Hne]; [assumption|].
  exfalso.
  pose proof (bounds_same st c b (b - 1) ltac:(lia) ltac:(lia) ltac:(lia))
    as H1.
  pose proof (bounds_same st c n (b - 1) Hn ltac:(lia) ltac:(fold a b; lia))
    as H2.
  rewrite H1 in H2. fold b in Hb.
  assert (snd (bounds st c b) = b) by (rewrite H2; reflexivity). lia.
Qed.

Lemma bounds_prev_end (st : Settings) (c : Variant) (n : Z) :
  1 <= n -> 2 <= fst (bounds st c n) ->
  snd (bounds st c (fst (bounds st c n) - 1)) = fst (bounds st c n).
Proof.
  intros Hn Hlo. pose proof (bounds_contains st c n Hn) as Hin.
  set (a := fst (bounds st c n)) in *. set (b := snd (bounds st c n)) in *.
  pose proof (bounds_contains st c (a - 1) ltac:(lia)) as Ha.
  destruct (Z.le_gt_cases (snd (bounds st c (a - 1))) a) as [?|Hgt]; [lia|].
  exfalso.
  pose proof (bounds_same st c (a - 1) a ltac:(lia) ltac:(lia) ltac:(lia))
    as H1.
  pose proof (bounds_same st c n a Hn ltac:(lia) ltac:(fold a b; lia)) as H2.
  rewrite H1 in H2.
  assert (fst (bounds st c (a - 1)) = a) by (rewrite H2; reflexivity). lia.
Qed.

Lemma bounds_at_start (st : Settings) (c : Variant) (n : Z) :
  1 <= n -> 1 <= fst (bounds st c n) ->
  bounds st c (fst (bounds st c n)) = bounds st c n.
Proof.
  intros Hn Hlo. pose proof (bounds_contains st c n Hn).
  apply bounds_same; lia.
Qed.

Lemma day_at_fields (k : Z) :
  1 <= k ->
  exists y m d, _ord2ymd k = (y, m, d) /\ date_ok y m d
                /\ day_at k = mk_datetime y m d 0 0 0 0.
Proof.
  intros Hk. destruct (day_at_unfold k Hk) as (y & m & d & Heq & Hok & Hord).
  exists y, m, d. split; [|split; assumption].
  rewrite <- Hord. apply ord2ymd_ymd2ord. exact Hok.
Qed.

Lemma next_new_variant (st : Settings) (c : Variant) (p : Period) :
  cls p = Some c ->
  next st p = new_variant st c (events p) (end_ p) None None.
Proof. intros H. unfold next. rewrite H. destruct c; reflexivity. Qed.

(** [prev] is the period that holds the last day before the start. *)
Lemma prev_new_variant (st : Settings) (c : Variant) (ev : list Event)
    (n : Z) (pp pool : option (list Occurrence)) :
  1 <= n -> 1 <= fst (bounds st c n) -> fst (bounds st c n) <= _MAXORDINAL ->
  prev st (Period__init__ (Some c) ev (day_at (fst (bounds st c n)))
             (day_at (snd (bounds st c n))) pp pool)
  = if 2 <=? fst (bounds st c n)
    then new_variant st c ev (day_at (fst (bounds st c n) - 1)) None None
    else Raise (match c with KYear => ValueError | _ => OverflowError end).
Proof.
  intros Hn Hlo Hhi. pose proof (bounds_contains st c n Hn) as Hin.
  unfold prev. cbn [cls start events Period__init__].
  destruct c.
  - (* Year *)
    unfold prev_year. cbn [start events Period__init__ new_variant].
    revert Hlo Hhi Hin. cbn [bounds].
    destruct (ord2ymd_spec n Hn) as (y & m & d & -> & Hy & Hm & Hd & Hord).
    cbn [fst snd]. intros Hlo Hhi Hin.
    rewrite <- (first_of_day_at y 1) by lia.
    cbn [first_of year month day].
    destruct (Z.leb_spec 2 (_ymd2ord y 1 1)) as [H2|H2].
    + assert (Hy2 : 2 <= y).
      { destruct (Z.le_gt_cases 2 y); [assumption|].
        replace y with 1 in H2 by lia. vm_compute in H2. lia. }
      assert (Hymax : y <= MAXYEAR).
      { destruct (Z.le_gt_cases y MAXYEAR); [assumption|exfalso].
        assert (_ymd2ord 9999 12 31 < _ymd2ord y 1 1)
          by (apply ymd2ord_lt_year; try apply date_ok_first;
              unfold MAXYEAR in *; try lia; vm_compute; intuition discriminate).
        change (_ymd2ord 9999 12 31) with _MAXORDINAL in *. lia. }
      rewrite new_datetime_ok
        by (try apply date_ok_first; unfold MAXYEAR in *; lia).
      rewrite bind_Ok.
      (* the day before January 1 lies in the year before *)
      assert (Hprev : _ymd2ord y 1 1 - 1 = _ymd2ord (y - 1) 12 31).
      { destruct (year_ords (y - 1)) as [_ Hb].
        replace (y - 1 + 1) with y in Hb by lia.
        unfold _ymd2ord at 2. pose proof (dbm_last (y - 1)). lia. }
      assert (Hv1 : valid (mk_datetime (y - 1) 1 1 0 0 0 0))
        by (apply valid_intro; [apply date_ok_first|];
            unfold MAXYEAR in *; lia).
      assert (Hv2 : valid (day_at (_ymd2ord y 1 1 - 1)))
        by (apply valid_day_at; lia).
      unfold Year.
      change (_get_year_range ?x) with (variant_range st KYear x).
      rewrite !variant_range_bounds by assumption.
      rewrite toordinal_day_at by lia.
      change (toordinal (mk_datetime (y - 1) 1 1 0 0 0 0))
        with (_ymd2ord (y - 1) 1 1).
      rewrite Hprev. cbn [bounds].
      rewrite !ord2ymd_ymd2ord
        by (try apply date_ok_first; try lia; repeat split; try lia;
            unfold _days_in_month; simpl; lia).
      reflexivity.
    + assert (y = 1).
      { destruct (Z.le_gt_cases y 1); [lia|].
        assert (_ymd2ord 1 1 1 < _ymd2ord y 1 1)
          by (apply ymd2ord_lt_year; try apply date_ok_first; lia).
        change (_ymd2ord 1 1 1) with 1 in *. lia. }
      subst y. reflexivity.
  - (* Month *)
    unfold prev_month, sub_days. cbn [start events Period__init__ new_variant].
    set (a := fst (bounds st KMonth n)) in *.
    destruct (Z.leb_spec 2 a) as [H2|H2].
    + rewrite add_days_day_at by lia. rewrite bind_Ok.
      replace (a + - (1)) with (a - 1) by lia.
      destruct (day_at_fields (a - 1) ltac:(lia))
        as (y & m & d & Hymd & (Hy & Hm & Hd) & Hday).
      assert (Hv : valid (day_at (a - 1))) by (apply valid_day_at; lia).
      destruct (valid_inv _ Hv) as (_ & Hymax & _).
      rewrite Hday in *. unfold replace.
      cbn [year month day hour minute second microsecond] in *.
      rewrite new_datetime_ok by (try apply date_ok_first; lia).
      rewrite bind_Ok. unfold Month.
      change (_get_month_range ?x) with (variant_range st KMonth x).
      rewrite !variant_range_bounds
        by first [assumption
                 | apply valid_intro; [apply date_ok_first; lia | assumption]].
      change (toordinal (mk_datetime y m 1 0 0 0 0)) with (_ymd2ord y m 1).
      change (toordinal (mk_datetime y m d 0 0 0 0)) with (_ymd2ord y m d).
      cbn [bounds].
      rewrite !ord2ymd_ymd2ord
        by (try apply date_ok_first; try lia; repeat split; lia).
      reflexivity.
    + rewrite add_days_overflow by lia. reflexivity.
  - (* Week *)
    unfold prev_week, sub_days. cbn [start events Period__init__ new_variant].
    pose proof (week_start_aligned st n) as Hal.
    revert Hlo Hhi Hin Hal. cbn [bounds fst snd].
    set (a := n - week_offset st n). intros Hlo Hhi Hin Hal.
    destruct (Z.leb_spec 2 a) as [H2|H2].
    + destruct (Z.le_gt_cases 1 (a - 7)) as [H7|H7].
      * rewrite add_days_day_at by lia. rewrite bind_Ok.
        replace (a + - (7)) with (a - 7) by lia.
        unfold Week.
        change (_get_week_range st ?x) with (variant_range st KWeek x).
        rewrite !variant_range_bounds by (apply valid_day_at; lia).
        rewrite !toordinal_day_at by lia. cbn [bounds fst snd].
        assert (Ho : week_offset st (a - 7) = 0
                     /\ week_offset st (a - 1) = 6).
        { unfold week_offset in *. destruct (FIRST_DAY_OF_WEEK st =? 1); lia. }
        destruct Ho as [-> ->].
        replace (a - 1 - 6) with (a - 7 - 0) by lia. reflexivity.
      * rewrite add_days_overflow by lia. cbn [mbind result_bind].
        unfold Week.
        change (_get_week_range st ?x) with (variant_range st KWeek x).
        rewrite variant_range_bounds by (apply valid_day_at; lia).
        rewrite toordinal_day_at by lia. cbn [bounds fst snd].
        assert (Ho : week_offset st (a - 1) = 6).
        { unfold week_offset in *. destruct (FIRST_DAY_OF_WEEK st =? 1); lia. }
        rewrite Ho.
        destruct (Z.leb_spec 1 (a - 1 - 6)); [lia|]. reflexivity.
    + rewrite add_days_overflow by lia. reflexivity.
  - (* Day *)
    unfold prev_day, sub_days. cbn [start events Period__init__ new_variant].
    revert Hlo Hhi Hin. cbn [bounds fst snd]. intros Hlo Hhi Hin.
    destruct (Z.leb_spec 2 n) as [H2|H2].
    + rewrite add_days_day_at by lia. rewrite bind_Ok.
      replace (n + - (1)) with (n - 1) by lia. reflexivity.
    + rewrite add_days_overflow by lia. reflexivity.
Qed.

Lemma bounds_first_pos_any (st : Settings) (c : Variant) (n : Z) :
  8 <= n -> 1 <= fst (bounds st c n).
Proof.
  intros Hn. destruct c; try (apply bounds_first_pos; [lia | tauto]).
  cbn [bounds fst]. pose proof (week_offset_range st n). lia.
Qed.

Lemma bounds_end_max (st : Settings) (c : Variant) (k : Z) :
  1 <= k -> year (day_at k) < MAXYEAR ->
  snd (bounds st c k) <= _MAXORDINAL.
Proof.
  intros Hk. destruct (day_at_fields k Hk)
    as (y & m & d & Hymd & (Hy & Hm & Hd) & ->).
  cbn [year]. intros Hlt. unfold MAXYEAR in *.
  assert (Hord : k = _ymd2ord y m d).
  { destruct (ord2ymd_spec k Hk) as (y' & m' & d' & H' & _ & _ & _ & <-).
    rewrite Hymd in H'. injection H' as <- <- <-. reflexivity. }
  assert (Hk' : k < _ymd2ord 9999 1 1).
  { rewrite Hord. apply ymd2ord_lt_year; try lia; repeat split; try lia.
    unfold _days_in_month; simpl; lia. }
  change (_ymd2ord 9999 1 1) with 3651695 in Hk'. unfold _MAXORDINAL.
  destruct c; cbn [bounds]; rewrite ?Hymd; cbn [snd].
  - pose proof (ymd2ord_max (y + 1) 1 1 ltac:(apply date_ok_first; lia)
                  ltac:(unfold MAXYEAR; lia)). unfold _MAXORDINAL in *. lia.
  - pose proof (month_end_bound y m ltac:(unfold MAXYEAR; lia) Hm
                  ltac:(unfold MAXYEAR; lia)). unfold _MAXORDINAL in *. lia.
  - pose proof (week_offset_range st k). lia.
  - lia.
Qed.

(** X8: [next] and [prev] of the four classes, on a period built at the
    default [tzinfo] (as every period that [next], [prev] and
    [create_sub_period] return is).  The period [next] returns starts
    exactly where this one ends, the period [prev] returns ends
    exactly where this one starts, both are of the same class over the same
    events, and going there and back gives the range one started from.
    [next] is defined for every period that ends before year 9999 and [prev]
    for every period that starts after year 1. *)
Theorem navigation (st : Settings) (c : Variant) (ev : list Event)
    (date : datetime) (pp pool : option (list Occurrence)) (p : Period) :
  valid date -> new_variant st c ev date pp pool = Ok p ->
  (forall n : Period,
     next st p = Ok n ->
     start n = end_ p /\ cls n = Some c /\ events n = ev
     /\ exists p' : Period,
          prev st n = Ok p' /\ range p' = range p /\ events p' = ev)
  /\ (forall q : Period,
        prev st p = Ok q ->
        end_ q = start p /\ cls q = Some c /\ events q = ev
        /\ exists p' : Period,
             next st q = Ok p' /\ range p' = range p /\ events p' = ev)
  /\ (year (end_ p) < MAXYEAR -> exists n : Period, next st p = Ok n)
  /\ (1 < year (start p) -> exists q : Period, prev st p = Ok q).
Proof.
  intros Hv H. destruct (new_variant_inv _ _ _ _ _ _ _ Hv H) as (Hlo & Hhi & ->).
  pose proof (toordinal_range date Hv) as Hr.
  set (n0 := toordinal date) in *.
  pose proof (bounds_contains st c n0 ltac:(lia)) as Hin.
  pose proof (bounds_next_start st c n0 ltac:(lia) Hlo) as Hnext.
  set (a := fst (bounds st c n0)) in *. set (b := snd (bounds st c n0)) in *.
  assert (Hvb : valid (day_at b)) by (apply valid_day_at; lia).
  assert (Hva : valid (day_at a)) by (apply valid_day_at; lia).
  rewrite (next_new_variant st c) by reflexivity.
  cbn [start end_ events Period__init__].
  assert (Hsame : forall k, a <= k < b -> bounds st c k = bounds st c n0).
  { intros k Hk. apply bounds_same; fold a b; lia. }
  split; [|split; [|split]].
  - intros n Hn.
    destruct (new_variant_inv _ _ _ _ _ _ _ Hvb Hn) as (Hlo' & Hhi' & ->).
    rewrite toordinal_day_at in * by lia.
    cbn [start end_ cls events Period__init__].
    split; [rewrite Hnext; reflexivity|]. do 2 (split; [reflexivity|]).
    rewrite prev_new_variant by (rewrite ?Hnext; lia).
    rewrite Hnext. destruct (Z.leb_spec 2 b); [|lia].
    rewrite new_variant_ok; rewrite ?toordinal_day_at, ?Hsame by lia;
      [|apply valid_day_at; lia|exact Hlo|exact Hhi].
    eexists. split; [reflexivity|]. split; reflexivity.
  - intros q Hq. unfold a, b in Hq.
    rewrite prev_new_variant in Hq by (fold a; lia). fold a in Hq.
    destruct (Z.leb_spec 2 a) as [H2|H2]; [|discriminate].
    assert (Hva1 : valid (day_at (a - 1))) by (apply valid_day_at; lia).
    destruct (new_variant_inv _ _ _ _ _ _ _ Hva1 Hq) as (Hlo' & Hhi' & ->).
    rewrite toordinal_day_at in * by lia.
    pose proof (bounds_prev_end st c n0 ltac:(lia) ltac:(fold a; lia)) as Hprev.
    fold a in Hprev.
    rewrite (next_new_variant st c) by reflexivity.
    cbn [start end_ cls events Period__init__].
    rewrite Hprev. repeat split.
    rewrite new_variant_ok; rewrite ?toordinal_day_at, ?Hsame by lia;
      [|exact Hva|exact Hlo|exact Hhi].
    eexists. split; [reflexivity|]. split; reflexivity.
  - intros Hy.
    pose proof (bounds_end_max st c b ltac:(lia) Hy) as Hmax.
    rewrite new_variant_ok; rewrite ?toordinal_day_at by lia;
      [eexists; reflexivity | exact Hvb | lia | exact Hmax].
  - intros Hy. unfold a, b.
    rewrite prev_new_variant by (fold a; lia). fold a.
    assert (Ha : 366 <= a).
    { destruct (day_at_fields a ltac:(lia))
        as (y & m & d & Hymd & Hok & Hday).
      rewrite Hday in Hy. cbn [year] in Hy.
      destruct (ord2ymd_spec a ltac:(lia))
        as (y' & m' & d' & H' & _ & _ & _ & Hord).
      rewrite Hymd in H'. injection H' as <- <- <-.
      assert (_ymd2ord 1 12 31 < _ymd2ord y m d)
        by (apply ymd2ord_lt_year; try assumption; try lia;
            vm_compute; intuition discriminate).
      change (_ymd2ord 1 12 31) with 365 in *. lia. }
    destruct (Z.leb_spec 2 a); [|lia].
    pose proof (bounds_prev_end st c n0 ltac:(lia) ltac:(fold a; lia)) as Hprev.
    fold a in Hprev.
    rewrite new_variant_ok; rewrite ?toordinal_day_at by lia;
      [eexists; reflexivity | apply valid_day_at; lia
       | apply bounds_first_pos_any; lia | rewrite Hprev; lia].
Qed.

Lemma navigation_witness :
  exists p n p' : Period,
    Month [] (mk_datetime 2024 12 25 0 0 0 0) None None = Ok p
    /\ next settings_monday p = Ok n
    /\ start n = at_midnight 2025 1 1
    /\ prev settings_monday n = Ok p'
    /\ range p' = (at_midnight 2024 12 1, at_midnight 2025 1 1).
Proof.
  assert (Hp : Month [] (mk_datetime 2024 12 25 0 0 0 0) None None
               = Ok (Period__init__ (Some KMonth) [] (at_midnight 2024 12 1)
                       (at_midnight 2025 1 1) None None))
    by (vm_compute; reflexivity).
  destruct (navigation settings_monday KMonth []
              (mk_datetime 2024 12 25 0 0 0 0) None None _ eq_refl Hp)
    as (Hnext & _ & Hex & _).
  destruct Hex as [n Hn]; [vm_compute; reflexivity|].
  destruct (Hnext n Hn) as (H1 & _ & _ & p' & H2 & H3 & _).
  eexists _, n, p'. split; [exact Hp|]. split; [exact Hn|].
  split; [exact H1|]. split; [exact H2 | exact H3].
Defined.

(** ** Enclosing periods *)

Lemma new_variant_same_bounds (st : Settings) (c : Variant) (ev : list Event)
    (d1 d2 : datetime) (pp pool : option (list Occurrence)) :
  valid d1 -> valid d2 ->
  bounds st c (toordinal d1) = bounds st c (toordinal d2) ->
  new_variant st c ev d1 pp pool = new_variant st c ev d2 pp pool.
Proof.
  intros H1 H2 H. rewrite !new_variant_range, !variant_range_bounds
    by assumption.
  rewrite H. reflexivity.
Qed.

(** Months lie within years. *)
Lemma bounds_month_in_year (st : Settings) (n : Z) :
  1 <= n ->
  fst (bounds st KYear n) <= fst (bounds st KMonth n)
  /\ snd (bounds st KMonth n) <= snd (bounds st KYear n).
Proof.
  intros Hn. cbn [bounds].
  destruct (ord2ymd_spec n Hn) as (y & m & d & -> & Hy & Hm & Hd & <-).
  cbn [fst snd]. destruct (year_ords y) as [-> ->].
  pose proof (dbm_day_bounds y m 1 Hm
                ltac:(pose proof (dim_bounds y m Hm); lia)) as H1.
  pose proof (dbm_day_bounds y m (_days_in_month y m) Hm
                ltac:(pose proof (dim_bounds y m Hm); lia)) as H2.
  unfold _ymd2ord. lia.
Qed.

(** A period built from the start of a smaller one it encloses is the one
    built from the date the smaller one was built from. *)
Lemma enclosing_new_variant (st : Settings) (c c' : Variant) (ev : list Event)
    (date : datetime) (pp pool pp' pool' : option (list Occurrence))
    (p : Period) :
  valid date ->
  c = KDay \/ (c = KMonth /\ c' = KYear) ->
  new_variant st c ev date pp pool = Ok p ->
  new_variant st c' ev (start p) pp' pool'
  = new_variant st c' ev date pp' pool'
  /\ (forall q : Period,
        new_variant st c' ev date pp' pool' = Ok q -> inside p q).
Proof.
  intros Hv Hc H.
  destruct (new_variant_inv _ _ _ _ _ _ _ Hv H) as (Hlo & Hhi & ->).
  pose proof (toordinal_range date Hv) as Hr.
  set (n := toordinal date) in *.
  pose proof (bounds_contains st c n ltac:(lia)) as Hin.
  pose proof (bounds_contains st c' n ltac:(lia)) as Hin'.
  assert (Hnest : fst (bounds st c' n) <= fst (bounds st c n)
                  /\ snd (bounds st c n) <= snd (bounds st c' n)).
  { destruct Hc as [-> | [-> ->]].
    - cbn [bounds fst snd] in *. lia.
    - apply bounds_month_in_year. lia. }
  cbn [start end_ Period__init__]. split.
  - apply new_variant_same_bounds; [apply valid_day_at; lia | assumption |].
    rewrite toordinal_day_at by lia. fold n. apply bounds_same; lia.
  - intros q Hq.
    destruct (new_variant_inv _ _ _ _ _ _ _ Hv Hq) as (Hlo' & Hhi' & ->).
    unfold inside. cbn [start end_ Period__init__]. fold n in Hlo', Hhi' |- *.
    rewrite !dt_le_day_at by lia. rewrite !Z.leb_le. lia.
Qed.

(** X9: the enclosing periods, for periods built at the default [tzinfo]
    from a date of the module's zone.  For a Day built from a date,
    [current_week], [current_month] and [current_year] are the Week, the
    Month and the Year built from that date, and for a Month [current_year]
    is the Year built from it; the enclosing period, when there is one, holds
    the whole of the smaller one.  A Week need not lie within one month or
    year: [current_month] and [current_year] of a Week are the ones that hold
    the first day of the week. *)
Theorem enclosing_periods (st : Settings) (ev : list Event) (date : datetime)
    (pp pool : option (list Occurrence)) :
  valid date ->
  (forall d : Period,
     Day ev date pp pool = Ok d ->
     current_week st d = Week st ev date None None
     /\ current_month d = Month ev date None None
     /\ current_year d = Year ev date None
     /\ (forall q : Period,
           current_week st d = Ok q \/ current_month d = Ok q
           \/ current_year d = Ok q ->
           inside d q))
  /\ (forall m : Period,
        Month ev date pp pool = Ok m ->
        current_year m = Year ev date None
        /\ (forall q : Period, current_year m = Ok q -> inside m q))
  /\ (forall w : Period,
        Week st ev date pp pool = Ok w ->
        forall q : Period,
          current_month w = Ok q \/ current_year w = Ok q ->
          within (start w) (range q)).
Proof.
  intros Hv. split; [|split].
  - intros d Hd.
    assert (Hev : events d = ev).
    { destruct (new_variant_inv st KDay _ _ _ _ _ Hv Hd) as (_ & _ & ->).
      reflexivity. }
    pose proof (fun c' => enclosing_new_variant st KDay c' ev date pp pool
                            None None d Hv ltac:(left; reflexivity) Hd) as E.
    unfold current_week, current_month, current_year. rewrite Hev.
    destruct (E KWeek) as [Ew Iw]. destruct (E KMonth) as [Em Im].
    destruct (E KYear) as [Ey Iy]. cbn [new_variant] in *.
    split; [exact Ew|]. split; [exact Em|]. split; [exact Ey|].
    intros q [Hq | [Hq | Hq]].
    + apply Iw. rewrite <- Ew. exact Hq.
    + apply Im. rewrite <- Em. exact Hq.
    + apply Iy. rewrite <- Ey. exact Hq.
  - intros m Hm.
    assert (Hev : events m = ev).
    { destruct (new_variant_inv st KMonth _ _ _ _ _ Hv Hm) as (_ & _ & ->).
      reflexivity. }
    destruct (enclosing_new_variant st KMonth KYear ev date pp pool
                None None m Hv ltac:(right; split; reflexivity) Hm)
      as [Ey Iy].
    unfold current_year. rewrite Hev. cbn [new_variant] in *.
    split; [exact Ey|]. intros q Hq. apply Iy. rewrite <- Ey. exact Hq.
  - intros w Hw q Hq.
    destruct (new_variant_inv st KWeek _ _ _ _ _ Hv Hw) as (Hlo & Hhi & ->).
    pose proof (toordinal_range date Hv) as Hr.
    pose proof (bounds_contains st KWeek (toordinal date) ltac:(lia)) as Hin.
    set (a := fst (bounds st KWeek (toordinal date))) in *.
    assert (Hva : valid (day_at a)) by (apply valid_day_at; lia).
    unfold current_month, current_year in Hq.
    cbn [start events Period__init__] in *.
    assert (Hc : exists c', new_variant st c' ev (day_at a) None None = Ok q).
    { destruct Hq as [Hq | Hq]; [exists KMonth | exists KYear]; exact Hq. }
    destruct Hc as [c' Hc].
    destruct (new_variant_inv _ _ _ _ _ _ _ Hva Hc) as (Hlo' & Hhi' & ->).
    rewrite toordinal_day_at in * by lia.
    pose proof (bounds_contains st c' a ltac:(lia)) as Hin'.
    unfold range. cbn [start end_ Period__init__].
    apply within_day_at; [assumption | lia | lia |].
    rewrite toordinal_day_at by lia. lia.
Qed.

Lemma enclosing_periods_witness :
  exists d q : Period,
    Day [] (mk_datetime 2024 2 29 17 45 0 0) None None = Ok d
    /\ current_month d = Ok q
    /\ range q = (at_midnight 2024 2 1, at_midnight 2024 3 1)
    /\ inside d q.
Proof.
  assert (Hd : Day [] (mk_datetime 2024 2 29 17 45 0 0) None None
               = Ok (Period__init__ (Some KDay) [] (at_midnight 2024 2 29)
                       (at_midnight 2024 3 1) None None))
    by (vm_compute; reflexivity).
  destruct (enclosing_periods settings_monday []
              (mk_datetime 2024 2 29 17 45 0 0) None None eq_refl)
    as (HD & _ & _).
  destruct (HD _ Hd) as (_ & Hm & _ & Hin).
  assert (Hq : current_month
                 (Period__init__ (Some KDay) [] (at_midnight 2024 2 29)
                    (at_midnight 2024 3 1) None None)
               = Ok february_2024)
    by (rewrite Hm; vm_compute; reflexivity).
  eexists _, _. split; [exact Hd|]. split; [exact Hq|].
  split; [reflexivity|]. apply Hin. right. left. exact Hq.
Defined.

(** ** The years next to a month *)

(** X10: [Month.next_year] and [Month.prev_year].  [next_year] is what
    [current_year().next()] gives, error included, and so is [prev_year]
    against [current_year().prev()] in every year before 9999; when they
    return, the result is the whole calendar year after, respectively before,
    the month's year.  A month of year 9999 has a [prev_year] although its
    [current_year] is refused. *)
Theorem month_adjacent_years (ev : list Event) (date : datetime)
    (pp pool : option (list Occurrence)) (m : Period) :
  valid date -> Month ev date pp pool = Ok m ->
  Month_next_year m = (y ← current_year m; next_year y)
  /\ (year date < MAXYEAR ->
      Month_prev_year m = (y ← current_year m; prev_year y))
  /\ (year date = MAXYEAR ->
      current_year m = Raise ValueError
      /\ Month_prev_year m
         = Ok (Period__init__ (Some KYear) ev (at_midnight 9998 1 1)
                 (at_midnight 9999 1 1) None None))
  /\ (forall q : Period,
        Month_next_year m = Ok q ->
        q = Period__init__ (Some KYear) ev (at_midnight (year date + 1) 1 1)
              (at_midnight (year date + 2) 1 1) None None)
  /\ (forall q : Period,
        Month_prev_year m = Ok q ->
        q = Period__init__ (Some KYear) ev (at_midnight (year date - 1) 1 1)
              (at_midnight (year date) 1 1) None None)
  /\ (year date + 1 < MAXYEAR -> exists q : Period, Month_next_year m = Ok q)
  /\ (1 < year date -> exists q : Period, Month_prev_year m = Ok q).
Proof.
  intros Hv Hm. destruct (Month_inv _ _ _ _ _ Hv Hm) as (Hno & ->).
  destruct (valid_inv date Hv) as ((Hy1 & Hmo & _) & Hmax & _).
  set (y := year date) in *. set (mo := month date) in *.
  unfold Month_next_year, Month_prev_year, current_year, replace.
  cbn [start events Period__init__ month_range fst first_of year month day
       hour minute second microsecond datetime_min].
  unfold first_of.
  assert (Hcur : y < MAXYEAR ->
            Year ev (mk_datetime y mo 1 0 0 0 0) None
            = Ok (Period__init__ (Some KYear) ev (first_of y 1)
                    (first_of (y + 1) 1) None None)).
  { intros Hlt. unfold Year. rewrite get_year_range_ok;
      [reflexivity | apply valid_intro; [apply date_ok_first|]; lia
       | exact Hlt]. }
  assert (Hyear : forall k, 1 <= k < MAXYEAR ->
            Year ev (mk_datetime k 1 1 0 0 0 0) None
            = Ok (Period__init__ (Some KYear) ev (at_midnight k 1 1)
                    (at_midnight (k + 1) 1 1) None None)).
  { intros k Hk. unfold Year. rewrite get_year_range_ok;
      [reflexivity | apply valid_intro; [apply date_ok_first|]; lia
       | apply Hk]. }
  assert (Hlast : Year ev (mk_datetime MAXYEAR 1 1 0 0 0 0) None
                  = Raise ValueError).
  { unfold Year. rewrite get_year_range_overflow;
      [reflexivity | reflexivity | reflexivity]. }
  assert (Hnew : forall k, 1 <= k <= MAXYEAR ->
            new_datetime k 1 1 0 0 0 0 = Ok (mk_datetime k 1 1 0 0 0 0)).
  { intros k Hk. apply new_datetime_ok; [apply date_ok_first|]; lia. }
  assert (Hbad : forall k, k < 1 \/ MAXYEAR < k ->
            new_datetime k 1 1 0 0 0 0 = Raise ValueError).
  { intros k Hk.
    with_strategy transparent [new_datetime] unfold new_datetime.
    replace (_check_date_fields k 1 1) with false; [reflexivity|].
    symmetry. unfold _check_date_fields, MINYEAR, MAXYEAR in *.
    apply andb_false_iff. left. apply andb_false_iff. left.
    apply andb_false_iff. left. apply andb_false_iff.
    rewrite !Z.leb_gt. lia. }
  unfold MAXYEAR in *.
  split; [|split; [|split; [|split; [|split; [|split]]]]].
  - destruct (Z.eq_dec y 9999) as [E|E].
    + rewrite Hbad by lia. rewrite bind_Raise.
      unfold Year at 1.
      rewrite get_year_range_overflow;
        [reflexivity | apply valid_intro; [apply date_ok_first|];
                       unfold MAXYEAR; lia | exact E].
    + rewrite Hcur by lia. rewrite bind_Ok. unfold next_year.
      cbn [events end_ Period__init__ first_of].
      rewrite Hnew by lia. rewrite bind_Ok. reflexivity.
  - intros Hlt. rewrite Hcur by lia. rewrite bind_Ok. unfold prev_year.
    cbn [events start Period__init__ first_of year month day]. reflexivity.
  - intros E. split.
    + unfold Year. rewrite get_year_range_overflow;
        [reflexivity | apply valid_intro; [apply date_ok_first|];
                       unfold MAXYEAR; lia | exact E].
    + rewrite E. rewrite Hnew by lia. rewrite bind_Ok.
      apply (Hyear 9998). lia.
  - intros q. destruct (Z_lt_le_dec (y + 1) 9999) as [Hlt|Hge].
    + rewrite Hnew by lia. rewrite bind_Ok, Hyear by lia.
      intros [= <-]. replace (y + 1 + 1) with (y + 2) by lia. reflexivity.
    + destruct (Z.eq_dec y 9999) as [E|E].
      * rewrite Hbad by lia. discriminate.
      * replace (y + 1) with 9999 by lia. rewrite Hnew by lia.
        rewrite bind_Ok, Hlast.
        discriminate.
  - intros q. destruct (Z_lt_le_dec 1 y) as [Hlt|Hge].
    + rewrite Hnew by lia. rewrite bind_Ok, Hyear by lia.
      intros [= <-]. replace (y - 1 + 1) with y by lia. reflexivity.
    + rewrite Hbad by lia. discriminate.
  - intros Hlt. rewrite Hnew by lia. rewrite bind_Ok, Hyear by lia.
    eexists. reflexivity.
  - intros Hlt. rewrite Hnew by lia. rewrite bind_Ok, Hyear by lia.
    eexists. reflexivity.
Qed.

Lemma month_adjacent_years_witness :
  Month_next_year february_2024
  = Ok (Period__init__ (Some KYear) [] (at_midnight 2025 1 1)
          (at_midnight 2026 1 1) None None)
  /\ (y ← current_year february_2024; next_year y)
     = Month_next_year february_2024.
Proof.
  assert (Hm : Month [] (mk_datetime 2024 2 15 0 0 0 0) None None
               = Ok february_2024) by (vm_compute; reflexivity).
  destruct (month_adjacent_years [] (mk_datetime 2024 2 15 0 0 0 0) None None
              february_2024 eq_refl Hm) as (H1 & _ & _ & H4 & _ & H6 & _).
  destruct H6 as [q Hq]; [vm_compute; reflexivity|].
  split; [|symmetry; exact H1].
  rewrite Hq. f_equal. exact (H4 q Hq).
Defined.

(** ** Children and their parent *)

Lemma occurrences_of_setattr (self : Period) (name : string)
    (v : list Occurrence) :
  name <> "_occurrences"%string ->
  occurrences_of (setattr self name v) = occurrences_of self.
Proof.
  intros Hne. unfold occurrences_of, cached_get_sorted_occurrences, setattr.
  cbn [attrs]. rewrite lookup_insert_ne by assumption.
  destruct (attrs self !! "_occurrences"%string); reflexivity.
Qed.

Lemma after_sub_parent (st : Settings) (self : Period) :
  parent_after st self (after_sub st self).
Proof.
  destruct (after_sub_fields st self) as (H1 & H2 & H3 & H4 & H5).
  unfold parent_after. rewrite H1, H2, H3, H4, H5.
  do 5 (split; [reflexivity|]).
  unfold after_sub, occurrences_of, cached_get_sorted_occurrences, setattr.
  cbn [attrs]. rewrite lookup_insert_ne by discriminate.
  destruct (attrs self !! "_occurrences"%string) as [occs|] eqn:E;
    cbn [fst snd attrs].
  - rewrite lookup_insert_ne by discriminate. rewrite E.
    split; [reflexivity | apply lookup_insert_eq].
  - rewrite lookup_insert_eq. rewrite lookup_insert_ne by discriminate.
    rewrite lookup_insert_eq. split; reflexivity.
Qed.

Lemma parent_after_occurrences (st : Settings) (parent self : Period) :
  parent_after st parent self -> occurrences_of self = occurrences_of parent.
Proof.
  intros (_ & _ & _ & _ & _ & H & _). unfold occurrences_of at 1.
  rewrite (cached_hit self _ H). reflexivity.
Qed.

Lemma parent_after_trans (st : Settings) (parent self : Period) :
  parent_after st parent self ->
  parent_after st parent (after_sub st self).
Proof.
  intros H. pose proof (parent_after_occurrences st parent self H) as Ho.
  destruct H as (H1 & H2 & H3 & H4 & H5 & H6 & H7).
  destruct (after_sub_parent st self) as (G1 & G2 & G3 & G4 & G5 & G6 & G7).
  unfold parent_after. rewrite G1, G2, G3, G4, G5, G6, G7, Ho, H4.
  repeat split; assumption.
Qed.

(** The child [create_sub_period] returns. *)
Lemma create_sub_period_child (st : Settings) (c : Variant)
    (so : option datetime) (parent self : Period) (w : World)
    (child self' : Period) (w' : World) :
  no_typo_attr self ->
  self = parent \/ parent_after st parent self ->
  create_sub_period st c so self w = Ok (child, self', w') ->
  child_of st c parent child
  /\ self' = after_sub st self
  /\ storage_queries w' = S (storage_queries w)
  /\ sub_range st c (default (start self) so) = Ok (range child).
Proof.
  intros Hinv Hrel H. rewrite create_sub_period_spec in H by assumption.
  destruct (sub_range st c (default (start self) so)) as [[s e]|]; [|discriminate].
  rewrite bind_Ok in H. injection H as <- <- <-. cbn [fst snd].
  assert (Hev : events self = events parent).
  { destruct Hrel as [-> | H]; [reflexivity | apply H]. }
  assert (Hocc : occurrences_of self = occurrences_of parent).
  { destruct Hrel as [-> | H]; [reflexivity|].
    eapply parent_after_occurrences; eassumption. }
  split; [|repeat split].
  unfold child_of, Period__init__. cbn [cls events attrs occurrence_pool].
  rewrite Hev. split; [reflexivity|]. split; [reflexivity|].
  split; [apply lookup_singleton_eq|].
  split; [apply lookup_singleton_ne; discriminate|].
  fold (occurrences_of (setattr self "_persisted_occurrences"
                          (objects_filter st (events parent)))).
  rewrite occurrences_of_setattr by discriminate. rewrite Hocc.
  reflexivity.
Qed.

Lemma get_periods_loop_children (st : Settings) (c : Variant) (parent : Period)
    (fuel : nat) :
  forall (period self : Period) (w : World) (l : list Period) (self' : Period)
         (w' : World),
    no_typo_attr self -> parent_after st parent self ->
    get_periods_loop st c fuel period self w = Some (Ok (l, self', w')) ->
    Forall (child_of st c parent) l
    /\ storage_queries w' = (storage_queries w + length l)%nat
    /\ parent_after st parent self' /\ no_typo_attr self'.
Proof.
  induction fuel as [|fuel IH]; intros period self w l self' w' Hinv Hrel H;
    [discriminate|].
  cbn [get_periods_loop] in H.
  destruct (dt_lt (start period) (end_ self)).
  2:{ injection H as <- <- <-. cbn [length]. rewrite Nat.add_0_r.
      split; [apply Forall_nil; exact I|]. split; [reflexivity|].
      split; assumption. }
  destruct (create_sub_period st c (Some (start period)) self w)
    as [[[child self1] w1]|] eqn:Ec; [|discriminate].
  destruct (create_sub_period_child st c _ parent self w child self1 w1 Hinv
              (or_intror Hrel) Ec) as (Hchild & -> & Hw1 & _).
  destruct (next st period) as [period'|]; [|discriminate].
  destruct (get_periods_loop st c fuel period' (after_sub st self) w1)
    as [[[[rest self2] w2]|]|] eqn:El; try discriminate.
  injection H as <- <- <-.
  destruct (IH period' (after_sub st self) w1 rest self2 w2
              (no_typo_after_sub st self Hinv)
              (parent_after_trans st parent self Hrel) El)
    as (Hall & Hq & Hrel' & Hinv').
  split; [constructor; assumption|].
  split; [cbn [length]; lia|]. split; assumption.
Qed.

(** X11: what [get_periods] makes and what it leaves alone.  Every child it
    yields is of the class asked for, has the parent's events, the storage's
    answer for them as its persisted occurrences and, unless it is a Year,
    the parent's occurrences as its pool.  The storage is asked once for the
    probe period and once more for every child.  The parent keeps its class,
    range, events and pool; its occurrences and persisted occurrences are
    cached on it afterwards. *)
Theorem get_periods_children (st : Settings) (c : Variant) (fuel : nat)
    (parent : Period) (w : World) (l : list Period) (parent' : Period)
    (w' : World) :
  no_typo_attr parent ->
  get_periods st c fuel parent w = Some (Ok (l, parent', w')) ->
  Forall (child_of st c parent) l
  /\ storage_queries w' = (storage_queries w + 1 + length l)%nat
  /\ parent_after st parent parent'.
Proof.
  intros Hinv H. unfold get_periods in H.
  destruct (create_sub_period st c None parent w)
    as [[[period self1] w1]|] eqn:Ec; [|discriminate].
  destruct (create_sub_period_child st c _ parent parent w period self1 w1
              Hinv (or_introl eq_refl) Ec) as (_ & -> & Hw1 & _).
  destruct (get_periods_loop_children st c parent fuel period
              (after_sub st parent) w1 l parent' w'
              (no_typo_after_sub st parent Hinv)
              (after_sub_parent st parent) H) as (Hall & Hq & Hrel & _).
  split; [exact Hall|]. split; [lia | exact Hrel].
Qed.

Lemma get_periods_children_witness :
  exists (l : list Period) (parent' : Period) (w' : World),
    get_days settings_storage 10 week_of_2024_02_15 world0
    = Some (Ok (l, parent', w'))
    /\ length l = 7%nat
    /\ storage_queries w' = 8%nat
    /\ Forall (child_of settings_storage KDay week_of_2024_02_15) l.
Proof.
  assert (H : exists l parent' w',
            get_days settings_storage 10 week_of_2024_02_15 world0
            = Some (Ok (l, parent', w')) /\ length l = 7%nat).
  { eexists _, _, _. split; vm_compute; reflexivity. }
  destruct H as (l & parent' & w' & H & Hlen).
  exists l, parent', w'. split; [exact H|]. split; [exact Hlen|].
  destruct (get_periods_children settings_storage KDay 10 week_of_2024_02_15
              world0 l parent' w' (no_typo_init _ _ _ _ _ _) H)
    as (Hall & Hq & _).
  split; [|exact Hall]. rewrite Hq, Hlen. reflexivity.
Defined.

(** ** Occurrences handed down to children *)

Lemma filter_StronglySorted (f : Occurrence -> bool) (l : list Occurrence) :
  StronglySorted occ_le l -> StronglySorted occ_le (List.filter f l).
Proof.
  induction 1 as [|x l Hl IH Hx]; cbn [List.filter]; [constructor|].
  destruct (f x); [|exact IH]. constructor; [exact IH|].
  rewrite List.Forall_forall in *. intros y Hy.
  apply List.filter_In in Hy. apply Hx, Hy.
Qed.

Lemma fresh_occurrences (self : Period) :
  attrs self !! "_occurrences"%string = None ->
  occurrences_of self = _get_sorted_occurrences self.
Proof.
  intros H. unfold occurrences_of, cached_get_sorted_occurrences.
  rewrite H. reflexivity.
Qed.

Lemma child_occurrences (st : Settings) (c : Variant) (parent child : Period) :
  c <> KYear -> child_of st c parent child ->
  occurrences_of child = List.filter (overlaps child) (occurrences_of parent).
Proof.
  intros Hc (_ & _ & _ & Hfresh & Hpool).
  rewrite fresh_occurrences by assumption.
  unfold _get_sorted_occurrences. rewrite Hpool.
  destruct c; [congruence | reflexivity..].
Qed.

Lemma pool_less_sorted (self : Period) :
  occurrence_pool self = None -> attrs self !! "_occurrences"%string = None ->
  StronglySorted occ_le (occurrences_of self).
Proof.
  intros Hpool Hfresh. rewrite fresh_occurrences by assumption.
  unfold _get_sorted_occurrences. rewrite Hpool. apply sorted_sorted.
Qed.

(** X12: a Month, Week or Day made by [create_sub_period], and so every
    child that [get_periods] yields, asks no event for its occurrences: they
    are the occurrences of the parent that overlap the child, in the
    parent's order.  So they are sorted whenever the parent's are, which is
    the case when the parent has no pool of its own. *)
Theorem sub_period_occurrences (st : Settings) (c : Variant) (parent : Period)
    (w : World) :
  no_typo_attr parent -> c <> KYear ->
  let handed_down (child : Period) : Prop :=
    occurrences_of child
    = List.filter (overlaps child) (occurrences_of parent)
    /\ sublist (occurrences_of child) (occurrences_of parent)
    /\ (StronglySorted occ_le (occurrences_of parent) ->
        StronglySorted occ_le (occurrences_of child))
    /\ (occurrence_pool parent = None ->
        attrs parent !! "_occurrences"%string = None ->
        StronglySorted occ_le (occurrences_of child)) in
  (forall (so : option datetime) (child parent' : Period) (w' : World),
     create_sub_period st c so parent w = Ok (child, parent', w') ->
     handed_down child)
  /\ (forall (fuel : nat) (l : list Period) (parent' : Period) (w' : World),
        get_periods st c fuel parent w = Some (Ok (l, parent', w')) ->
        Forall handed_down l).
Proof.
  intros Hinv Hc handed_down.
  assert (Hchild : forall child, child_of st c parent child ->
                                 handed_down child).
  { intros child H. unfold handed_down.
    rewrite (child_occurrences st c parent child Hc H).
    split; [reflexivity|]. split; [apply filter_sublist|].
    split; [apply filter_StronglySorted|].
    intros Hpool Hfresh. apply filter_StronglySorted.
    apply pool_less_sorted; assumption. }
  split.
  - intros so child parent' w' H. apply Hchild.
    eapply create_sub_period_child; [exact Hinv | left; reflexivity | exact H].
  - intros fuel l parent' w' H.
    unfold get_periods in H.
    destruct (create_sub_period st c None parent w)
      as [[[period self1] w1]|] eqn:Ec; [|discriminate].
    destruct (create_sub_period_child st c _ parent parent w period self1 w1
                Hinv (or_introl eq_refl) Ec) as (_ & -> & _ & _).
    destruct (get_periods_loop_children st c parent fuel period
                (after_sub st parent) w1 l parent' w'
                (no_typo_after_sub st parent Hinv)
                (after_sub_parent st parent) H) as (Hall & _).
    eapply Forall_impl; [exact Hall | exact Hchild].
Qed.

Lemma sub_period_occurrences_witness :
  exists (child parent' : Period) (w' : World),
    create_sub_period settings_monday KDay (Some (at_midnight 2024 1 10))
      january_2024_pool world0 = Ok (child, parent', w')
    /\ occurrences_of january_2024_pool = [occ_spanning; occ_inside]
    /\ occurrences_of child = [occ_spanning; occ_inside]
    /\ sublist (occurrences_of child) (occurrences_of january_2024_pool).
Proof.
  assert (H : exists child parent' w',
            create_sub_period settings_monday KDay
              (Some (at_midnight 2024 1 10)) january_2024_pool world0
            = Ok (child, parent', w')
            /\ occurrences_of child = [occ_spanning; occ_inside]).
  { eexists _, _, _. split; vm_compute; reflexivity. }
  destruct H as (child & parent' & w' & H & Ho).
  exists child, parent', w'. split; [exact H|].
  split; [vm_compute; reflexivity|]. split; [exact Ho|].
  destruct (sub_period_occurrences settings_monday KDay january_2024_pool
              world0 (no_typo_init _ _ _ _ _ _) ltac:(discriminate))
    as [Hsub _].
  exact (proj1 (proj2 (Hsub _ _ _ _ H))).
Defined.

(** ** Partials of a period with a pool *)

Lemma overlaps_not_rejected (p : Period) (o : Occurrence) :
  overlaps p o = true ->
  dt_gt (Occ.start o) (end_ p) || dt_lt (Occ.end_ o) (start p) = false.
Proof.
  unfold overlaps, dt_gt. rewrite andb_true_iff. intros [H1 H2].
  apply orb_false_iff. split.
  - rewrite dt_lt_negb_le, (dt_lt_le _ _ H1). reflexivity.
  - rewrite dt_lt_negb_le, (dt_lt_le _ _ H2). reflexivity.
Qed.

Lemma omap_classify_pool (st : Settings) (p : Period) (l : list Occurrence) :
  Forall (fun o => overlaps p o = true) l ->
  map occurrence (omap (classify_occurrence st p) l)
  = List.filter (fun o => negb (suppressed st o)) l.
Proof.
  induction 1 as [|o l Ho Hl IH]; [reflexivity|].
  cbn [omap list_omap List.filter]. unfold suppressed at 1.
  destruct (Occ.cancelled o && negb (SHOW_CANCELLED_OCCURRENCES st)) eqn:E.
  - replace (classify_occurrence st p o) with (@None Partial).
    + exact IH.
    + symmetry. apply classify_occurrence_none. left. exact E.
  - rewrite classify_occurrence_some
      by (try assumption; apply overlaps_not_rejected; assumption).
    cbn [negb map occurrence]. f_equal. exact IH.
Qed.

(** X13: on a period that takes its occurrences from a pool, the overlap
    test of [_get_sorted_occurrences] is stricter than the rejection test of
    [classify_occurrence], so no occurrence of the period is rejected for
    its position: the partials are the occurrences that are not cancelled
    (all of them when cancelled occurrences are shown), in order, and
    [has_occurrences] tells whether there is one. *)
Theorem pool_partials (st : Settings) (p : Period) (pool : list Occurrence) :
  occurrence_pool p = Some pool ->
  attrs p !! "_occurrences"%string = None ->
  map occurrence (fst (get_occurrence_partials st p))
  = List.filter (fun o => negb (suppressed st o)) (occurrences_of p)
  /\ (SHOW_CANCELLED_OCCURRENCES st = true ->
      map occurrence (fst (get_occurrence_partials st p)) = occurrences_of p)
  /\ (fst (has_occurrences st p) = true
      <-> exists o, In o (occurrences_of p) /\ suppressed st o = false).
Proof.
  intros Hpool Hfresh.
  assert (Hocc : Forall (fun o => overlaps p o = true) (occurrences_of p)).
  { rewrite fresh_occurrences by assumption.
    unfold _get_sorted_occurrences. rewrite Hpool.
    apply List.Forall_forall. intros o Ho.
    apply List.filter_In in Ho. apply Ho. }
  assert (Hpart : fst (get_occurrence_partials st p)
                  = omap (classify_occurrence st p) (occurrences_of p)).
  { unfold get_occurrence_partials, occurrences_of,
      cached_get_sorted_occurrences.
    rewrite Hfresh. reflexivity. }
  assert (Hmap := omap_classify_pool st p (occurrences_of p) Hocc).
  split; [rewrite Hpart; exact Hmap|]. split.
  - intros Hshow. rewrite Hpart, Hmap.
    clear - Hshow. induction (occurrences_of p) as [|o l IH]; [reflexivity|].
    cbn [List.filter]. unfold suppressed at 1. rewrite Hshow, andb_false_r.
    cbn [negb]. f_equal. exact IH.
  - assert (Hhas : fst (has_occurrences st p) = true
                   <-> omap (classify_occurrence st p) (occurrences_of p)
                       <> []).
    { unfold has_occurrences, occurrences_of, cached_get_sorted_occurrences.
      rewrite Hfresh. cbn [fst]. apply existsb_omap. }
    rewrite Hhas. split.
    + intros Hne.
      destruct (List.filter (fun o => negb (suppressed st o))
                  (occurrences_of p)) as [|o l] eqn:E.
      * destruct (omap (classify_occurrence st p) (occurrences_of p));
          [congruence | discriminate].
      * assert (Hin : In o (List.filter (fun o => negb (suppressed st o))
                              (occurrences_of p)))
          by (rewrite E; left; reflexivity).
        apply List.filter_In in Hin. exists o. split; [apply Hin|].
        apply negb_true_iff, Hin.
    + intros (o & Hin & Hs) Hnil. rewrite Hnil in Hmap. cbn [map] in Hmap.
      assert (Hin' : In o (List.filter (fun o => negb (suppressed st o))
                             (occurrences_of p))).
      { apply List.filter_In. split; [exact Hin|]. rewrite Hs. reflexivity. }
      rewrite <- Hmap in Hin'. exact Hin'.
Qed.

Lemma pool_partials_witness :
  map occurrence (fst (get_occurrence_partials settings_monday
                         january_2024_pool))
  = [occ_spanning; occ_inside].
Proof.
  destruct (pool_partials settings_monday january_2024_pool
              [occ_at_end; occ_spanning; occ_inside] eq_refl eq_refl)
    as (H & _).
  rewrite H. vm_compute. reflexivity.
Defined.

(** ** The days of a month and of a week *)

Lemma create_sub_period_eq (st : Settings) (c : Variant)
    (so : option datetime) (parent self : Period) (w : World)
    (child self' : Period) (w' : World) :
  no_typo_attr self ->
  self = parent \/ parent_after st parent self ->
  create_sub_period st c so self w = Ok (child, self', w') ->
  child = sub_period st c parent (range child).
Proof.
  intros Hinv Hrel H. rewrite create_sub_period_spec in H by assumption.
  destruct (sub_range st c (default (start self) so)) as [[s e]|];
    [|discriminate].
  rewrite bind_Ok in H. injection H as <- _ _. cbn [fst snd].
  assert (Hev : events self = events parent).
  { destruct Hrel as [-> | H]; [reflexivity | apply H]. }
  assert (Hocc : occurrences_of self = occurrences_of parent).
  { destruct Hrel as [-> | H]; [reflexivity|].
    eapply parent_after_occurrences; eassumption. }
  fold (occurrences_of (setattr self "_persisted_occurrences"
                          (objects_filter st (events self)))).
  rewrite occurrences_of_setattr by discriminate. rewrite Hocc, Hev.
  reflexivity.
Qed.

Lemma get_periods_loop_list (st : Settings) (c : Variant) (parent : Period)
    (fuel : nat) :
  forall (period self : Period) (w : World) (l : list Period) (self' : Period)
         (w' : World),
    no_typo_attr self -> parent_after st parent self ->
    get_periods_loop st c fuel period self w = Some (Ok (l, self', w')) ->
    l = map (sub_period st c parent) (map range l).
Proof.
  induction fuel as [|fuel IH]; intros period self w l self' w' Hinv Hrel H;
    [discriminate|].
  cbn [get_periods_loop] in H.
  destruct (dt_lt (start period) (end_ self)).
  2:{ injection H as <- _ _. reflexivity. }
  destruct (create_sub_period st c (Some (start period)) self w)
    as [[[child self1] w1]|] eqn:Ec; [|discriminate].
  pose proof (create_sub_period_eq st c _ parent self w child self1 w1 Hinv
                (or_intror Hrel) Ec) as Hchild.
  destruct (create_sub_period_child st c _ parent self w child self1 w1 Hinv
              (or_intror Hrel) Ec) as (_ & -> & _ & _).
  destruct (next st period) as [period'|]; [|discriminate].
  destruct (get_periods_loop st c fuel period' (after_sub st self) w1)
    as [[[[rest self2] w2]|]|] eqn:El; try discriminate.
  injection H as <- _ _. cbn [map]. f_equal; [exact Hchild|].
  exact (IH period' (after_sub st self) w1 rest self2 w2
           (no_typo_after_sub st self Hinv)
           (parent_after_trans st parent self Hrel) El).
Qed.

Lemma get_periods_list (st : Settings) (c : Variant) (fuel : nat)
    (parent : Period) (w : World) (l : list Period) (parent' : Period)
    (w' : World) :
  no_typo_attr parent ->
  get_periods st c fuel parent w = Some (Ok (l, parent', w')) ->
  l = map (sub_period st c parent) (map range l).
Proof.
  intros Hinv H. unfold get_periods in H.
  destruct (create_sub_period st c None parent w)
    as [[[period self1] w1]|] eqn:Ec; [|discriminate].
  destruct (create_sub_period_child st c _ parent parent w period self1 w1
              Hinv (or_introl eq_refl) Ec) as (_ & -> & _ & _).
  exact (get_periods_loop_list st c parent fuel period (after_sub st parent)
           w1 l parent' w' (no_typo_after_sub st parent Hinv)
           (after_sub_parent st parent) H).
Qed.

(** The days of a parent that runs from the day with ordinal [a] for [k]
    days. *)
Lemma get_days_list (st : Settings) (parent : Period) (w : World)
    (fuel : nat) (a : Z) (k : nat) :
  no_typo_attr parent ->
  start parent = day_at a -> end_ parent = day_at (a + Z.of_nat k) ->
  1 <= a -> a + Z.of_nat k + 1 <= _MAXORDINAL -> (k < fuel)%nat ->
  exists (parent' : Period) (w' : World),
    get_days st fuel parent w
    = Some (Ok (map (sub_period st KDay parent) (step_ranges 1 a k),
                parent', w')).
Proof.
  intros Hinv Hs He Ha Hmax Hfuel. unfold get_days.
  pose proof (get_periods_ranges st KDay fuel parent w Hinv) as H.
  rewrite Hs, He in H. cbn [sub_range] in H.
  change (_get_day_range ?d) with (variant_range st KDay d) in H.
  rewrite day_range_day_at in H by (auto; lia).
  rewrite (ranges_loop_days st k fuel a) in H by lia.
  destruct H as (l & parent' & w' & H & Hmap & _).
  exists parent', w'. rewrite H, <- Hmap.
  rewrite <- (get_periods_list st KDay fuel parent w l parent' w' Hinv H).
  reflexivity.
Qed.

Lemma step_ranges_lookup (len a : Z) (k i : nat) :
  (i < k)%nat ->
  step_ranges len a k !! i
  = Some (day_at (a + len * Z.of_nat i), day_at (a + len * Z.of_nat (S i))).
Proof.
  revert a i. induction k as [|k IH]; intros a i Hi; [lia|].
  destruct i as [|i].
  - cbn [step_ranges lookup list_lookup]. do 3 f_equal; lia.
  - cbn [step_ranges]. rewrite lookup_cons. rewrite IH by lia.
    rewrite !Nat2Z.inj_succ. do 3 f_equal; lia.
Qed.

Lemma create_sub_period_day (st : Settings) (parent : Period) (w : World)
    (k : Z) :
  no_typo_attr parent -> 1 <= k -> k + 1 <= _MAXORDINAL ->
  create_sub_period st KDay (Some (day_at k)) parent w
  = Ok (sub_period st KDay parent (day_at k, day_at (k + 1)),
        after_sub st parent, mk_World (S (storage_queries w))).
Proof.
  intros Hinv Hk Hmax.
  destruct (create_sub_period st KDay (Some (day_at k)) parent w)
    as [[[child self1] w1]|e] eqn:Ec.
  - pose proof (create_sub_period_eq st KDay _ parent parent w child self1 w1
                  Hinv (or_introl eq_refl) Ec) as Hchild.
    destruct (create_sub_period_child st KDay _ parent parent w child self1 w1
                Hinv (or_introl eq_refl) Ec) as (_ & -> & Hw & Hr).
    cbn [default from_option id sub_range] in Hr.
    change (_get_day_range ?d) with (variant_range st KDay d) in Hr.
    rewrite day_range_day_at in Hr by (auto; lia).
    assert (Hr' : range child = (day_at k, day_at (k + 1))) by congruence.
    rewrite Hr' in Hchild. rewrite Hchild.
    destruct w1 as [q]. cbn [storage_queries] in Hw. rewrite Hw.
    reflexivity.
  - rewrite create_sub_period_spec in Ec by assumption.
    cbn [default from_option id sub_range] in Ec.
    change (_get_day_range ?d) with (variant_range st KDay d) in Ec.
    rewrite day_range_day_at in Ec by (auto; lia). discriminate.
Qed.

(** X14: [Month.get_day] against [Month.get_days].  For a Month built by
    its constructor at the default [tzinfo], [get_days] yields as many Days as the month has, and
    for every day number [n] from 1 to that number [get_day(n)] returns the
    same Day as the one [get_days] yields in position [n]: same range,
    events, persisted occurrences and pool.  A day number below 1 is taken
    for 1. *)
Theorem get_day_in_get_days (st : Settings) (ev : list Event)
    (date : datetime) (pp pool : option (list Occurrence)) (m : Period)
    (w : World) (fuel : nat) :
  valid date -> Month ev date pp pool = Ok m -> (31 < fuel)%nat ->
  exists (l : list Period) (m' : Period) (w' : World),
    get_days st fuel m w = Some (Ok (l, m', w'))
    /\ Z.of_nat (length l) = _days_in_month (year date) (month date)
    /\ (forall n : Z,
          1 <= n <= _days_in_month (year date) (month date) ->
          exists (d m'' : Period) (w'' : World),
            get_day st n m w = Ok (d, m'', w'')
            /\ l !! Z.to_nat (n - 1) = Some d)
    /\ (forall n : Z, n <= 1 -> get_day st n m w = get_day st 1 m w).
Proof.
  intros Hv Hm Hfuel. destruct (Month_inv _ _ _ _ _ Hv Hm) as (Hno & ->).
  destruct (valid_inv date Hv) as ((Hy1 & Hmo & _) & Hmax & _).
  pose proof (dim_bounds (year date) (month date) Hmo) as Hdim.
  pose proof (month_end_bound (year date) (month date) ltac:(lia) Hmo Hno)
    as Hend.
  pose proof (ymd2ord_pos (year date) (month date) 1
                ltac:(apply date_ok_first; lia)) as Hpos.
  rewrite month_range_ord by assumption. cbn [fst snd].
  set (y := year date) in *. set (mo := month date) in *.
  set (o := _ymd2ord y mo 1) in *.
  set (k := Z.to_nat (_days_in_month y mo)).
  assert (Hk : Z.of_nat k = _days_in_month y mo) by (unfold k; lia).
  set (parent := Period__init__ (Some KMonth) ev (day_at o)
                   (day_at (o + _days_in_month y mo)) pp pool).
  assert (Hinv : no_typo_attr parent) by apply no_typo_init.
  destruct (get_days_list st parent w fuel o k Hinv eq_refl
              ltac:(rewrite Hk; reflexivity) Hpos
              ltac:(unfold _MAXORDINAL in *; lia) ltac:(lia))
    as (m' & w' & Hdays).
  eexists _, m', w'. split; [exact Hdays|].
  split; [rewrite !length_map, step_ranges_length; exact Hk|].
  split.
  - intros n Hn. unfold get_day.
    replace (if 1 <? n then add_days (start parent) (n - 1)
             else Ok (start parent))
      with (Ok (day_at (o + (n - 1)))).
    2:{ symmetry. cbn [start parent Period__init__].
        destruct (Z.ltb_spec 1 n).
        - apply add_days_day_at; unfold _MAXORDINAL in *; lia.
        - replace (n - 1) with 0 by lia. rewrite Z.add_0_r. reflexivity. }
    rewrite bind_Ok.
    rewrite create_sub_period_day
      by (try assumption; unfold _MAXORDINAL in *; lia).
    eexists _, _, _. split; [reflexivity|].
    rewrite list_lookup_fmap, step_ranges_lookup by lia.
    cbn [fmap option_fmap option_map]. do 3 f_equal; f_equal; lia.
  - intros n Hn. unfold get_day.
    destruct (Z.ltb_spec 1 n); [lia|]. reflexivity.
Qed.

Lemma get_day_in_get_days_witness :
  exists (l : list Period) (m' : Period) (w' : World)
         (d m'' : Period) (w'' : World),
    get_days settings_monday 40 february_2024 world0 = Some (Ok (l, m', w'))
    /\ length l = 29%nat
    /\ get_day settings_monday 29 february_2024 world0 = Ok (d, m'', w'')
    /\ l !! 28%nat = Some d
    /\ start d = at_midnight 2024 2 29.
Proof.
  assert (Hm : Month [] (mk_datetime 2024 2 15 0 0 0 0) None None
               = Ok february_2024) by (vm_compute; reflexivity).
  destruct (get_day_in_get_days settings_monday []
              (mk_datetime 2024 2 15 0 0 0 0) None None february_2024 world0
              40 eq_refl Hm ltac:(lia))
    as (l & m' & w' & Hdays & Hlen & Hnth & _).
  destruct (Hnth 29 ltac:(vm_compute; split; discriminate))
    as (d & m'' & w'' & Hday & Hl).
  exists l, m', w', d, m'', w''. split; [exact Hdays|].
  split; [change (_days_in_month _ _) with 29 in Hlen; lia|].
  split; [exact Hday|]. split; [exact Hl|].
  assert (E : get_day settings_monday 29 february_2024 world0
              = Ok (sub_period settings_monday KDay february_2024
                      (at_midnight 2024 2 29, at_midnight 2024 3 1),
                    after_sub settings_monday february_2024,
                    mk_World 1)) by (vm_compute; reflexivity).
  rewrite E in Hday. injection Hday as <- _ _. reflexivity.
Defined.

(** ** The names of the days of a week *)

(** X15: [weekday_names] lines up with the days of a week.  For a Week
    built by its constructor at the default [tzinfo], [get_days] yields 7 Days, and the names under
    which [WEEKDAYS] lists their weekdays, in that order, are
    [weekday_names]: both follow [FIRST_DAY_OF_WEEK], Monday first when it is
    1 and Sunday first for any other value. *)
Theorem weekday_names_of_week {A : Type} (WEEKDAYS : Z -> A) (st : Settings)
    (ev : list Event) (date : datetime) (pp pool : option (list Occurrence))
    (wk : Period) (w : World) (fuel : nat) :
  valid date -> Week st ev date pp pool = Ok wk -> (7 < fuel)%nat ->
  exists (l : list Period) (wk' : Period) (w' : World),
    get_days st fuel wk w = Some (Ok (l, wk', w'))
    /\ map (fun d => WEEKDAYS (weekday (start d))) l
       = weekday_names st WEEKDAYS.
Proof.
  intros Hv H Hfuel.
  destruct (Week_inv _ _ _ _ _ _ Hv H) as (Hlo & Hhi & ->).
  pose proof (week_start_aligned st (toordinal date)) as Hal.
  set (s := toordinal date - week_offset st (toordinal date)) in *.
  pose proof (week_end_not_last st s Hal Hhi) as Hhi'.
  set (parent := Period__init__ (Some KWeek) ev (day_at s) (day_at (s + 7))
                   pp pool).
  destruct (get_days_list st parent w fuel s 7 (no_typo_init _ _ _ _ _ _)
              eq_refl eq_refl Hlo ltac:(cbn; lia) ltac:(lia))
    as (wk' & w' & Hdays).
  eexists _, wk', w'. split; [exact Hdays|].
  rewrite map_map. cbn [step_ranges map sub_period start Period__init__ fst].
  unfold weekday. rewrite !toordinal_day_at by lia.
  unfold weekday_names, week_offset in *.
  destruct (FIRST_DAY_OF_WEEK st =? 1); cbn [map].
  - repeat (apply (f_equal2 cons); [f_equal; lia|]). reflexivity.
  - repeat (apply (f_equal2 cons); [f_equal; lia|]). reflexivity.
Qed.

Lemma weekday_names_of_week_witness :
  exists (l : list Period) (wk' : Period) (w' : World),
    get_days settings_sunday 10
      (Period__init__ (Some KWeek) [] (at_midnight 2024 2 11)
         (at_midnight 2024 2 18) None None) world0
    = Some (Ok (l, wk', w'))
    /\ map (fun d => weekday (start d)) l = [6; 0; 1; 2; 3; 4; 5].
Proof.
  assert (H : Week settings_sunday [] (mk_datetime 2024 2 15 8 30 0 0)
                None None
              = Ok (Period__init__ (Some KWeek) [] (at_midnight 2024 2 11)
                      (at_midnight 2024 2 18) None None))
    by (vm_compute; reflexivity).
  exact (weekday_names_of_week (fun i => i) settings_sunday []
           (mk_datetime 2024 2 15 8 30 0 0) None None _ world0 10
           eq_refl H ltac:(lia)).
Defined.

(** ** Equality of periods *)

Lemma dt_eq_iff (a b : datetime) : dt_eq a b = true <-> a = b.
Proof.
  unfold dt_eq. rewrite <- cmp_eq. destruct (_cmp a b); split; congruence.
Qed.

(** X16: [__eq__] and [__ne__] agree: one is the negation of the other.
    Two periods are equal exactly when they have the same start, the same
    end and equal events; the class, the pool and the cached occurrences do
    not count, so a Day equals the plain period over the same day. *)
Theorem period_eq_ne (events_eq : list Event -> list Event -> bool)
    (p q : Period) :
  Period__ne__ events_eq p q = negb (Period__eq__ events_eq p q)
  /\ (Period__eq__ events_eq p q = true
      <-> start p = start q /\ end_ p = end_ q
          /\ events_eq (events p) (events q) = true)
  /\ (forall (c : option Variant) (pp pool : option (list Occurrence)),
        Period__eq__ events_eq p
          (Period__init__ c (events q) (start q) (end_ q) pp pool)
        = Period__eq__ events_eq p q).
Proof.
  unfold Period__ne__, Period__eq__, dt_ne. split; [|split].
  - rewrite !negb_andb. reflexivity.
  - rewrite !andb_true_iff, !dt_eq_iff. tauto.
  - intros c pp pool. reflexivity.
Qed.

(** ** Occupied children *)

Lemma has_occurrences_iff (st : Settings) (p : Period) :
  fst (has_occurrences st p) = true
  <-> exists o, In o (occurrences_of p) /\ classify_occurrence st p o <> None.
Proof.
  unfold has_occurrences, occurrences_of.
  destruct (cached_get_sorted_occurrences p) as [occs p'] eqn:E.
  cbn [fst].
  assert (Hcls : forall o, classify_occurrence st p' o
                           = classify_occurrence st p o).
  { intros o. unfold classify_occurrence.
    pose proof (cached_fields p) as Hf. rewrite E in Hf.
    cbn [snd] in Hf. destruct Hf as (_ & -> & -> & _). reflexivity. }
  rewrite existsb_exists. split.
  - intros (o & Hin & Ho). exists o. split; [exact Hin|].
    apply bool_decide_eq_true in Ho. rewrite Hcls in Ho.
    destruct Ho as [x Hx]. congruence.
  - intros (o & Hin & Ho). exists o. split; [exact Hin|].
    apply bool_decide_eq_true. rewrite Hcls.
    destruct (classify_occurrence st p o); [eexists; reflexivity | congruence].
Qed.

Lemma classify_same_range (st : Settings) (p q : Period) (o : Occurrence) :
  start p = start q -> end_ p = end_ q ->
  classify_occurrence st p o = classify_occurrence st q o.
Proof. intros Hs He. unfold classify_occurrence. rewrite Hs, He. reflexivity. Qed.

(** X17: an occupied child makes an occupied parent.  When a Month, Week
    or Day made by [create_sub_period] lies within its parent and
    [has_occurrences] holds of it, [has_occurrences] holds of the parent
    too: what counts for the child is an occurrence of the parent, and the
    parent does not reject it. *)
Theorem occupied_child_occupied_parent (st : Settings) (c : Variant)
    (so : option datetime) (parent : Period) (w : World)
    (child parent' : Period) (w' : World) :
  no_typo_attr parent -> c <> KYear ->
  create_sub_period st c so parent w = Ok (child, parent', w') ->
  inside child parent ->
  fst (has_occurrences st child) = true ->
  fst (has_occurrences st parent) = true
  /\ fst (has_occurrences st parent') = true.
Proof.
  intros Hinv Hc H [Hs He] Hhas.
  destruct (create_sub_period_child st c so parent parent w child parent' w'
              Hinv (or_introl eq_refl) H) as (Hchild & -> & _ & _).
  apply has_occurrences_iff in Hhas. destruct Hhas as (o & Hin & Ho).
  rewrite (child_occurrences st c parent child Hc Hchild) in Hin.
  apply List.filter_In in Hin. destruct Hin as [Hin Hov].
  unfold overlaps, dt_gt in Hov. apply andb_true_iff in Hov.
  destruct Hov as [H1 H2].
  assert (Hsup : Occ.cancelled o && negb (SHOW_CANCELLED_OCCURRENCES st)
                 = false).
  { destruct (Occ.cancelled o && negb (SHOW_CANCELLED_OCCURRENCES st)) eqn:E;
      [|reflexivity].
    exfalso. apply Ho. apply classify_occurrence_none. left. exact E. }
  assert (Hparent : classify_occurrence st parent o <> None).
  { rewrite classify_occurrence_some; [discriminate | exact Hsup |].
    apply orb_false_iff. unfold dt_gt. split.
    - rewrite dt_lt_negb_le.
      rewrite (dt_lt_le _ _ (dt_lt_le_trans _ _ _ H1 He)). reflexivity.
    - rewrite dt_lt_negb_le.
      rewrite (dt_lt_le _ _ (dt_le_lt_trans _ _ _ Hs H2)). reflexivity. }
  split.
  - apply has_occurrences_iff. exists o. split; assumption.
  - apply has_occurrences_iff. exists o.
    pose proof (after_sub_parent st parent) as Hafter.
    rewrite (parent_after_occurrences st parent _ Hafter).
    split; [exact Hin|].
    destruct Hafter as (_ & Hs' & He' & _).
    rewrite (classify_same_range st _ parent o Hs' He'). exact Hparent.
Qed.

Lemma occupied_child_occupied_parent_witness :
  exists (child parent' : Period) (w' : World),
    create_sub_period settings_monday KDay (Some (at_midnight 2024 1 10))
      january_2024_pool world0 = Ok (child, parent', w')
    /\ fst (has_occurrences settings_monday child) = true
    /\ fst (has_occurrences settings_monday january_2024_pool) = true.
Proof.
  assert (H : exists child parent' w',
            create_sub_period settings_monday KDay
              (Some (at_midnight 2024 1 10)) january_2024_pool world0
            = Ok (child, parent', w')
            /\ inside child january_2024_pool
            /\ fst (has_occurrences settings_monday child) = true).
  { eexists _, _, _. split; [vm_compute; reflexivity|].
    split; [split|]; vm_compute; reflexivity. }
  destruct H as (child & parent' & w' & H & Hin & Hhas).
  exists child, parent', w'. split; [exact H|]. split; [exact Hhas|].
  exact (proj1 (occupied_child_occupied_parent settings_monday KDay _
                  january_2024_pool world0 child parent' w'
                  (no_typo_init _ _ _ _ _ _) ltac:(discriminate) H Hin Hhas)).
Defined.

(** ** The days of any period *)

Lemma dt_lt_day_at_stop (n : Z) (e : datetime) :
  1 <= n -> valid e -> dt_lt (day_at n) e = (n <? days_end e).
Proof.
  intros Hn Hv. unfold dt_lt, days_end.
  rewrite cmp_day_at_valid by assumption.
  destruct (valid_inv e Hv) as (_ & _ & Hh & Hmi & Hs & Hus).
  destruct (Z.compare_spec n (toordinal e)) as [E|E|E].
  - cbn [_cmp_tuple].
    destruct (Z.compare_spec 0 (hour e)); [|
      destruct (Z.eqb_spec (hour e) 0); [lia|]; cbn [andb];
      symmetry; apply Z.ltb_lt; lia | lia].
    destruct (Z.eqb_spec (hour e) 0); [|lia]. cbn [andb].
    destruct (Z.compare_spec 0 (minute e)); [|
      destruct (Z.eqb_spec (minute e) 0); [lia|]; cbn [andb];
      symmetry; apply Z.ltb_lt; lia | lia].
    destruct (Z.eqb_spec (minute e) 0); [|lia]. cbn [andb].
    destruct (Z.compare_spec 0 (second e)); [|
      destruct (Z.eqb_spec (second e) 0); [lia|]; cbn [andb];
      symmetry; apply Z.ltb_lt; lia | lia].
    destruct (Z.eqb_spec (second e) 0); [|lia]. cbn [andb].
    destruct (Z.compare_spec 0 (microsecond e)); [|
      destruct (Z.eqb_spec (microsecond e) 0); [lia|];
      symmetry; apply Z.ltb_lt; lia | lia].
    destruct (Z.eqb_spec (microsecond e) 0); [|lia].
    symmetry. apply Z.ltb_ge. lia.
  - symmetry. apply Z.ltb_lt. destruct (_ && _); lia.
  - symmetry. apply Z.ltb_ge. destruct (_ && _); lia.
Qed.

Lemma days_end_range (e : datetime) :
  toordinal e <= days_end e <= toordinal e + 1.
Proof. unfold days_end. destruct (_ && _); lia. Qed.

Lemma ranges_loop_days_stop (st : Settings) (stop : datetime) :
  valid stop ->
  forall (k fuel : nat) (a : Z),
    (k < fuel)%nat -> 1 <= a ->
    days_end stop - a <= Z.of_nat k ->
    ((0 < k)%nat -> days_end stop - a = Z.of_nat k) ->
    a + Z.of_nat k + 1 <= _MAXORDINAL ->
    ranges_loop st KDay fuel (day_at a, day_at (a + 1)) stop
    = Some (Ok (step_ranges 1 a k)).
Proof.
  intros Hv.
  induction k as [|k IH]; intros fuel a Hfuel Ha Hle Hpos Hmax;
    (destruct fuel as [|fuel]; [lia|]); cbn [ranges_loop fst snd].
  - rewrite dt_lt_day_at_stop by assumption.
    destruct (Z.ltb_spec a (days_end stop)); [lia|]. reflexivity.
  - rewrite dt_lt_day_at_stop by assumption.
    destruct (Z.ltb_spec a (days_end stop)); [|lia].
    cbn [sub_range].
    change (_get_day_range ?d) with (variant_range st KDay d).
    rewrite !day_range_day_at by (auto; lia).
    rewrite IH by lia. reflexivity.
Qed.

Lemma get_periods_all_children (st : Settings) (c : Variant) (fuel : nat)
    (parent : Period) (w : World) (l : list Period) (parent' : Period)
    (w' : World) :
  no_typo_attr parent ->
  get_periods st c fuel parent w = Some (Ok (l, parent', w')) ->
  Forall (child_of st c parent) l.
Proof.
  intros Hinv H. unfold get_periods in H.
  destruct (create_sub_period st c None parent w)
    as [[[period self1] w1]|] eqn:Ec; [|discriminate].
  destruct (create_sub_period_child st c _ parent parent w period self1 w1
              Hinv (or_introl eq_refl) Ec) as (_ & -> & _ & _).
  exact (proj1 (get_periods_loop_children st c parent fuel period
                  (after_sub st parent) w1 l parent' w'
                  (no_typo_after_sub st parent Hinv)
                  (after_sub_parent st parent) H)).
Qed.

(** X18: the days of any period.  [get_periods(Day)] works on plain
    periods and time slots too, not only on months and weeks.  Take a period
    whose bounds are instants of the module's zone, whatever their time of
    day, with the start not later than the day 9999-12-30 and the end not
    later than 9999-12-30 at midnight, so that every Day built, the one
    after the last included, is within the range of [datetime].  Then
    [get_periods(Day)] yields the consecutive Days from the day of the
    period's start to the day that holds its last instant.  When the start is before the end these Days
    are contiguous and every instant of the period lies in one of them; the
    first Day starts at midnight on or before the period's start and the
    last one ends at midnight on or after its end. *)
Theorem get_days_of_any_period (st : Settings) (p : Period) (w : World)
    (fuel : nat) :
  no_typo_attr p -> valid (start p) -> valid (end_ p) ->
  toordinal (start p) + 1 <= _MAXORDINAL ->
  days_end (end_ p) + 1 <= _MAXORDINAL ->
  (Z.to_nat (days_end (end_ p) - toordinal (start p)) < fuel)%nat ->
  exists (l : list Period) (p' : Period) (w' : World),
    get_days st fuel p w = Some (Ok (l, p', w'))
    /\ map range l
       = step_ranges 1 (toordinal (start p))
           (Z.to_nat (days_end (end_ p) - toordinal (start p)))
    /\ Forall (child_of st KDay p) l
    /\ (dt_lt (start p) (end_ p) = true ->
        reaches_over (range p) (map range l)).
Proof.
  intros Hinv Hvs Hve Hs Hmax Hfuel.
  pose proof (toordinal_range (start p) Hvs) as Hrs.
  set (a := toordinal (start p)) in *.
  set (k := Z.to_nat (days_end (end_ p) - a)) in *.
  pose proof (get_periods_ranges st KDay fuel p w Hinv) as H.
  cbn [sub_range] in H. rewrite get_day_range_ok in H by assumption.
  fold a in H.
  rewrite (ranges_loop_days_stop st (end_ p) Hve k fuel a) in H by lia.
  destruct H as (l & p' & w' & H & Hmap & _).
  exists l, p', w'. split; [exact H|]. split; [exact Hmap|].
  split; [eapply get_periods_all_children; eassumption|].
  intros Hlt. rewrite Hmap. apply reaches_over_intro.
  assert (Ha : dt_le (day_at a) (start p) = true)
    by (rewrite dt_le_day_at_l by (auto; lia); apply Z.leb_le; lia).
  assert (Hk : a < days_end (end_ p)).
  { apply Z.ltb_lt. rewrite <- dt_lt_day_at_stop by (auto; lia).
    eapply dt_le_lt_trans; eassumption. }
  destruct k as [|k'] eqn:Ek; [lia|].
  unfold range. cbn [fst snd]. split; [|split; [|split]].
  - eexists. split; [apply step_ranges_head|]. cbn [fst snd].
    split; [exact Ha|].
    rewrite dt_lt_day_at_r by (auto; lia). apply Z.ltb_lt. lia.
  - eexists. split; [apply step_ranges_last|]. cbn [fst snd]. split.
    + rewrite dt_lt_day_at_stop by (auto; lia). apply Z.ltb_lt. lia.
    + rewrite dt_le_negb_lt, dt_lt_day_at_stop by (auto; lia).
      apply negb_true_iff, Z.ltb_ge. lia.
  - apply step_ranges_contiguous.
  - apply step_ranges_well_ordered; lia.
Qed.

Lemma get_days_of_any_period_witness :
  exists (slot : Period) (l : list Period) (p' : Period) (w' : World),
    get_time_slot january_2024 (mk_datetime 2024 1 10 9 0 0 0)
      (mk_datetime 2024 1 12 17 30 0 0) = Some slot
    /\ get_days settings_monday 5 slot world0 = Some (Ok (l, p', w'))
    /\ map range l
       = [(at_midnight 2024 1 10, at_midnight 2024 1 11);
          (at_midnight 2024 1 11, at_midnight 2024 1 12);
          (at_midnight 2024 1 12, at_midnight 2024 1 13)].
Proof.
  eexists.
  assert (Hslot : get_time_slot january_2024 (mk_datetime 2024 1 10 9 0 0 0)
                    (mk_datetime 2024 1 12 17 30 0 0)
                  = Some (new_Period [] (mk_datetime 2024 1 10 9 0 0 0)
                            (mk_datetime 2024 1 12 17 30 0 0) None None))
    by (vm_compute; reflexivity).
  destruct (get_days_of_any_period settings_monday
              (new_Period [] (mk_datetime 2024 1 10 9 0 0 0)
                 (mk_datetime 2024 1 12 17 30 0 0) None None) world0 5
              (no_typo_init _ _ _ _ _ _) eq_refl eq_refl
              ltac:(vm_compute; discriminate) ltac:(vm_compute; discriminate)
              ltac:(vm_compute; lia))
    as (l & p' & w' & H & Hmap & _).
  exists l, p', w'. split; [exact Hslot|]. split; [exact H|].
  rewrite Hmap. vm_compute. reflexivity.
Defined.

(** ** Years as sub-periods *)

(** X19: [create_sub_period] passes the parent's occurrences as fourth
    positional argument, which [Year] takes for its time zone.  With
    [USE_TZ] on, making a Year child is refused with [TypeError] whatever
    the parent, and [get_periods(Year)] raises it before it yields anything.
    With [USE_TZ] off the argument is dropped: the Year child is built
    whenever [Year] accepts the date, and it has no pool, so it computes its
    occurrences from the events. *)
Theorem year_sub_period (st : Settings) (so : option datetime)
    (parent : Period) (w : World) :
  no_typo_attr parent ->
  (USE_TZ st = true ->
   create_sub_period st KYear so parent w = Raise TypeError
   /\ forall fuel : nat,
        get_periods st KYear fuel parent w = Some (Raise TypeError))
  /\ (USE_TZ st = false ->
      forall y : Period,
        Year (events parent) (default (start parent) so)
          (Some (objects_filter st (events parent))) = Ok y ->
        create_sub_period st KYear so parent w
        = Ok (y, after_sub st parent, mk_World (S (storage_queries w)))
        /\ occurrence_pool y = None
        /\ occurrences_of y
           = sorted (flat_map
                       (fun e => get_occurrences e (start y) (end_ y))
                       (events parent))).
Proof.
  intros Hinv. split.
  - intros Htz.
    assert (H : forall so', create_sub_period st KYear so' parent w
                            = Raise TypeError).
    { intros so'. rewrite create_sub_period_spec by assumption.
      cbn [sub_range]. rewrite Htz. reflexivity. }
    split; [apply H|]. intros fuel. unfold get_periods. rewrite H.
    reflexivity.
  - intros Htz y Hy. rewrite create_sub_period_spec by assumption.
    cbn [sub_range]. rewrite Htz. unfold Year in Hy.
    destruct (_get_year_range (default (start parent) so)) as [[s e]|];
      [|discriminate].
    rewrite bind_Ok in *. injection Hy as <-. cbn [fst snd].
    split; [reflexivity|]. split; [reflexivity|].
    rewrite fresh_occurrences
      by (apply lookup_singleton_ne; discriminate).
    reflexivity.
Qed.

Lemma year_sub_period_witness :
  get_periods settings_monday KYear 0 january_2024 world0
  = Some (Raise TypeError).
Proof.
  destruct (year_sub_period settings_monday None january_2024 world0
              (no_typo_init _ _ _ _ _ _)) as [H _].
  exact (proj2 (H eq_refl) 0%nat).
Defined.

(** ** Time slots *)

Lemma get_time_slot_some (self slot : Period) (s e : datetime) :
  get_time_slot self s e = Some slot ->
  dt_le (start self) s = true /\ dt_le e (end_ self) = true
  /\ slot = new_Period (events self) s e None None.
Proof.
  unfold get_time_slot, dt_ge. intros H.
  destruct (dt_le (start self) s); [|discriminate].
  destruct (dt_le e (end_ self)); [|discriminate].
  injection H as <-. repeat split.
Qed.

(** X3: time slots nest.  When [get_time_slot] returns a slot, the slot is a
    plain period over the same events whose range lies within the period;
    it takes nothing from the caches of the period: its occurrences are the
    sorted occurrences its events report for the slot's own range; and
    every time slot of the slot is a time slot of the period, with the same
    result. *)
Theorem get_time_slot_nests (self slot : Period) (s e : datetime) :
  get_time_slot self s e = Some slot ->
  cls slot = None /\ events slot = events self /\ range slot = (s, e)
  /\ inside slot self
  /\ occurrences_of slot
     = sorted (flat_map (fun ev => get_occurrences ev s e) (events self))
  /\ (forall (s' e' : datetime) (sub : Period),
        get_time_slot slot s' e' = Some sub ->
        get_time_slot self s' e' = Some sub).
Proof.
  intros H. destruct (get_time_slot_some self slot s e H) as (Hs & He & ->).
  split; [reflexivity|]. split; [reflexivity|]. split; [reflexivity|].
  split; [split; [exact Hs | exact He]|]. split; [reflexivity|].
  intros s' e' sub Hsub.
  destruct (get_time_slot_some _ sub s' e' Hsub) as (Hs' & He' & ->).
  cbn [start end_ events new_Period Period__init__] in *.
  destruct (get_time_slot_cases self s' e') as [Hok _].
  apply Hok. split.
  - exact (dt_le_trans _ _ _ Hs Hs').
  - exact (dt_le_trans _ _ _ He' He).
Qed.

Lemma get_time_slot_nests_witness :
  exists slot sub : Period,
    get_time_slot january_2024 (mk_datetime 2024 1 10 9 0 0 0)
      (mk_datetime 2024 1 12 17 30 0 0) = Some slot
    /\ get_time_slot slot (mk_datetime 2024 1 11 0 0 0 0)
         (mk_datetime 2024 1 12 0 0 0 0) = Some sub
    /\ get_time_slot january_2024 (mk_datetime 2024 1 11 0 0 0 0)
         (mk_datetime 2024 1 12 0 0 0 0) = Some sub
    /\ inside slot january_2024.
Proof.
  eexists _, _.
  split; [reflexivity|]. split; [reflexivity|].
  destruct (get_time_slot_nests january_2024 _ (mk_datetime 2024 1 10 9 0 0 0)
              (mk_datetime 2024 1 12 17 30 0 0) eq_refl)
    as (_ & _ & _ & Hin & _ & Hnest).
  split; [apply Hnest; reflexivity | exact Hin].
Defined.
